(** * Speechmatics transcription server: a shallow embedding and its properties

    The development follows the three Python modules of the repository:
    [utils.py] (duration formatting, transcript paths), [transcriber.py]
    (the Speechmatics client wrapper, the batch runner, the usage report)
    and [server.py] (the transcript codec and the directory report).

    Conventions of the embedding.
    - A Python [str] is a [string]; one character stands for one code point
      below 256, which is where all of [str.isspace] and the decimal digits
      that the code relies on live.
    - A Python [float] or [int] duration is the rational number it denotes
      ([Q]); floor division and remainder are exact on those.
    - Exceptions are explicit: a function that may raise returns an [option]
      or a dedicated answer type.
    - The file system is a finite map from paths to file contents, on a
      POSIX host: writing in text mode leaves the text as it is, reading
      in text mode turns "\r\n" and "\r" into "\n".
    - The asyncio batch is a transition system on the tasks' phases. *)

From Stdlib Require Import ZArith QArith Qround Ascii String List Lia Bool.
From stdpp Require Import base option list gmap strings sorting.
Local Open Scope Z_scope.

(** ** Python string primitives *)

Module PyStr.

Definition LF : ascii := "010"%char.
Definition CR : ascii := "013"%char.
Definition COLON : ascii := ":"%char.

(** [str.isspace] on one code point below 256: TAB..CR, FS..US and SPACE,
    NEL (0x85) and NBSP (0xA0). *)
Definition isspace (c : ascii) : bool :=
  let n := nat_of_ascii c in
  ((9 <=? n) && (n <=? 13) || (28 <=? n) && (n <=? 32)
   || (n =? 133) || (n =? 160))%nat.

Fixpoint lstrip (s : string) : string :=
  match s with
  | EmptyString => EmptyString
  | String c r => if isspace c then lstrip r else s
  end.

Fixpoint rstrip (s : string) : string :=
  match s with
  | EmptyString => EmptyString
  | String c r =>
      match rstrip r with
      | EmptyString => if isspace c then EmptyString else String c EmptyString
      | r' => String c r'
      end
  end.

(** [s.strip()] *)
Definition strip (s : string) : string := rstrip (lstrip s).

(** [s.split(sep)] for a one-character separator: never the empty list. *)
Fixpoint split (sep : ascii) (s : string) : list string :=
  match s with
  | EmptyString => [EmptyString]
  | String c r =>
      if Ascii.eqb c sep then EmptyString :: split sep r
      else match split sep r with
           | h :: t => String c h :: t
           | [] => [String c EmptyString]
           end
  end.

(** [s.split(sep, 1)]: cut at the first separator only. *)
Fixpoint split_once (sep : ascii) (s : string) : list string :=
  match s with
  | EmptyString => [EmptyString]
  | String c r =>
      if Ascii.eqb c sep then [EmptyString; r]
      else match split_once sep r with
           | h :: t => String c h :: t
           | [] => [String c EmptyString]
           end
  end.

(** [sep.join(parts)] *)
Fixpoint join (sep : string) (parts : list string) : string :=
  match parts with
  | [] => EmptyString
  | [x] => x
  | x :: rest => x +:+ sep +:+ join sep rest
  end.

(** [s.startswith(p)] *)
Definition startswith (p s : string) : bool := String.prefix p s.

(** [s.endswith(suf)]: some suffix of [s] is [suf]. *)
Fixpoint endswith (suf s : string) : bool :=
  String.eqb s suf ||
  match s with
  | EmptyString => false
  | String _ r => endswith suf r
  end.

(** [s[:-n]] for a positive [n] *)
Definition drop_last (n : nat) (s : string) : string :=
  substring 0 (String.length s - n) s.

(** What [open(path, "r")] does to line endings in text mode with the
    default [newline=None]: both "\r\n" and a lone "\r" are read as "\n". *)
Fixpoint universal_newlines (s : string) : string :=
  match s with
  | EmptyString => EmptyString
  | String c r =>
      if Ascii.eqb c CR then
        match r with
        | String c2 r2 =>
            if Ascii.eqb c2 LF then String LF (universal_newlines r2)
            else String LF (universal_newlines r)
        | EmptyString => String LF EmptyString
        end
      else String c (universal_newlines r)
  end.

(** No character of [s] is a line break. *)
Fixpoint no_linebreak (s : string) : bool :=
  match s with
  | EmptyString => true
  | String c r => negb (Ascii.eqb c LF) && negb (Ascii.eqb c CR) && no_linebreak r
  end.

Fixpoint no_char (x : ascii) (s : string) : bool :=
  match s with
  | EmptyString => true
  | String c r => negb (Ascii.eqb c x) && no_char x r
  end.

(** No character of [s] is white space. *)
Fixpoint no_space (s : string) : bool :=
  match s with
  | EmptyString => true
  | String c r => negb (isspace c) && no_space r
  end.

(** *** Decimal numerals *)

Definition digit_char (d : N) : ascii := ascii_of_N (48 + d).

Definition digit_of (c : ascii) : option N :=
  let n := N_of_ascii c in
  if ((48 <=? n) && (n <=? 57))%N then Some (n - 48)%N else None.

(** The digits of [n], most significant first, put in front of [acc];
    [fuel] bounds the number of digits. *)
Fixpoint dec_digits (fuel : nat) (n : N) (acc : string) : string :=
  let acc' := String (digit_char (n mod 10)) acc in
  match fuel with
  | O => acc'
  | S f => if (n / 10 =? 0)%N then acc' else dec_digits f (n / 10) acc'
  end.

Definition str_of_N (n : N) : string := dec_digits (N.size_nat n) n EmptyString.

(** [str(z)] for an [int] *)
Definition str_of_Z (z : Z) : string :=
  match z with
  | Zneg p => String "-"%char (str_of_N (Npos p))
  | _ => str_of_N (Z.to_N z)
  end.

(** The format spec [{z:02d}]: zero padding up to width 2, sign included. *)
Definition fmt_02d (z : Z) : string :=
  match z with
  | Zneg _ => str_of_Z z
  | _ => if z <? 10 then String "0"%char (str_of_Z z) else str_of_Z z
  end.

Definition is_digit (c : ascii) : bool :=
  match digit_of c with
  | Some _ => true
  | None => false
  end.

Fixpoint digits_only (s : string) : bool :=
  match s with
  | EmptyString => true
  | String c r => is_digit c && digits_only r
  end.

(** Two decimal digits, tens first: what "zero-padded to 2 digits" asks of
    a number below 100. *)
Definition two_digits (n : Z) : string :=
  String (digit_char (Z.to_N (n / 10)))
         (String (digit_char (Z.to_N (n mod 10))) EmptyString).

(** Digits with single underscores between them, the body of an [int]
    literal; [prev] tells whether the previous character was a digit. *)
Fixpoint int_body (s : string) (acc : N) (prev : bool) : option N :=
  match s with
  | EmptyString => if prev then Some acc else None
  | String c r =>
      if Ascii.eqb c "_"%char then
        if prev then int_body r acc false else None
      else match digit_of c with
           | Some d => int_body r (acc * 10 + d)%N true
           | None => None
           end
  end.

(** [int(s)]: [None] stands for [ValueError]. *)
Definition py_int (s : string) : option Z :=
  match strip s with
  | String "-"%char r => option_map (fun n => - Z.of_N n) (int_body r 0%N false)
  | String "+"%char r => option_map Z.of_N (int_body r 0%N false)
  | t => option_map Z.of_N (int_body t 0%N false)
  end.

(** *** Numbers *)

(** [x // n] and [x % n] on a float [x] with a positive integer [n], and
    [int(x)] (truncation towards zero). *)
Definition floordiv (x : Q) (n : Z) : Z := Qfloor (x / inject_Z n).
Definition pymod (x : Q) (n : Z) : Q := x - inject_Z (n * floordiv x n).
Definition int_of_float (x : Q) : Z :=
  if Qle_bool 0 x then Qfloor x else Qceiling x.

(** Truthiness of a number: everything but zero. *)
Definition truthy (x : Q) : bool := negb (Qeq_bool x 0).

(** [x or 0] for an optional number *)
Definition or_zero (x : option Q) : Q :=
  match x with
  | Some q => if truthy q then q else 0%Q
  | None => 0%Q
  end.

End PyStr.

(** ** utils.py *)

Module Utils.
Import PyStr.

Definition format_duration (seconds : Q) : string :=
  let hours := int_of_float (inject_Z (floordiv seconds 3600)) in
  let minutes := int_of_float (inject_Z (floordiv (pymod seconds 3600) 60)) in
  let secs := int_of_float (pymod seconds 60) in
  if 0 <? hours then
    str_of_Z hours +:+ ":" +:+ fmt_02d minutes +:+ ":" +:+ fmt_02d secs
  else
    str_of_Z minutes +:+ ":" +:+ fmt_02d secs.

Definition get_transcript_path (media_path : string) (with_timestamps : bool) : string :=
  let ext := if with_timestamps then ".transcript.json" else ".transcript.txt" in
  media_path +:+ ext.

End Utils.

(** ** transcriber.py *)

Module Transcriber.
Import PyStr.

Inductive Status := StatusSuccess | StatusError.

(** One entry of [TranscriptionResult.words]: the dict with the keys
    "word", "start", "end" and "confidence". *)
Record word_entry := {
  word : string;
  start : Q;
  end_ : Q;
  confidence : Q
}.

Record TranscriptionResult := {
  file_path : string;
  transcript : string;
  words : option (list word_entry);
  duration_seconds : Q;
  accuracy : string;
  diarization : bool;
  status : Status;
  error_message : option string;
  job_id : option string
}.

(** *** The provider's objects, as the code probes them

    The SDK objects are read with [hasattr]/[getattr] and a default, so each
    attribute is optional: [None] is "attribute missing". *)

Record alternative := {
  content : option string;
  alt_confidence : option Q
}.

Record result_item := {
  item_type : option string;
  alternatives : option (list alternative);
  start_time : option Q;
  end_time : option Q
}.

Record api_result := {
  transcript_text : option string;
  results : option (list result_item)
}.

(** What the code reads from a raised [HTTPStatusError]: the status code,
    the outcome of [error.response.json().get("detail", ...)] and
    [str(error)]. *)
Inductive detail_probe :=
  | DetailFound (text : string)   (* the body is a JSON object with "detail" *)
  | DetailAbsent                  (* a JSON object without that key *)
  | DetailRaises.                 (* [json()] or [.get] raised *)

Record HTTPStatusError := {
  status_code : Z;
  response_detail : detail_probe;
  error_text : string
}.

Inductive OperatingPoint := STANDARD | ENHANCED.

Record TranscriptionConfig := {
  language : string;
  operating_point : OperatingPoint;
  config_diarization : option string
}.

(** The answer of [submit_job] followed by [wait_for_completion]. *)
Inductive remote_reply :=
  | Completed (job : string) (result : api_result)
  | RaisesHTTP (e : HTTPStatusError)
  | RaisesOther (message : string).

(** The environment of a call: which paths exist, and what the provider
    answers to the [call]-th submission of a file under a configuration. *)
Record World := {
  path_exists : string -> bool;
  remote_call : nat -> string -> TranscriptionConfig -> remote_reply
}.

(** *** [_extract_words] *)

Definition word_of (item : result_item) (alt : alternative) : word_entry :=
  {| word := default EmptyString (content alt);
     start := default 0%Q (start_time item);
     end_ := default 0%Q (end_time item);
     confidence := default 0%Q (alt_confidence alt) |}.

Definition is_word (item : result_item) : bool :=
  match item_type item with
  | Some t => String.eqb t "word"
  | None => false
  end.

(** The body of the [for item in result.results] loop. *)
Definition extract_step (words : list word_entry) (item : result_item)
  : list word_entry :=
  if is_word item then
    match default [] (alternatives item) with
    | alt :: _ => words ++ [word_of item alt]
    | [] => words
    end
  else words.

Definition _extract_words (result : api_result) : option (list word_entry) :=
  match results result with
  | None => None
  | Some items =>
      match fold_left extract_step items [] with
      | [] => None
      | ws => Some ws
      end
  end.



(** *** [_handle_http_error] *)

Definition _handle_http_error (e : HTTPStatusError) : string :=
  let status := status_code e in
  if status =? 429 then
    "Rate limited by Speechmatics API. Please wait and try again."
  else if status =? 403 then
    "API quota exceeded or invalid API key. Check your Speechmatics account."
  else if status =? 401 then
    "Invalid Speechmatics API key."
  else if status =? 400 then
    let detail :=
      match response_detail e with
      | DetailFound text => text
      | DetailAbsent | DetailRaises => error_text e
      end in
    "Invalid request: " +:+ detail
  else
    "API error (" +:+ str_of_Z status +:+ "): " +:+ error_text e.

(** *** [transcribe]

    The remote part of [transcribe] is the pair [submit_job],
    [wait_for_completion]; building the client and closing it in the
    [finally] clause are taken not to raise. *)

Definition failure (file_path accuracy : string) (diarize : bool)
    (duration : Q) (msg : string) : TranscriptionResult :=
  {| file_path := file_path; transcript := EmptyString; words := None;
     duration_seconds := duration; accuracy := accuracy;
     diarization := diarize; status := StatusError;
     error_message := Some msg; job_id := None |}.

(** The [TranscriptionConfig] that [transcribe] builds. *)
Definition job_config (accuracy language : string) (diarize : bool)
  : TranscriptionConfig :=
  let op := if String.eqb accuracy "enhanced" then ENHANCED else STANDARD in
  {| language := language; operating_point := op;
     config_diarization := if diarize then Some "speaker" else None |}.

Definition transcribe (w : World) (call : nat)
    (file_path accuracy language : string)
    (duration_seconds : option Q) (diarize : bool) : TranscriptionResult :=
  if negb (path_exists w file_path) then
    failure file_path accuracy diarize 0 ("File not found: " +:+ file_path)
  else
    match remote_call w call file_path (job_config accuracy language diarize) with
    | Completed job result =>
        {| file_path := file_path;
           transcript := default EmptyString (transcript_text result);
           words := _extract_words result;
           duration_seconds := or_zero duration_seconds;
           accuracy := accuracy; diarization := diarize;
           status := StatusSuccess; error_message := None;
           job_id := Some job |}
    | RaisesHTTP e =>
        failure file_path accuracy diarize (or_zero duration_seconds)
                (_handle_http_error e)
    | RaisesOther message =>
        failure file_path accuracy diarize (or_zero duration_seconds) message
    end.

(** *** [transcribe_batch]

    Every input item is one task.  A task waits for a permit of the
    semaphore, runs [transcribe] while it holds the permit, then bumps the
    shared counter, calls the progress callback when one was passed (it is
    taken not to raise) and returns its result.  Tasks only
    interleave at [await], so each of the two transitions is atomic;
    [asyncio.gather] hands back the tasks' results by task position.
    [progress] is the list of the calls made to the callback, each with its
    three arguments. *)

Inductive phase :=
  | Waiting
  | Running
  | Done (r : TranscriptionResult).

Record batch_state := {
  tasks : list phase;
  permits : nat;
  completed : nat;
  progress : list (nat * nat * string)
}.

(** The transitions a task still has to take, and whether it holds a
    permit. *)
Definition steps_left (ph : phase) : nat :=
  match ph with
  | Waiting => 2
  | Running => 1
  | Done _ => 0
  end.

Definition in_flight (ph : phase) : nat :=
  match ph with
  | Running => 1
  | Waiting | Done _ => 0
  end.

Section Batch.
Variable w : World.
Variable files : list (string * Q).
Variables accuracy language : string.
Variable diarize : bool.
(** Whether a [progress_callback] was passed ([None] is the default). *)
Variable progress_callback : bool.

Definition transcribe_item (i : nat) (item : string * Q) : TranscriptionResult :=
  transcribe w i (fst item) accuracy language (Some (snd item)) diarize.

(** [asyncio.Semaphore(n)] raises [ValueError] for a negative [n]. *)
Definition transcribe_batch_start (max_concurrent : Z) : option batch_state :=
  if max_concurrent <? 0 then None
  else Some {| tasks := replicate (length files) Waiting;
               permits := Z.to_nat max_concurrent;
               completed := 0;
               progress := [] |}.

Inductive batch_step : batch_state -> batch_state -> Prop :=
  | step_acquire st i n :
      tasks st !! i = Some Waiting ->
      permits st = S n ->
      batch_step st
        {| tasks := <[i := Running]> (tasks st);
           permits := n;
           completed := completed st;
           progress := progress st |}
  | step_finish st i item :
      tasks st !! i = Some Running ->
      files !! i = Some item ->
      batch_step st
        {| tasks := <[i := Done (transcribe_item i item)]> (tasks st);
           permits := S (permits st);
           completed := S (completed st);
           progress :=
             if progress_callback
             then progress st ++ [(S (completed st), length files, fst item)]
             else progress st |}.

Inductive batch_run : batch_state -> batch_state -> Prop :=
  | run_refl st : batch_run st st
  | run_step st1 st2 st3 :
      batch_run st1 st2 -> batch_step st2 st3 -> batch_run st1 st3.

Definition finished (ph : phase) : option TranscriptionResult :=
  match ph with
  | Done r => Some r
  | Waiting | Running => None
  end.

(** What [await asyncio.gather( *tasks )] returns once every task is done. *)
Definition gather (st : batch_state) : option (list TranscriptionResult) :=
  mapM finished (tasks st).

(** What holds of every state of a run: one phase per input item, every
    finished task carries the result of its own item, and the permits
    handed out are the tasks in flight. *)
Record batch_invariant (max_concurrent : Z) (st : batch_state) : Prop := {
  inv_length : length (tasks st) = length files;
  inv_done : forall i r, tasks st !! i = Some (Done r) ->
             exists item, files !! i = Some item /\ r = transcribe_item i item;
  inv_permits : (permits st + sum_list_with in_flight (tasks st))%nat
                = Z.to_nat max_concurrent
}.

(** The batch returns [rs] under some interleaving of its tasks. *)
Definition transcribe_batch_returns (max_concurrent : Z)
    (rs : list TranscriptionResult) : Prop :=
  exists st0 st, transcribe_batch_start max_concurrent = Some st0 /\
                 batch_run st0 st /\ gather st = Some rs.
End Batch.

End Transcriber.

(** ** Dates and times, as [datetime] has them *)

Module PyDatetime.
Import PyStr.

(** A [datetime] value.  Year, month and day start at one and the clock
    fields at zero, which the types record.  [utcoffset] is the offset of an
    aware value in seconds east of UTC, [None] for a naive value. *)
Record datetime := {
  year : positive;
  month : positive;
  day : positive;
  hour : N;
  minute : N;
  second : N;
  microsecond : N;
  utcoffset : option Z
}.

(** [d.replace(tzinfo=None)]: the fields stay, the offset goes. *)
Definition drop_tzinfo (d : datetime) : datetime :=
  {| year := year d; month := month d; day := day d; hour := hour d;
     minute := minute d; second := second d; microsecond := microsecond d;
     utcoffset := None |}.

(** [now.replace(day=1, hour=0, minute=0, second=0, microsecond=0)] *)
Definition first_of_month (now : datetime) : datetime :=
  {| year := year now; month := month now; day := 1; hour := 0;
     minute := 0; second := 0; microsecond := 0; utcoffset := utcoffset now |}.

Definition lex (c1 c2 : comparison) : comparison :=
  match c1 with
  | Eq => c2
  | _ => c1
  end.

(** Comparison of two naive values: field by field, most significant first. *)
Definition compare_naive (a b : datetime) : comparison :=
  lex (year a ?= year b)%positive
 (lex (month a ?= month b)%positive
 (lex (day a ?= day b)%positive
 (lex (hour a ?= hour b)%N
 (lex (minute a ?= minute b)%N
 (lex (second a ?= second b)%N
      (microsecond a ?= microsecond b)%N))))).

(** [a >= b] *)
Definition geb_naive (a b : datetime) : bool :=
  match compare_naive a b with
  | Lt => false
  | _ => true
  end.

(** *** The instant a value denotes

    Days are counted as in the proleptic Gregorian calendar, day 1 being
    0001-01-01; the instant is in microseconds, with the offset of an aware
    value taken off and a naive value read as UTC. *)

Definition is_leap (y : Z) : bool :=
  (y mod 4 =? 0) && (negb (y mod 100 =? 0) || (y mod 400 =? 0)).

Definition days_before_year (y : Z) : Z :=
  365 * (y - 1) + (y - 1) / 4 - (y - 1) / 100 + (y - 1) / 400.

Definition days_before_month (y m : Z) : Z :=
  nth (Z.to_nat (m - 1)) [0; 31; 59; 90; 120; 151; 181; 212; 243; 273; 304; 334] 0
  + (if (2 <? m) && is_leap y then 1 else 0).

Definition days_in_month (y m : Z) : Z :=
  if (m =? 2) && is_leap y then 29
  else nth (Z.to_nat (m - 1)) [31; 28; 31; 30; 31; 30; 31; 31; 30; 31; 30; 31] 0.

Definition ordinal (d : datetime) : Z :=
  days_before_year (Zpos (year d)) + days_before_month (Zpos (year d)) (Zpos (month d))
  + Zpos (day d).

Definition utc_instant (d : datetime) : Z :=
  (((ordinal d * 24 + Z.of_N (hour d)) * 60 + Z.of_N (minute d)) * 60
   + Z.of_N (second d) - default 0 (utcoffset d)) * 1000000
  + Z.of_N (microsecond d).

(** Every field is in the range [datetime] allows. *)
Definition valid (d : datetime) : Prop :=
  Zpos (month d) <= 12 /\
  Zpos (day d) <= days_in_month (Zpos (year d)) (Zpos (month d)) /\
  (hour d < 24)%N /\ (minute d < 60)%N /\ (second d < 60)%N /\
  (microsecond d < 1000000)%N.

(** *** [isoformat] *)

Fixpoint zeros (n : nat) : string :=
  match n with
  | O => EmptyString
  | S k => String "0"%char (zeros k)
  end.

(** The format spec [%0<width>d] on a number that is not negative. *)
Definition zfill (width : nat) (n : N) : string :=
  let s := str_of_N n in
  zeros (width - String.length s) +:+ s.

Definition format_offset (off : Z) : string :=
  let a := Z.to_N (Z.abs off) in
  (if off <? 0 then "-" else "+")
  +:+ zfill 2 (a / 3600) +:+ ":" +:+ zfill 2 (a mod 3600 / 60)
  +:+ (if (a mod 60 =? 0)%N then "" else ":" +:+ zfill 2 (a mod 60)).

(** [d.isoformat()] *)
Definition isoformat (d : datetime) : string :=
  zfill 4 (Npos (year d)) +:+ "-" +:+ zfill 2 (Npos (month d)) +:+ "-"
  +:+ zfill 2 (Npos (day d)) +:+ "T" +:+ zfill 2 (hour d) +:+ ":"
  +:+ zfill 2 (minute d) +:+ ":" +:+ zfill 2 (second d)
  +:+ (if (microsecond d =? 0)%N then "" else "." +:+ zfill 6 (microsecond d))
  +:+ match utcoffset d with
      | Some off => format_offset off
      | None => ""
      end.

(** A clock reading to try things on: 2024-05-01T10:00:00+00:00. *)
Definition may_day : datetime :=
  {| year := 2024; month := 5; day := 1; hour := 10; minute := 0;
     second := 0; microsecond := 0; utcoffset := Some 0 |}.

(** *** A reader for the text that [isoformat] writes

    [YYYY-MM-DD], then optionally a separator, [HH:MM:SS], a fraction of 3
    or 6 digits and an offset [+HH:MM] or [-HH:MM]: the format every version
    of [datetime.fromisoformat] accepts.  [None] stands for [ValueError]. *)

Fixpoint read_digits (n : nat) (s : string) (acc : N) : option (N * string) :=
  match n with
  | O => Some (acc, s)
  | S k =>
      match s with
      | String c r =>
          match digit_of c with
          | Some d => read_digits k r (acc * 10 + d)%N
          | None => None
          end
      | EmptyString => None
      end
  end.

Definition expect (c : ascii) (s : string) : option string :=
  match s with
  | String c' r => if Ascii.eqb c c' then Some r else None
  | EmptyString => None
  end.

Definition read_offset (s : string) : option (option Z) :=
  match s with
  | EmptyString => Some None
  | String sign r =>
      if Ascii.eqb sign "+"%char || Ascii.eqb sign "-"%char then
        '(h, r1) ← read_digits 2 r 0%N;
        r2 ← expect ":" r1;
        '(m, r3) ← read_digits 2 r2 0%N;
        match r3 with
        | EmptyString =>
            if (h <? 24)%N && (m <? 60)%N then
              let secs := Z.of_N (h * 3600 + m * 60) in
              Some (Some (if Ascii.eqb sign "-"%char then - secs else secs))
            else None
        | _ => None
        end
      else None
  end.

Definition read_fraction (s : string) : option (N * string) :=
  match s with
  | String "."%char r =>
      match read_digits 6 r 0%N with
      | Some res => Some res
      | None =>
          '(ms, r') ← read_digits 3 r 0%N; Some ((ms * 1000)%N, r')
      end
  | _ => Some (0%N, s)
  end.

Definition fromisoformat_basic (s : string) : option datetime :=
  '(y, r1) ← read_digits 4 s 0%N;
  r2 ← expect "-" r1;
  '(mo, r3) ← read_digits 2 r2 0%N;
  r4 ← expect "-" r3;
  '(d, r5) ← read_digits 2 r4 0%N;
  '(h, mi, sec, us, off) ←
     match r5 with
     | EmptyString => Some (0%N, 0%N, 0%N, 0%N, None)
     | String _ r6 =>
         '(h, r7) ← read_digits 2 r6 0%N;
         r8 ← expect ":" r7;
         '(mi, r9) ← read_digits 2 r8 0%N;
         r10 ← expect ":" r9;
         '(sec, r11) ← read_digits 2 r10 0%N;
         '(us, r12) ← read_fraction r11;
         off ← read_offset r12;
         Some (h, mi, sec, us, off)
     end;
  match y, mo, d with
  | Npos y', Npos mo', Npos d' =>
      if (Zpos mo' <=? 12) && (Zpos d' <=? days_in_month (Zpos y') (Zpos mo'))
         && (h <? 24)%N && (mi <? 60)%N && (sec <? 60)%N
      then Some {| year := y'; month := mo'; day := d'; hour := h;
                   minute := mi; second := sec; microsecond := us;
                   utcoffset := off |}
      else None
  | _, _, _ => None
  end.

End PyDatetime.

(** ** transcriber.py: [get_usage] *)

Module Usage.
Import PyStr PyDatetime.

(** The [created_at] attribute of a job summary. *)
Inductive created_attr :=
  | CreatedMissing                    (* no attribute, or [None] *)
  | CreatedText (s : string)
  | CreatedDatetime (d : datetime).

Record job_summary := {
  created_at : created_attr;
  duration : option Q               (* [None]: no attribute, or [None] *)
}.

Inductive list_jobs_reply :=
  | JobList (jobs : list job_summary)
  | ListRaises (message : string).

Record usage_report := {
  usage_error : option string;
  hours_used_this_month : option Q;
  monthly_limit_hours : option Q;
  hours_remaining : option Q;
  jobs_this_month : option Z
}.

(** [s.replace("Z", "+00:00")] *)
Fixpoint replace_Z (s : string) : string :=
  match s with
  | EmptyString => EmptyString
  | String c r =>
      if Ascii.eqb c "Z"%char then "+00:00" +:+ replace_Z r
      else String c (replace_Z r)
  end.

(** [round(x, 2)]: to the nearest hundredth, a tie going to the even one. *)
Definition round_half_even (x : Q) : Z :=
  let f := Qfloor x in
  match (x - inject_Z f ?= 1 # 2)%Q with
  | Lt => f
  | Gt => f + 1
  | Eq => if Z.even f then f else f + 1
  end.

Definition round2 (x : Q) : Q := round_half_even (x * 100) # 100.

(** A wall-clock date and time falls in the month of [now] or later. *)
Definition month_reached (now d : datetime) : bool :=
  (year now <? year d)%positive
  || (year d =? year now)%positive && (month now <=? month d)%positive.

(** The sum of the durations of a list of jobs, a missing one being 0. *)
Definition sum_job_durations (jobs : list job_summary) : Q :=
  fold_left Qplus (map (fun job => or_zero (duration job)) jobs) 0%Q.

Section GetUsage.
(** [datetime.fromisoformat]; [None] stands for [ValueError]. *)
Variable fromisoformat : string -> option datetime.

(** The date of a job, when the loop body gets as far as comparing it:
    the attribute is truthy and, for a text, it parses. *)
Definition job_date (job : job_summary) : option datetime :=
  match created_at job with
  | CreatedMissing => None
  | CreatedText EmptyString => None
  | CreatedText s => fromisoformat (replace_Z s)
  | CreatedDatetime d => Some d
  end.

(** The body of [for job in jobs], on the two running totals. *)
Definition usage_step (month_start : datetime) (acc : Z * Q)
    (job : job_summary) : Z * Q :=
  match job_date job with
  | Some d =>
      if geb_naive (drop_tzinfo d) month_start then
        (fst acc + 1, (snd acc + or_zero (duration job))%Q)
      else acc
  | None => acc
  end.

(** The jobs that the loop counts: the creation time is there, it parses,
    and its wall-clock fields fall in the month of [now] or later. *)
Definition counted (now : datetime) (job : job_summary) : bool :=
  match job_date job with
  | Some d => month_reached now d
  | None => false
  end.

(** The same in terms of instants: the creation time is there, parses,
    and is on or after the first instant of the month of [now]. *)
Definition created_in_month (now : datetime) (job : job_summary) : bool :=
  match job_date job with
  | Some d => utc_instant (first_of_month now) <=? utc_instant d
  | None => false
  end.

(** Every creation time that is read is a valid one given in UTC. *)
Definition utc_timestamps (jobs : list job_summary) : Prop :=
  forall job d, In job jobs -> job_date job = Some d ->
    valid d /\ (utcoffset d = None \/ utcoffset d = Some 0).

(** [now] is [datetime.utcnow()]. *)
Definition get_usage (reply : list_jobs_reply) (now : datetime) : usage_report :=
  match reply with
  | JobList jobs =>
      let month_start := first_of_month now in
      let '(jobs_count, total_duration_seconds) :=
        fold_left (usage_step month_start) jobs (0, 0%Q) in
      let hours_used := (total_duration_seconds / 3600)%Q in
      {| usage_error := None;
         hours_used_this_month := Some (round2 hours_used);
         monthly_limit_hours := None;
         hours_remaining := None;
         jobs_this_month := Some jobs_count |}
  | ListRaises message =>
      {| usage_error := Some message;
         hours_used_this_month := None;
         monthly_limit_hours := None;
         hours_remaining := None;
         jobs_this_month := None |}
  end.
End GetUsage.

End Usage.

(** ** server.py *)

Module Server.
Import PyStr Utils Transcriber.
Import PyDatetime (datetime, isoformat).

(** The values of Python's [json]; an object keeps its members in insertion
    order.  [JNotFinite] is a float that is not finite, which [json.dump]
    writes as [NaN], [Infinity] or [-Infinity] and [json.loads] reads
    back. *)
#[local] Set Warnings "-register-all".
Inductive json :=
  | JNull
  | JBool (b : bool)
  | JNum (q : Q)
  | JNotFinite
  | JStr (s : string)
  | JArr (items : list json)
  | JObj (members : list (string * json)).

(** [d.get(key)] on the members of an object *)
Fixpoint dict_get (key : string) (members : list (string * json)) : option json :=
  match members with
  | [] => None
  | (k, v) :: rest => if String.eqb k key then Some v else dict_get key rest
  end.

(** [len(v)]; [None] stands for [TypeError]. *)
Definition py_len (v : json) : option nat :=
  match v with
  | JArr items => Some (length items)
  | JStr s => Some (String.length s)
  | JObj members => Some (length members)
  | JNull | JBool _ | JNum _ | JNotFinite => None
  end.

(** A file is either a text or the document [json.dump] wrote for a value
    (which [json.loads] reads back as that value). *)
Inductive file_content :=
  | TextFile (text : string)
  | JsonFile (doc : json).

Abbreviation filesystem := (gmap string file_content).

(** [os.path.exists] *)
Definition exists_ (fs : filesystem) (path : string) : bool :=
  match fs !! path with
  | Some _ => true
  | None => false
  end.

(** [Path(p).name] on a POSIX path: the last component that is neither
    empty nor ".", the empty string when there is none. *)
Definition path_name (p : string) : string :=
  List.last
    (List.filter (fun c => negb (String.eqb c "") && negb (String.eqb c "."))
                 (split "/" p))
    EmptyString.

Definition word_json (e : word_entry) : json :=
  JObj [("word", JStr (word e)); ("start", JNum (start e));
        ("end", JNum (end_ e)); ("confidence", JNum (confidence e))].

(** [result.words or []] *)
Definition words_or_empty (ws : option (list word_entry)) : list word_entry :=
  default [] ws.

Definition text_header (timestamp source_name duration_str accuracy : string)
  : string :=
  "# Transcribed: " +:+ timestamp +:+ String LF
  ("# Source: " +:+ source_name +:+ String LF
  ("# Duration: " +:+ duration_str +:+ String LF
  ("# Accuracy: " +:+ accuracy +:+ String LF (String LF EmptyString)))).

(** The four lines of that header. *)
Definition header_lines (timestamp source_name duration_str accuracy : string)
  : list string :=
  ["# Transcribed: " +:+ timestamp; "# Source: " +:+ source_name;
   "# Duration: " +:+ duration_str; "# Accuracy: " +:+ accuracy].

(** [write_transcript_file]; [now] is what [datetime.now(timezone.utc)]
    answers.  Returns the file system after the write together with the path
    written. *)
Definition write_transcript_file (now : datetime) (fs : filesystem)
    (result : TranscriptionResult) (with_timestamps : bool)
  : filesystem * string :=
  let output_path := get_transcript_path (file_path result) with_timestamps in
  let source_name := path_name (file_path result) in
  let timestamp := isoformat now in
  if with_timestamps then
    let output :=
      JObj [("metadata",
             JObj [("source", JStr source_name);
                   ("transcribed_at", JStr timestamp);
                   ("duration_seconds", JNum (duration_seconds result));
                   ("accuracy", JStr (accuracy result))]);
            ("transcript", JStr (transcript result));
            ("words", JArr (map word_json (words_or_empty (words result))))] in
    (<[output_path := JsonFile output]> fs, output_path)
  else
    let duration_str :=
      if truthy (duration_seconds result)
      then format_duration (duration_seconds result) else "unknown" in
    let header := text_header timestamp source_name duration_str (accuracy result) in
    (<[output_path := TextFile (header +:+ transcript result)]> fs, output_path).

(** [find_transcript] of utils.py, which probes the file system. *)
Definition find_transcript (fs : filesystem) (media_path : string) : option string :=
  if exists_ fs (media_path +:+ ".transcript.txt")
  then Some (media_path +:+ ".transcript.txt")
  else if exists_ fs (media_path +:+ ".transcript.json")
  then Some (media_path +:+ ".transcript.json")
  else None.

(** *** Reading a transcript back *)

Inductive get_error :=
  | NoTranscriptFound (path : string)
  | TranscriptFileNotFound (path : string)
  | ReadFailed.

Record transcript_reply := {
  reply_transcript : json;
  reply_source_media : string;
  reply_duration_seconds : json;
  reply_has_timestamps : bool;
  reply_word_count : option nat       (* the key is absent for a text file *)
}.

Inductive get_response :=
  | GetError (e : get_error)
  | GetSuccess (r : transcript_reply).

(** The loop that collects the lines after the first empty one. *)
Definition header_step (st : bool * list string) (line : string)
  : bool * list string :=
  let '(past_header, transcript_lines) := st in
  if past_header then (past_header, transcript_lines ++ [line])
  else if String.eqb line "" then (true, transcript_lines)
  else (past_header, transcript_lines).

(** The text after the first ":" of a "# Duration:" line, as seconds:
    [None] is [ValueError] or [IndexError], [Some None] is "no duration". *)
Definition parse_duration_line (line : string) : option (option Z) :=
  match split_once COLON line with
  | _ :: rest :: _ =>
      let duration_str := strip rest in
      match split COLON duration_str with
      | [m; s] =>
          m' ← py_int m; s' ← py_int s; Some (Some (m' * 60 + s'))
      | [h; m; s] =>
          h' ← py_int h; m' ← py_int m; s' ← py_int s;
          Some (Some (h' * 3600 + m' * 60 + s'))
      | _ => Some None
      end
  | _ => None
  end.

(** [for line in lines[:5]: if line.startswith("# Duration:"): ...; break] *)
Fixpoint scan_duration (lines : list string) : option (option Z) :=
  match lines with
  | [] => Some None
  | line :: rest =>
      if startswith "# Duration:" line then parse_duration_line line
      else scan_duration rest
  end.

(** The plain-text branch: transcript and duration, [None] when an
    exception is raised on the way. *)
Definition read_text (content : string) : option (string * option Z) :=
  let lines := split LF content in
  let transcript_lines := snd (fold_left header_step lines (false, [])) in
  let transcript := strip (join (String LF EmptyString) transcript_lines) in
  duration ← scan_duration (take 5 lines);
  Some (transcript, duration).

(** The JSON branch, on the decoded document. *)
Definition read_json (data : json) (source_media : string) : option transcript_reply :=
  match data with
  | JObj members =>
      let transcript := default (JStr "") (dict_get "transcript" members) in
      duration ←
        match default (JObj []) (dict_get "metadata" members) with
        | JObj meta => Some (default JNull (dict_get "duration_seconds" meta))
        | _ => None
        end;
      count ← py_len (default (JArr []) (dict_get "words" members));
      Some {| reply_transcript := transcript;
              reply_source_media := source_media;
              reply_duration_seconds := duration;
              reply_has_timestamps := true;
              reply_word_count := Some count |}
  | _ => None
  end.

Section GetTranscript.
(** [json.loads] on a text that [json.dump] did not write, and the text
    [json.dump] writes; [None] stands for a decoding error. *)
Variable json_loads : string -> option json.
Variable json_dumps : json -> string.

(** [f.read()] in text mode *)
Definition read_file (c : file_content) : string :=
  match c with
  | TextFile text => universal_newlines text
  | JsonFile doc => json_dumps doc
  end.

Definition load_json (c : file_content) : option json :=
  match c with
  | JsonFile doc => Some doc
  | TextFile text => json_loads (universal_newlines text)
  end.

Definition handle_get_transcript (fs : filesystem) (file_path : string)
  : get_response :=
  let located :=
    if endswith ".transcript.txt" file_path
       || endswith ".transcript.json" file_path then
      if endswith ".transcript.txt" file_path
      then Some (file_path, drop_last 15 file_path)
      else Some (file_path, drop_last 16 file_path)
    else
      match find_transcript fs file_path with
      | Some transcript_path => Some (transcript_path, file_path)
      | None => None
      end in
  match located with
  | None => GetError (NoTranscriptFound file_path)
  | Some (transcript_path, source_media) =>
      match fs !! transcript_path with
      | None => GetError (TranscriptFileNotFound transcript_path)
      | Some c =>
          if endswith ".json" transcript_path then
            match load_json c ≫= (fun data => read_json data source_media) with
            | Some r => GetSuccess r
            | None => GetError ReadFailed
            end
          else
            match read_text (read_file c) with
            | Some (transcript, duration) =>
                GetSuccess
                  {| reply_transcript := JStr transcript;
                     reply_source_media := source_media;
                     reply_duration_seconds :=
                       match duration with
                       | Some z => JNum (inject_Z z)
                       | None => JNull
                       end;
                     reply_has_timestamps := false;
                     reply_word_count := None |}
            | None => GetError ReadFailed
            end
      end
  end.
End GetTranscript.

(** *** The report of [handle_transcribe_directory] *)

Record file_report := {
  report_file : string;
  report_transcript_path : option string;
  report_duration_seconds : Q;
  report_status : Status;
  report_error_message : option string
}.

Record directory_report := {
  files_processed : Z;
  files_failed : Z;
  transcripts : list file_report;
  total_duration_seconds : Q;
  total_duration_formatted : string
}.

Record report_state := {
  disk : filesystem;
  writes : nat;                    (* transcript files written so far *)
  acc_transcripts : list file_report;
  acc_processed : Z;
  acc_failed : Z;
  acc_total : Q
}.

Definition is_success (r : TranscriptionResult) : bool :=
  match status r with
  | StatusSuccess => true
  | StatusError => false
  end.

(** The sum of [durationSeconds] over a list of outcomes. *)
Definition sum_durations (rs : list TranscriptionResult) : Q :=
  fold_left Qplus (map duration_seconds rs) 0%Q.

Section DirectoryReport.
(** What the clock answers at the [k]-th write of the loop. *)
Variable clock : nat -> datetime.
Variable with_timestamps : bool.

(** The body of [for result in results]. *)
Definition report_step (st : report_state) (result : TranscriptionResult)
  : report_state :=
  match status result with
  | StatusSuccess =>
      let '(fs', transcript_path) :=
        write_transcript_file (clock (writes st)) (disk st) result with_timestamps in
      {| disk := fs';
         writes := S (writes st);
         acc_transcripts := acc_transcripts st ++
           [{| report_file := file_path result;
               report_transcript_path := Some transcript_path;
               report_duration_seconds := duration_seconds result;
               report_status := StatusSuccess;
               report_error_message := None |}];
         acc_processed := acc_processed st + 1;
         acc_failed := acc_failed st;
         acc_total := (acc_total st + duration_seconds result)%Q |}
  | StatusError =>
      {| disk := disk st;
         writes := writes st;
         acc_transcripts := acc_transcripts st ++
           [{| report_file := file_path result;
               report_transcript_path := None;
               report_duration_seconds := duration_seconds result;
               report_status := StatusError;
               report_error_message := error_message result |}];
         acc_processed := acc_processed st;
         acc_failed := acc_failed st + 1;
         acc_total := acc_total st |}
  end.

(** Lines 303 to 337 of [handle_transcribe_directory]: the loop over the
    batch results and the summary it returns. *)
Definition handle_transcribe_directory_report (fs : filesystem)
    (results : list TranscriptionResult) : filesystem * directory_report :=
  let st := fold_left report_step results
              {| disk := fs; writes := 0; acc_transcripts := [];
                 acc_processed := 0; acc_failed := 0; acc_total := 0%Q |} in
  (disk st,
   {| files_processed := acc_processed st;
      files_failed := acc_failed st;
      transcripts := acc_transcripts st;
      total_duration_seconds := acc_total st;
      total_duration_formatted := format_duration (acc_total st) |}).
End DirectoryReport.

End Server.

(** ** utils.py: [get_audio_duration]; transcriber.py: the constructor *)

Module Probe.
Import PyStr Server.

(** What [subprocess.run] of ffprobe comes to. *)
Inductive ffprobe_run :=
  | RunTimeout                                   (* [TimeoutExpired] *)
  | RunNotFound                                  (* [FileNotFoundError] *)
  | RunRaises                                    (* any other exception: a
                                                    [PermissionError] or another
                                                    [OSError], the
                                                    [UnicodeDecodeError] of
                                                    [text=True] *)
  | RunExit (returncode : Z) (stdout stderr : string).

(** A Python [float]: a number, or one of [nan], [inf] and [-inf]. *)
Inductive pyfloat :=
  | Finite (q : Q)
  | NotFinite.

(** The exceptions that leave [get_audio_duration]: the five
    [RuntimeError]s it raises itself, what [subprocess.run] raised and no
    clause catches, and what the reading of the output raises besides (an
    [AttributeError], [TypeError] or [ValueError] on an output of another
    shape). *)
Inductive probe_error :=
  | FfprobeFailed (stderr : string)    (* "ffprobe failed: <stderr>" *)
  | DurationMissing                    (* "Could not determine duration ..." *)
  | FfprobeTimedOut                    (* "ffprobe timed out" *)
  | OutputNotJson                      (* "Failed to parse ffprobe output: ..." *)
  | FfprobeNotFound                    (* "ffprobe not found. ..." *)
  | RunRaisedOther                     (* not a [RuntimeError] *)
  | OutputOfOtherShape.                (* not a [RuntimeError] *)

Definition is_runtime_error (e : probe_error) : bool :=
  match e with
  | RunRaisedOther | OutputOfOtherShape => false
  | _ => true
  end.

Section GetAudioDuration.
(** [json.loads] and [float] on a text; [None] stands for
    [JSONDecodeError] and for [ValueError]. *)
Variable json_loads : string -> option json.
Variable float_of_text : string -> option pyfloat.

(** [float(v)]; [None] stands for [TypeError] and [ValueError]. *)
Definition py_float (v : json) : option pyfloat :=
  match v with
  | JNum q => Some (Finite q)
  | JNotFinite => Some NotFinite
  | JStr s => float_of_text s
  | JBool b => Some (Finite (if b then 1 else 0))
  | JNull | JArr _ | JObj _ => None
  end.

Definition get_audio_duration (run : ffprobe_run) : pyfloat + probe_error :=
  match run with
  | RunTimeout => inr FfprobeTimedOut
  | RunNotFound => inr FfprobeNotFound
  | RunRaises => inr RunRaisedOther
  | RunExit returncode stdout stderr =>
      if negb (returncode =? 0) then inr (FfprobeFailed stderr)
      else
        match json_loads stdout with
        | None => inr OutputNotJson
        | Some (JObj data) =>
            match default (JObj []) (dict_get "format" data) with
            | JObj format =>
                match dict_get "duration" format with
                | None | Some JNull => inr DurationMissing
                | Some duration =>
                    match py_float duration with
                    | Some d => inl d
                    | None => inr OutputOfOtherShape
                    end
                end
            | _ => inr OutputOfOtherShape
            end
        | Some _ => inr OutputOfOtherShape
        end
  end.
End GetAudioDuration.

(** [SpeechmaticsTranscriber(api_key)]: the key it keeps, [None] when it
    raises [ValueError]; [env] is the variable [SPEECHMATICS_API_KEY]. *)
Definition nonempty (s : option string) : bool :=
  match s with
  | Some (String _ _) => true
  | Some EmptyString | None => false
  end.

Definition new_transcriber (api_key env : option string) : option string :=
  let key := if nonempty api_key then api_key else env in
  if nonempty key then key else None.

End Probe.

(** ** server.py: the tool handlers *)

Module Handlers.
Import PyStr Utils Transcriber Server Probe.
Import PyDatetime (datetime, isoformat).

(** What [open(path, "w")] and the write that follows come to. *)
Inductive write_result :=
  | WriteOk
  | OpenRaises (message : string)        (* nothing is changed *)
  | WriteRaises (message partial : string).
                                         (* the file is left holding [partial] *)

(** What the handlers find around them: the media files and the provider
    ([host_world]), ffprobe, the API key of the environment, file
    discovery ([find_media_files] with its three arguments; [inr] is the
    text of the exception it raises) and what writing a file at a path
    comes to. *)
Record Host := {
  host_world : World;
  host_ffprobe : string -> ffprobe_run;
  host_api_key : option string;
  host_find_media_files :
    string -> list string -> bool -> list string + string;
  host_write : string -> write_result
}.

Definition DEFAULT_FILE_TYPES : list string :=
  ["mp3"; "mp4"; "wav"; "m4a"; "webm"; "ogg"; "flac"; "mov"; "avi"].

(** *** [handle_transcribe_file] *)

Record file_arguments := {
  arg_file_path : string;
  arg_accuracy : option string;
  arg_with_timestamps : option bool
}.

Inductive file_error :=
  | FileNotFound (path : string)          (* "File not found: <path>" *)
  | DurationUnknown (e : probe_error)     (* "Could not determine audio duration: ..." *)
  | NoApiKey                              (* the constructor's [ValueError] *)
  | TranscriptionFailed (message : option string)
  | WriteFailed (message : string)        (* the exception of the write *)
  | DurationNotFinite.                    (* the [ValueError] or [OverflowError]
                                             of [int] in [format_duration] *)

Record file_success := {
  answer_transcript_path : string;
  answer_duration_seconds : Q;
  answer_duration_formatted : string;
  answer_accuracy : string
}.

Inductive file_response :=
  | FileError (e : file_error)
  | FileSuccess (s : file_success).

(** The number of a float that is finite.  [transcribe] is given it; for a
    float that is not finite [None] stands in, and what is read of the
    outcome then is all but its duration, which the duration argument alone
    decides. *)
Definition seconds_of (d : pyfloat) : option Q :=
  match d with
  | Finite q => Some q
  | NotFinite => None
  end.

(** The document of lines 55 to 66 of [write_transcript_file] for an
    outcome whose duration is not finite. *)
Definition not_finite_document (now : datetime) (result : TranscriptionResult)
  : json :=
  JObj [("metadata",
         JObj [("source", JStr (path_name (file_path result)));
               ("transcribed_at", JStr (isoformat now));
               ("duration_seconds", JNotFinite);
               ("accuracy", JStr (accuracy result))]);
        ("transcript", JStr (transcript result));
        ("words", JArr (map word_json (words_or_empty (words result))))].

Section Handle.
Variable json_loads : string -> option json.
Variable float_of_text : string -> option pyfloat.
Variable h : Host.

Definition probe (file_path : string) : pyfloat + probe_error :=
  get_audio_duration json_loads float_of_text (host_ffprobe h file_path).

(** [get_transcriber()] *)
Definition get_transcriber : option string :=
  new_transcriber None (host_api_key h).

(** [now] is the clock at the write.  Returns the file system afterwards
    and the answer.  Every exception after the probe is caught at line 245
    and becomes an error answer: that of a write that fails, and that of
    [format_duration] on a duration that is not finite, which is raised
    inside [write_transcript_file] for the text format (before the file is
    opened) and when the answer is built for the JSON format (after the
    file was written). *)
Definition handle_transcribe_file (now : datetime) (fs : filesystem)
    (arguments : file_arguments) : filesystem * file_response :=
  let file_path := arg_file_path arguments in
  let accuracy := default "standard" (arg_accuracy arguments) in
  let with_timestamps := default false (arg_with_timestamps arguments) in
  if negb (path_exists (host_world h) file_path) then
    (fs, FileError (FileNotFound file_path))
  else
    match probe file_path with
    | inr e => (fs, FileError (DurationUnknown e))
    | inl duration =>
        match get_transcriber with
        | None => (fs, FileError NoApiKey)
        | Some _ =>
            let result :=
              transcribe (host_world h) 0 file_path accuracy "en"
                         (seconds_of duration) false in
            match status result with
            | StatusError =>
                (fs, FileError (TranscriptionFailed (error_message result)))
            | StatusSuccess =>
                let output_path := get_transcript_path file_path with_timestamps in
                match duration, host_write h output_path with
                | Finite d, WriteOk =>
                    let '(fs', transcript_path) :=
                      write_transcript_file now fs result with_timestamps in
                    (fs', FileSuccess
                            {| answer_transcript_path := transcript_path;
                               answer_duration_seconds := d;
                               answer_duration_formatted := format_duration d;
                               answer_accuracy := accuracy |})
                | NotFinite, WriteOk =>
                    if with_timestamps then
                      (<[output_path := JsonFile (not_finite_document now result)]> fs,
                       FileError DurationNotFinite)
                    else (fs, FileError DurationNotFinite)
                | Finite _, OpenRaises message =>
                    (fs, FileError (WriteFailed message))
                | Finite _, WriteRaises message partial =>
                    (<[output_path := TextFile partial]> fs,
                     FileError (WriteFailed message))
                | NotFinite, OpenRaises message =>
                    if with_timestamps then (fs, FileError (WriteFailed message))
                    else (fs, FileError DurationNotFinite)
                | NotFinite, WriteRaises message partial =>
                    if with_timestamps then
                      (<[output_path := TextFile partial]> fs,
                       FileError (WriteFailed message))
                    else (fs, FileError DurationNotFinite)
                end
            end
        end
    end.

(** *** [handle_transcribe_directory] *)

Record directory_arguments := {
  arg_directory : string;
  arg_file_types : option (list string);
  arg_dir_accuracy : option string;
  arg_dir_with_timestamps : option bool;
  arg_recursive : option bool;
  arg_max_concurrent : option Z
}.

Inductive directory_error :=
  | DiscoveryFailed (message : string)
  | DirectoryNoApiKey
  | BatchRaised.                    (* the semaphore's [ValueError] *)

(** An exception that leaves the handler: the loop over the results and
    the final answer are outside any [try]. *)
Inductive handler_exception :=
  | WriteRaised (message : string)    (* the exception of a write *)
  | FormatDurationRaised.             (* the [ValueError] or [OverflowError]
                                         of [int] in [format_duration] *)

(** How a call of the handler ends: with one of its three answers, or with
    an exception that leaves it.  [NotFollowed] marks the calls that are
    not followed to their end here: those that come to a file whose
    transcription failed and whose probed duration is not finite, which the
    report would show with that duration. *)
Inductive directory_response :=
  | DirectoryError (e : directory_error)
  | NoMediaFiles                    (* the all-zero answer with its message *)
  | DirectoryReport (report : directory_report)
  | HandlerRaises (e : handler_exception)
  | NotFollowed.

(** The loop that probes the duration of every file, 0 when it fails. *)
Definition with_duration (file_path : string) : string * pyfloat :=
  match probe file_path with
  | inl duration => (file_path, duration)
  | inr _ => (file_path, Finite 0)
  end.

(** The item handed to the batch; 0 stands in for a duration that is not
    finite, which is kept beside the outcome in the loop below. *)
Definition batch_item (item : string * pyfloat) : string * Q :=
  (fst item, default 0%Q (seconds_of (snd item))).

Inductive loop_end :=
  | LoopEnds (st : report_state)
  | LoopRaises (remains : filesystem) (e : handler_exception)
  | LoopNotFollowed.

(** The rest of the loop of lines 309 to 328 once the total is not finite,
    which it stays: the JSON documents are still written, and unless a
    write raises first, [format_duration] raises on the total at line 336.
    No report is made, so only the file system is followed. *)
Fixpoint doomed_loop (clock : nat -> datetime)
    (results : list (TranscriptionResult * pyfloat))
    (fs : filesystem) (writes : nat) : filesystem * handler_exception :=
  match results with
  | [] => (fs, FormatDurationRaised)
  | (result, duration) :: rest =>
      match status result with
      | StatusError => doomed_loop clock rest fs writes
      | StatusSuccess =>
          let output_path := get_transcript_path (file_path result) true in
          match host_write h output_path with
          | WriteOk =>
              doomed_loop clock rest
                match duration with
                | Finite _ =>
                    fst (write_transcript_file (clock writes) fs result true)
                | NotFinite =>
                    <[output_path :=
                        JsonFile (not_finite_document (clock writes) result)]> fs
                end
                (S writes)
          | OpenRaises message => (fs, WriteRaised message)
          | WriteRaises message partial =>
              (<[output_path := TextFile partial]> fs, WriteRaised message)
          end
      end
  end.

(** The loop of lines 309 to 328 under a host whose writes can fail; every
    outcome comes with the probed duration of its file.  For the text
    format a duration that is not finite makes [format_duration] raise
    inside [write_transcript_file], before the file is opened. *)
Fixpoint report_loop (clock : nat -> datetime) (with_timestamps : bool)
    (results : list (TranscriptionResult * pyfloat)) (st : report_state)
  : loop_end :=
  match results with
  | [] => LoopEnds st
  | (result, duration) :: rest =>
      let output_path := get_transcript_path (file_path result) with_timestamps in
      match status result, duration with
      | StatusError, Finite _ =>
          report_loop clock with_timestamps rest
                      (report_step clock with_timestamps st result)
      | StatusError, NotFinite => LoopNotFollowed
      | StatusSuccess, Finite _ =>
          match host_write h output_path with
          | WriteOk =>
              report_loop clock with_timestamps rest
                          (report_step clock with_timestamps st result)
          | OpenRaises message => LoopRaises (disk st) (WriteRaised message)
          | WriteRaises message partial =>
              LoopRaises (<[output_path := TextFile partial]> (disk st))
                         (WriteRaised message)
          end
      | StatusSuccess, NotFinite =>
          if with_timestamps then
            match host_write h output_path with
            | WriteOk =>
                let '(remains, e) :=
                  doomed_loop clock rest
                    (<[output_path :=
                         JsonFile (not_finite_document (clock (writes st)) result)]>
                       (disk st))
                    (S (writes st)) in
                LoopRaises remains e
            | OpenRaises message => LoopRaises (disk st) (WriteRaised message)
            | WriteRaises message partial =>
                LoopRaises (<[output_path := TextFile partial]> (disk st))
                           (WriteRaised message)
            end
          else LoopRaises (disk st) FormatDurationRaised
      end
  end.

(** The handler ends with file system [fs'] and [response], under some
    interleaving of the batch; [clock] is the clock at each write. *)
Definition handle_transcribe_directory_returns (clock : nat -> datetime)
    (fs : filesystem) (arguments : directory_arguments)
    (fs' : filesystem) (response : directory_response) : Prop :=
  let file_types := default DEFAULT_FILE_TYPES (arg_file_types arguments) in
  let accuracy := default "standard" (arg_dir_accuracy arguments) in
  let with_timestamps := default false (arg_dir_with_timestamps arguments) in
  let recursive := default false (arg_recursive arguments) in
  let max_concurrent := default 10 (arg_max_concurrent arguments) in
  match host_find_media_files h (arg_directory arguments) file_types recursive with
  | inr message => fs' = fs /\ response = DirectoryError (DiscoveryFailed message)
  | inl [] => fs' = fs /\ response = NoMediaFiles
  | inl media_files =>
      let probed := map with_duration media_files in
      let files_with_duration := map batch_item probed in
      match get_transcriber with
      | None => fs' = fs /\ response = DirectoryError DirectoryNoApiKey
      | Some _ =>
          match transcribe_batch_start files_with_duration max_concurrent with
          | None => fs' = fs /\ response = DirectoryError BatchRaised
          | Some _ =>
              exists results,
                transcribe_batch_returns (host_world h) files_with_duration
                  accuracy "en" false false max_concurrent results /\
                match report_loop clock with_timestamps
                        (zip results (map snd probed))
                        {| disk := fs; writes := 0; acc_transcripts := [];
                           acc_processed := 0; acc_failed := 0;
                           acc_total := 0%Q |} with
                | LoopEnds st =>
                    fs' = disk st /\
                    response
                    = DirectoryReport
                        {| files_processed := acc_processed st;
                           files_failed := acc_failed st;
                           transcripts := acc_transcripts st;
                           total_duration_seconds := acc_total st;
                           total_duration_formatted :=
                             format_duration (acc_total st) |}
                | LoopRaises remains e =>
                    fs' = remains /\ response = HandlerRaises e
                | LoopNotFollowed => response = NotFollowed
                end
          end
      end
  end.

(** *** [handle_get_usage] *)

Inductive usage_response :=
  | UsageError                              (* status "error": no API key *)
  | UsageSuccess (report : Usage.usage_report).   (* status "success" *)

Definition handle_get_usage (fromisoformat : string -> option datetime)
    (reply : Usage.list_jobs_reply) (now : datetime) : usage_response :=
  match get_transcriber with
  | None => UsageError
  | Some _ => UsageSuccess (Usage.get_usage fromisoformat reply now)
  end.
End Handle.

End Handlers.

(** ** utils.py: [find_media_files] *)

Module Discovery.
Import PyStr.

(** [ext.lstrip('.')] *)
Fixpoint lstrip_dots (s : string) : string :=
  match s with
  | EmptyString => EmptyString
  | String c r => if Ascii.eqb c "."%char then lstrip_dots r else s
  end.

(** The order of [str]: by code point, a proper prefix first. *)
Definition str_le (a b : string) : Prop := String.leb a b = true.

#[export] Instance str_le_dec : RelDecision str_le :=
  fun a b => decide (String.leb a b = true).

(** [sorted(media_files)] *)
Definition sorted (l : list string) : list string := merge_sort str_le l.

(** What the function sees of the directory tree.  Every call can raise
    ([inr], with the text of the exception): [Path.exists], [is_dir],
    [is_file] and [resolve] a [PermissionError] for one, and the glob a
    [ValueError] on a pattern it refuses.  [glob recursive directory
    pattern] is what iterating [directory_path.rglob(pattern)] (for a
    recursive search) or [directory_path.glob(pattern)] comes to: the paths
    it yields and, when the iteration ends in an exception, that
    exception. *)
Record Tree := {
  dir_exists : string -> bool + string;
  is_dir : string -> bool + string;
  glob : bool -> string -> string -> list string * option string;
  is_file : string -> bool + string;
  resolve : string -> string + string
}.

Inductive discovery_error :=
  | DirectoryNotFound (directory : string)   (* [FileNotFoundError] *)
  | NotADirectory (directory : string)       (* [NotADirectoryError] *)
  | Raised (message : string).               (* what a call of the tree raised *)

(** A [for] loop whose body can raise: the first exception ends it. *)
Fixpoint fold_raising {A B : Type} (body : A -> B -> A + string)
    (l : list B) (a : A) : A + string :=
  match l with
  | [] => inl a
  | b :: rest =>
      match body a b with
      | inl a' => fold_raising body rest a'
      | inr e => inr e
      end
  end.

Section Find.
(** [str.lower] and [str.upper] *)
Variables lower upper : string -> string.
Variable t : Tree.

(** The elements of the set [extensions]. *)
Definition extensions (file_types : list string) : list string :=
  map (fun ext => lstrip_dots (lower ext)) file_types.

(** The body of [for file_path in pattern_func(pattern)]. *)
Definition add_file (media_files : list string) (file_path : string)
  : list string + string :=
  match is_file t file_path with
  | inr e => inr e
  | inl false => inl media_files
  | inl true =>
      match resolve t file_path with
      | inr e => inr e
      | inl abs_path =>
          inl (if bool_decide (abs_path ∈ media_files) then media_files
               else media_files ++ [abs_path])
      end
  end.

(** The body of [for pattern in ...]: the paths that the glob yields are
    gone through before the exception that ends the iteration, if any. *)
Definition add_pattern (directory : string) (recursive : bool)
    (media_files : list string) (pattern : string) : list string + string :=
  let '(paths, raised) := glob t recursive directory pattern in
  match fold_raising add_file paths media_files, raised with
  | inr e, _ => inr e
  | inl _, Some e => inr e
  | inl media_files', None => inl media_files'
  end.

(** The body of [for ext in extensions]. *)
Definition add_extension (directory : string) (recursive : bool)
    (media_files : list string) (ext : string) : list string + string :=
  fold_raising (add_pattern directory recursive)
               ["*." +:+ ext; "*." +:+ upper ext] media_files.

(** The function, when the set [extensions] is iterated in [order]. *)
Definition find_media_files_in (order : list string)
    (directory : string) (recursive : bool) : list string + discovery_error :=
  match dir_exists t directory with
  | inr e => inr (Raised e)
  | inl false => inr (DirectoryNotFound directory)
  | inl true =>
      match is_dir t directory with
      | inr e => inr (Raised e)
      | inl false => inr (NotADirectory directory)
      | inl true =>
          match fold_raising (add_extension directory recursive) order [] with
          | inr e => inr (Raised e)
          | inl media_files => inl (sorted media_files)
          end
      end
  end.

(** [find_media_files(directory, file_types, recursive)] comes to [answer]
    under some iteration order of the set. *)
Definition find_media_files_returns (directory : string)
    (file_types : option (list string)) (recursive : bool)
    (answer : list string + discovery_error) : Prop :=
  exists order,
    NoDup order /\
    (forall ext, ext ∈ order
                 <-> ext ∈ extensions (default Handlers.DEFAULT_FILE_TYPES file_types)) /\
    answer = find_media_files_in order directory recursive.
End Find.

End Discovery.

(** ** transcriber.py: what the batch reports *)

Module BatchLog.
Import Transcriber.

(** The paths of the items whose task is done, in input order. *)
Fixpoint done_paths (tasks : list phase) (files : list (string * Q)) : list string :=
  match tasks, files with
  | ph :: tasks', item :: files' =>
      match ph with
      | Done _ => fst item :: done_paths tasks' files'
      | Waiting | Running => done_paths tasks' files'
      end
  | _, _ => []
  end.

(** What the shared counter and the calls of the progress callback hold in
    every state of a run: the counter is the number of finished tasks;
    without a callback no call is made; with one there is a call for each
    finished task, and the calls carried the counts 1, 2, ... in that order
    and the total every time, and named each finished item once. *)
Record log_invariant (files : list (string * Q)) (progress_callback : bool)
    (st : batch_state) : Prop := {
  log_counter : completed st = length (done_paths (tasks st) files);
  log_length : length (progress st) = if progress_callback then completed st else 0%nat;
  log_counts : map (fun entry => fst (fst entry)) (progress st)
               = seq 1 (length (progress st));
  log_totals : Forall (fun entry => snd (fst entry) = length files) (progress st);
  log_paths : progress_callback = true ->
              map snd (progress st) ≡ₚ done_paths (tasks st) files
}.

End BatchLog.

(** * Properties *)

(** ** Facts about the string primitives *)

Module PyStrFacts.
Import PyStr.

#[local] Arguments String.append !_ _ : simpl nomatch.

Lemma append_nil_r (s : string) : s +:+ "" = s.
Proof. induction s as [|c s IH]; simpl; [reflexivity | now rewrite IH]. Qed.

Lemma append_assoc (a b c : string) : (a +:+ b) +:+ c = a +:+ (b +:+ c).
Proof. induction a as [|x a IH]; simpl; [reflexivity | now rewrite IH]. Qed.

Lemma length_append (a b : string) :
  String.length (a +:+ b) = (String.length a + String.length b)%nat.
Proof. induction a as [|x a IH]; simpl; [reflexivity | now rewrite IH]. Qed.

(** *** [split] and [join] *)

Lemma split_not_nil sep s : split sep s <> [].
Proof.
  destruct s as [|c r]; simpl; [discriminate |].
  destruct (Ascii.eqb c sep); [discriminate |].
  destruct (split sep r); discriminate.
Qed.

Lemma split_no_sep sep s : no_char sep s = true -> split sep s = [s].
Proof.
  induction s as [|c r IH]; simpl; [reflexivity |].
  intros H. apply andb_prop in H as [Hc Hr].
  apply negb_true_iff in Hc. rewrite Hc, (IH Hr). reflexivity.
Qed.

Lemma split_app_sep sep a b :
  no_char sep a = true ->
  split sep (a +:+ String sep b) = a :: split sep b.
Proof.
  induction a as [|c r IH]; simpl.
  - intros _. now rewrite Ascii.eqb_refl.
  - intros H. apply andb_prop in H as [Hc Hr].
    apply negb_true_iff in Hc. rewrite Hc, (IH Hr). reflexivity.
Qed.

Lemma join_cons sep x y rest :
  join sep (x :: y :: rest) = x +:+ sep +:+ join sep (y :: rest).
Proof. reflexivity. Qed.

Lemma join_split sep s : join (String sep "") (split sep s) = s.
Proof.
  induction s as [|c r IH]; simpl; [reflexivity |].
  destruct (Ascii.eqb_spec c sep) as [->|Hne].
  - destruct (split sep r) as [|h t] eqn:E.
    + now apply split_not_nil in E.
    + rewrite join_cons, IH. reflexivity.
  - destruct (split sep r) as [|h t] eqn:E.
    + now apply split_not_nil in E.
    + destruct t as [|h2 t].
      * simpl in *. now rewrite IH.
      * rewrite join_cons in *. rewrite <- IH. reflexivity.
Qed.

Lemma no_linebreak_no_LF s : no_linebreak s = true -> no_char LF s = true.
Proof.
  induction s as [|c r IH]; simpl; [reflexivity |].
  intros H. apply andb_prop in H as [H Hr]. apply andb_prop in H as [H1 _].
  now rewrite H1, (IH Hr).
Qed.

Lemma no_linebreak_app a b :
  no_linebreak (a +:+ b) = no_linebreak a && no_linebreak b.
Proof.
  induction a as [|c r IH]; simpl; [reflexivity |].
  rewrite IH. now rewrite andb_assoc.
Qed.

Lemma no_char_app x a b : no_char x (a +:+ b) = no_char x a && no_char x b.
Proof.
  induction a as [|c r IH]; simpl; [reflexivity |].
  rewrite IH. now rewrite andb_assoc.
Qed.

(** Reading in text mode changes nothing in a text without "\r". *)
Lemma universal_newlines_id s : no_char CR s = true -> universal_newlines s = s.
Proof.
  induction s as [|c r IH]; [reflexivity |].
  intros H. simpl in H. apply andb_prop in H as [Hc Hr].
  apply negb_true_iff in Hc.
  change (universal_newlines (String c r))
    with (if Ascii.eqb c CR
          then match r with
               | String c2 r2 =>
                   if Ascii.eqb c2 LF then String LF (universal_newlines r2)
                   else String LF (universal_newlines r)
               | EmptyString => String LF EmptyString
               end
          else String c (universal_newlines r)).
  now rewrite Hc, (IH Hr).
Qed.

(** A prefix without "\r" that ends a line is read on its own. *)
Lemma universal_newlines_app a b :
  no_char CR a = true ->
  universal_newlines (a +:+ b) = a +:+ universal_newlines b.
Proof.
  induction a as [|c r IH]; [reflexivity |].
  intros H. simpl in H. apply andb_prop in H as [Hc Hr].
  apply negb_true_iff in Hc.
  change (String c r +:+ b) with (String c (r +:+ b)).
  change (universal_newlines (String c (r +:+ b)))
    with (if Ascii.eqb c CR
          then match r +:+ b with
               | String c2 r2 =>
                   if Ascii.eqb c2 LF then String LF (universal_newlines r2)
                   else String LF (universal_newlines (r +:+ b))
               | EmptyString => String LF EmptyString
               end
          else String c (universal_newlines (r +:+ b))).
  rewrite Hc, (IH Hr). reflexivity.
Qed.

(** *** [strip] *)

Lemma lstrip_no_space s : no_space s = true -> lstrip s = s.
Proof.
  destruct s as [|c r]; simpl; [reflexivity |].
  intros H. apply andb_prop in H as [Hc _].
  apply negb_true_iff in Hc. now rewrite Hc.
Qed.

Lemma rstrip_no_space s : no_space s = true -> rstrip s = s.
Proof.
  induction s as [|c r IH]; simpl; [reflexivity |].
  intros H. apply andb_prop in H as [Hc Hr].
  apply negb_true_iff in Hc. rewrite (IH Hr), Hc.
  destruct r; reflexivity.
Qed.

Lemma strip_no_space s : no_space s = true -> strip s = s.
Proof.
  intros H. unfold strip. rewrite (lstrip_no_space s H). now apply rstrip_no_space.
Qed.

Lemma no_space_app a b : no_space (a +:+ b) = no_space a && no_space b.
Proof.
  induction a as [|c r IH]; simpl; [reflexivity |].
  rewrite IH. now rewrite andb_assoc.
Qed.

(** *** [endswith] *)

Lemma endswith_app suf p : endswith suf (p +:+ suf) = true.
Proof.
  induction p as [|c r IH].
  - destruct suf; cbn [String.append endswith]; now rewrite String.eqb_refl.
  - change (String c r +:+ suf) with (String c (r +:+ suf)).
    cbn [endswith]. rewrite IH. apply orb_true_r.
Qed.

Lemma endswith_length suf s :
  endswith suf s = true -> (String.length suf <= String.length s)%nat.
Proof.
  induction s as [|c r IH]; cbn [endswith].
  - rewrite orb_false_r. intros H. apply String.eqb_eq in H. now subst.
  - intros H. apply orb_prop in H as [H|H].
    + apply String.eqb_eq in H. subst. simpl. lia.
    + specialize (IH H). simpl. lia.
Qed.

(** A suffix shorter than [t] is decided by [t] alone. *)
Lemma endswith_app_short suf p t :
  (String.length suf <= String.length t)%nat ->
  endswith suf (p +:+ t) = endswith suf t.
Proof.
  intros Hlen. induction p as [|c r IH]; [reflexivity |].
  change (String c r +:+ t) with (String c (r +:+ t)).
  cbn [endswith]. rewrite IH.
  destruct (String.eqb_spec (String c (r +:+ t)) suf) as [E|_]; [|reflexivity].
  exfalso. apply (f_equal String.length) in E.
  simpl in E. rewrite length_append in E. lia.
Qed.

Lemma substring_0_append a b :
  substring 0 (String.length a) (a +:+ b) = a.
Proof.
  induction a as [|c r IH]; simpl.
  - destruct b; reflexivity.
  - now rewrite IH.
Qed.

Lemma drop_last_app p t : drop_last (String.length t) (p +:+ t) = p.
Proof.
  unfold drop_last. rewrite length_append.
  replace (String.length p + String.length t - String.length t)%nat
    with (String.length p) by lia.
  apply substring_0_append.
Qed.

(** *** Decimal numerals *)

Lemma is_digit_char_facts c :
  is_digit c = true ->
  isspace c = false /\ Ascii.eqb c COLON = false /\ Ascii.eqb c "_" = false.
Proof.
  destruct c as [[] [] [] [] [] [] [] []]; vm_compute; intros H;
    first [discriminate H | repeat split].
Qed.

Lemma digit_of_digit_char d :
  (d < 10)%N ->
  digit_of (digit_char d) = Some d /\ Ascii.eqb (digit_char d) "_" = false.
Proof.
  intros H.
  assert (E : d = N.of_nat (N.to_nat d)) by lia.
  assert (L : (N.to_nat d < 10)%nat) by lia.
  rewrite E. generalize dependent (N.to_nat d). intros n _ L.
  do 10 (destruct n as [|n]; [split; reflexivity |]). lia.
Qed.

Lemma is_digit_digit_char d : (d < 10)%N -> is_digit (digit_char d) = true.
Proof.
  intros H. unfold is_digit. now destruct (digit_of_digit_char d H) as [-> _].
Qed.

Lemma digits_only_no_space s : digits_only s = true -> no_space s = true.
Proof.
  induction s as [|c r IH]; simpl; [reflexivity |].
  intros H. apply andb_prop in H as [Hc Hr].
  destruct (is_digit_char_facts c Hc) as (-> & _ & _). now rewrite (IH Hr).
Qed.

Lemma digits_only_no_colon s : digits_only s = true -> no_char COLON s = true.
Proof.
  induction s as [|c r IH]; simpl; [reflexivity |].
  intros H. apply andb_prop in H as [Hc Hr].
  destruct (is_digit_char_facts c Hc) as (_ & -> & _). now rewrite (IH Hr).
Qed.

Lemma digits_only_app a b :
  digits_only (a +:+ b) = digits_only a && digits_only b.
Proof.
  induction a as [|c r IH]; simpl; [reflexivity |].
  rewrite IH. now rewrite andb_assoc.
Qed.

Lemma dec_digits_app fuel : forall n t,
  dec_digits fuel n t = dec_digits fuel n "" +:+ t.
Proof.
  induction fuel as [|f IH]; intros n t; simpl; [reflexivity |].
  destruct (n / 10 =? 0)%N; [reflexivity |].
  rewrite (IH _ (String _ t)), (IH _ (String _ "")), append_assoc.
  reflexivity.
Qed.

Lemma digits_only_dec_digits fuel : forall n t,
  digits_only t = true -> digits_only (dec_digits fuel n t) = true.
Proof.
  assert (D : forall n, is_digit (digit_char (n mod 10)) = true).
  { intros n. apply is_digit_digit_char. apply N.mod_lt. discriminate. }
  induction fuel as [|f IH]; intros n t Ht; cbn [dec_digits digits_only].
  - now rewrite D, Ht.
  - destruct (n / 10 =? 0)%N; cbn [digits_only].
    + now rewrite D, Ht.
    + apply IH. cbn [digits_only]. now rewrite D, Ht.
Qed.

Lemma dec_digits_nonempty fuel n t : dec_digits fuel n t <> "".
Proof.
  rewrite dec_digits_app. destruct fuel as [|f]; simpl; [discriminate |].
  destruct (n / 10 =? 0)%N; [discriminate |].
  rewrite dec_digits_app. destruct (dec_digits f (n / 10) ""); discriminate.
Qed.

(** Reading the digits that [dec_digits] wrote gives the number back. *)
Lemma int_body_dec_digits fuel : forall n t,
  (n < 2 ^ N.of_nat fuel)%N ->
  exists k, forall a prev,
    int_body (dec_digits fuel n t) a prev = int_body t (a * 10 ^ k + n)%N true.
Proof.
  assert (One : forall n t a prev, (n < 10)%N ->
            int_body (String (digit_char (n mod 10)) t) a prev
            = int_body t (a * 10 ^ 1 + n)%N true).
  { intros n t a prev Hn. rewrite N.mod_small by exact Hn.
    destruct (digit_of_digit_char n Hn) as [Hd Hu].
    cbn [int_body]. rewrite Hu, Hd. reflexivity. }
  induction fuel as [|f IH]; intros n t Hn.
  - exists 1%N. intros a prev. apply One. simpl in Hn. lia.
  - cbn [dec_digits]. destruct (N.eqb_spec (n / 10) 0) as [E|E].
    + exists 1%N. intros a prev. apply One.
      apply N.div_small_iff in E; [exact E | discriminate].
    + assert (Hq : (n / 10 < 2 ^ N.of_nat f)%N).
      { rewrite Nat2N.inj_succ, N.pow_succ_r' in Hn.
        apply N.Div0.div_lt_upper_bound. lia. }
      destruct (IH (n / 10)%N (String (digit_char (n mod 10)) t) Hq) as [k Hk].
      exists (N.succ k). intros a prev. rewrite Hk.
      assert (Hm : (n mod 10 < 10)%N) by (apply N.mod_lt; discriminate).
      destruct (digit_of_digit_char _ Hm) as [Hd Hu].
      cbn [int_body]. rewrite Hu, Hd. f_equal.
      rewrite N.pow_succ_r'.
      pose proof (N.div_mod n 10 ltac:(discriminate)) as Hdm. lia.
Qed.

Lemma size_nat_bound n : (n < 2 ^ N.of_nat (N.size_nat n))%N.
Proof.
  destruct n as [|p]; [reflexivity |].
  simpl. induction p as [p IH|p IH|]; simpl Pos.size_nat.
  - rewrite Nat2N.inj_succ, N.pow_succ_r'. lia.
  - rewrite Nat2N.inj_succ, N.pow_succ_r'. lia.
  - reflexivity.
Qed.

Lemma int_body_str_of_N n prev : int_body (str_of_N n) 0%N prev = Some n.
Proof.
  unfold str_of_N.
  destruct (int_body_dec_digits (N.size_nat n) n "" (size_nat_bound n)) as [k Hk].
  rewrite Hk. reflexivity.
Qed.

Lemma digits_only_str_of_N n : digits_only (str_of_N n) = true.
Proof. now apply digits_only_dec_digits. Qed.

(** On a string of digits, [int] is the plain decimal reading. *)
Lemma py_int_digits s :
  digits_only s = true ->
  py_int s = option_map Z.of_N (int_body s 0%N false).
Proof.
  intros H. unfold py_int.
  rewrite (strip_no_space s (digits_only_no_space s H)).
  destruct s as [|c r]; [reflexivity |].
  cbn [digits_only] in H. apply andb_prop in H as [Hc _].
  destruct c as [[] [] [] [] [] [] [] []];
    first [discriminate Hc | reflexivity].
Qed.

Lemma py_int_str_of_Z z : 0 <= z -> py_int (str_of_Z z) = Some z.
Proof.
  intros Hz. assert (E : str_of_Z z = str_of_N (Z.to_N z)) by (destruct z; [reflexivity..|lia]).
  rewrite E, py_int_digits by apply digits_only_str_of_N.
  rewrite int_body_str_of_N. simpl. f_equal. lia.
Qed.

Lemma digits_only_str_of_Z z : 0 <= z -> digits_only (str_of_Z z) = true.
Proof.
  intros Hz. destruct z; [apply digits_only_str_of_N..|lia].
Qed.

Lemma digits_only_fmt_02d z : 0 <= z -> digits_only (fmt_02d z) = true.
Proof.
  intros Hz. pose proof (digits_only_str_of_Z z Hz) as D.
  destruct z; [reflexivity | | lia].
  unfold fmt_02d. destruct (_ <? _); [|exact D].
  cbn [digits_only]. now rewrite D.
Qed.

Lemma py_int_fmt_02d z : 0 <= z -> py_int (fmt_02d z) = Some z.
Proof.
  intros Hz. rewrite py_int_digits by now apply digits_only_fmt_02d.
  assert (E : forall s, fmt_02d z = s -> str_of_Z z = str_of_N (Z.to_N z) ->
              option_map Z.of_N (int_body s 0%N false) = Some z).
  { intros s <- E. unfold fmt_02d.
    assert (R : option_map Z.of_N (Some (Z.to_N z)) = Some z)
      by (simpl; f_equal; lia).
    destruct z; [reflexivity | | lia].
    destruct (_ <? _); rewrite E.
    - change (int_body (String "0" ?s) 0%N false) with (int_body s 0%N true).
      now rewrite int_body_str_of_N.
    - now rewrite int_body_str_of_N. }
  apply (E _ eq_refl). destruct z; [reflexivity..|lia].
Qed.

(** Zero padding to width 2 is the two-digit numeral below 100. *)
Lemma fmt_02d_two_digits z : 0 <= z < 100 -> fmt_02d z = two_digits z.
Proof.
  intros Hz.
  assert (All : forallb (fun k => String.eqb (fmt_02d (Z.of_nat k))
                                              (two_digits (Z.of_nat k)))
                        (seq 0 100) = true) by (vm_compute; reflexivity).
  rewrite forallb_forall in All.
  specialize (All (Z.to_nat z)). rewrite Z2Nat.id in All by lia.
  apply String.eqb_eq, All, in_seq. lia.
Qed.

End PyStrFacts.

(** ** utils.py: [format_duration] *)

Module UtilsFacts.
Import PyStr PyStrFacts Utils.

Lemma floordiv_floor x p : floordiv x (Zpos p) = Qfloor x / Zpos p.
Proof.
  destruct x as [a d].
  unfold floordiv, Qdiv, Qmult, Qinv, inject_Z, Qfloor. cbn [Qnum Qden].
  rewrite Z.mul_1_r, Pos2Z.inj_mul, Z.div_div by lia. reflexivity.
Qed.

Lemma Qfloor_sub_Z x k : Qfloor (x - inject_Z k) = Qfloor x - k.
Proof.
  destruct x as [a d].
  unfold Qminus, Qplus, Qopp, inject_Z, Qfloor. cbn [Qnum Qden].
  rewrite Pos.mul_1_r, Z.mul_1_r, Z.div_add by lia. lia.
Qed.

Lemma pymod_floor x p : Qfloor (pymod x (Zpos p)) = Qfloor x mod Zpos p.
Proof.
  unfold pymod. rewrite Qfloor_sub_Z, floordiv_floor, Z.mod_eq by lia.
  reflexivity.
Qed.

(** The remainder by a positive number is never negative. *)
Lemma pymod_nonneg x p : Qle_bool 0 (pymod x (Zpos p)) = true.
Proof.
  apply Qle_bool_iff. unfold pymod. rewrite floordiv_floor.
  unfold Qminus. apply (proj1 (Qle_minus_iff _ _)).
  eapply Qle_trans; [| apply Qfloor_le].
  rewrite <- Zle_Qle. apply Z.mul_div_le. lia.
Qed.

Lemma int_of_float_Z k : int_of_float (inject_Z k) = k.
Proof.
  unfold int_of_float. destruct (Qle_bool _ _); [apply Qfloor_Z | apply Qceiling_Z].
Qed.

Lemma int_of_float_pymod x p :
  int_of_float (pymod x (Zpos p)) = Qfloor x mod Zpos p.
Proof.
  unfold int_of_float. rewrite pymod_nonneg. apply pymod_floor.
Qed.

(** [format_duration] only looks at the whole seconds of its argument. *)
Lemma format_duration_floor x :
  format_duration x =
  let f := Qfloor x in
  if 0 <? f / 3600 then
    str_of_Z (f / 3600) +:+ ":" +:+ fmt_02d (f mod 3600 / 60)
      +:+ ":" +:+ fmt_02d (f mod 60)
  else
    str_of_Z (f mod 3600 / 60) +:+ ":" +:+ fmt_02d (f mod 60).
Proof.
  unfold format_duration.
  rewrite !int_of_float_Z, int_of_float_pymod, !floordiv_floor, pymod_floor.
  reflexivity.
Qed.

End UtilsFacts.

(** C3. For a whole number of seconds [s], [format_duration] writes
    [H:MM:SS] when the hour part [s / 3600] is positive and [M:SS]
    otherwise; the hour and, in the short form, the minutes are plain
    decimal numerals, the padded fields are exactly two decimal digits of the
    minutes [(s mod 3600) / 60] and the seconds [s mod 60], all by integer
    division and remainder, and a duration with a fraction of a second is
    written as its whole seconds are.  So 45 gives "0:45", 125 gives "2:05"
    and 3725 gives "1:02:05". *)
Theorem format_duration_whole_seconds (s : Z) :
  0 <= s ->
  Utils.format_duration (inject_Z s) =
    (if 0 <? s / 3600 then
       PyStr.str_of_Z (s / 3600) +:+ ":" +:+ PyStr.two_digits (s mod 3600 / 60)
         +:+ ":" +:+ PyStr.two_digits (s mod 60)
     else
       PyStr.str_of_Z (s mod 3600 / 60) +:+ ":" +:+ PyStr.two_digits (s mod 60))
  /\ PyStr.py_int (PyStr.str_of_Z (s / 3600)) = Some (s / 3600)
  /\ PyStr.py_int (PyStr.str_of_Z (s mod 3600 / 60)) = Some (s mod 3600 / 60)
  /\ (forall x : Q, Qfloor x = s ->
        Utils.format_duration x = Utils.format_duration (inject_Z s))
  /\ Utils.format_duration 45 = "0:45"
  /\ Utils.format_duration 125 = "2:05"
  /\ Utils.format_duration 3725 = "1:02:05".
Proof.
  intros Hs.
  assert (Hm : 0 <= s mod 3600 / 60 < 100).
  { pose proof (Z.mod_pos_bound s 3600 ltac:(lia)).
    split; [apply Z.div_pos; lia | apply Z.div_lt_upper_bound; lia]. }
  assert (Hsec : 0 <= s mod 60 < 100).
  { pose proof (Z.mod_pos_bound s 60 ltac:(lia)). lia. }
  split; [| split; [| split; [| split; [| repeat split; vm_compute; reflexivity]]]].
  - rewrite UtilsFacts.format_duration_floor, Qfloor_Z. cbv zeta.
    rewrite !PyStrFacts.fmt_02d_two_digits by assumption. reflexivity.
  - apply PyStrFacts.py_int_str_of_Z. apply Z.div_pos; lia.
  - apply PyStrFacts.py_int_str_of_Z. lia.
  - intros x Hx.
    rewrite (UtilsFacts.format_duration_floor x),
      (UtilsFacts.format_duration_floor (inject_Z s)), Qfloor_Z, Hx.
    reflexivity.
Qed.

Lemma format_duration_whole_seconds_witness :
  0 <= 3725 /\
  Utils.format_duration (inject_Z 3725) = "1:02:05".
Proof.
  split; [lia |].
  destruct (format_duration_whole_seconds 3725 ltac:(lia)) as [H _].
  rewrite H. vm_compute. reflexivity.
Defined.

(** ** transcriber.py: word extraction and error classification *)

Module TranscriberFacts.
Import PyStr Transcriber.



End TranscriberFacts.



(** C7. When the remote call of [transcribe] raises an HTTP status error,
    the outcome is a failure whose message is chosen by the status code:
    429 rate limited, 403 quota or key, 401 invalid key, 400 an invalid
    request carrying the detail parsed from the provider's answer (the text
    of the error when there is none to parse), and any other code a generic
    API error carrying the code and the text of the error. *)
Theorem transcribe_classifies_http_errors
    (w : Transcriber.World) (call : nat) (file_path accuracy language : string)
    (duration : option Q) (diarize : bool) (e : Transcriber.HTTPStatusError) :
  Transcriber.path_exists w file_path = true ->
  Transcriber.remote_call w call file_path
    (Transcriber.job_config accuracy language diarize) = Transcriber.RaisesHTTP e ->
  let r := Transcriber.transcribe w call file_path accuracy language duration diarize in
  let code := Transcriber.status_code e in
  Transcriber.status r = Transcriber.StatusError /\
  Transcriber.file_path r = file_path /\
  Transcriber.transcript r = "" /\
  Transcriber.words r = None /\
  Transcriber.job_id r = None /\
  (code = 429 -> Transcriber.error_message r
     = Some "Rate limited by Speechmatics API. Please wait and try again.") /\
  (code = 403 -> Transcriber.error_message r
     = Some "API quota exceeded or invalid API key. Check your Speechmatics account.") /\
  (code = 401 -> Transcriber.error_message r
     = Some "Invalid Speechmatics API key.") /\
  (code = 400 ->
     (forall text, Transcriber.response_detail e = Transcriber.DetailFound text ->
        Transcriber.error_message r = Some ("Invalid request: " +:+ text)) /\
     ((forall text, Transcriber.response_detail e <> Transcriber.DetailFound text) ->
        Transcriber.error_message r
        = Some ("Invalid request: " +:+ Transcriber.error_text e))) /\
  (code <> 429 -> code <> 403 -> code <> 401 -> code <> 400 ->
     Transcriber.error_message r
     = Some ("API error (" +:+ PyStr.str_of_Z code +:+ "): "
             +:+ Transcriber.error_text e)).
Proof.
  intros Hex Hcall r code. subst r code.
  unfold Transcriber.transcribe. rewrite Hex, Hcall. cbn [negb].
  unfold Transcriber.failure, Transcriber._handle_http_error.
  cbn [Transcriber.status Transcriber.file_path Transcriber.transcript
       Transcriber.words Transcriber.job_id Transcriber.error_message].
  repeat split.
  - now intros ->.
  - now intros ->.
  - now intros ->.
  - intros text Ht. rewrite H, Ht. reflexivity.
  - intros Hno. rewrite H. cbn.
    destruct (Transcriber.response_detail e) as [text| |]; try reflexivity.
    now destruct (Hno text).
  - intros H1 H2 H3 H4.
    apply Z.eqb_neq in H1, H2, H3, H4. now rewrite H1, H2, H3, H4.
Qed.

Lemma transcribe_classifies_http_errors_witness :
  let e := {| Transcriber.status_code := 503;
              Transcriber.response_detail := Transcriber.DetailRaises;
              Transcriber.error_text := "Service Unavailable" |} in
  let w := {| Transcriber.path_exists := fun _ => true;
              Transcriber.remote_call := fun _ _ _ => Transcriber.RaisesHTTP e |} in
  Transcriber.error_message
    (Transcriber.transcribe w 0 "a.mp3" "standard" "en" (Some 12%Q) false)
  = Some "API error (503): Service Unavailable".
Proof.
  intros e w.
  pose proof (transcribe_classifies_http_errors w 0 "a.mp3" "standard" "en"
                (Some 12%Q) false e eq_refl eq_refl) as H.
  cbv zeta in H.
  destruct H as (_ & _ & _ & _ & _ & _ & _ & _ & _ & H).
  rewrite H by (simpl; lia). vm_compute. reflexivity.
Defined.

(** ** server.py: the directory report *)

Module ReportFacts.
Import PyStr Transcriber Server.

Section Loop.
Variable clock : nat -> PyDatetime.datetime.
Variable with_timestamps : bool.

Lemma report_step_total st r :
  acc_total (report_step clock with_timestamps st r)
  = if is_success r then (acc_total st + duration_seconds r)%Q else acc_total st.
Proof.
  unfold report_step, is_success. destruct (status r); [| reflexivity].
  destruct (write_transcript_file _ _ _ _). reflexivity.
Qed.

Lemma report_step_counts st r :
  acc_processed (report_step clock with_timestamps st r)
  = acc_processed st + (if is_success r then 1 else 0)
  /\ acc_failed (report_step clock with_timestamps st r)
     = acc_failed st + (if is_success r then 0 else 1)
  /\ map report_duration_seconds
         (acc_transcripts (report_step clock with_timestamps st r))
     = map report_duration_seconds (acc_transcripts st) ++ [duration_seconds r].
Proof.
  unfold report_step, is_success. destruct (status r).
  - destruct (write_transcript_file _ _ _ _). cbn.
    rewrite map_app. repeat split; lia.
  - cbn. rewrite map_app. repeat split; lia.
Qed.

Lemma report_loop rs : forall st,
  let st' := fold_left (report_step clock with_timestamps) rs st in
  acc_total st'
  = fold_left Qplus (map duration_seconds (List.filter is_success rs)) (acc_total st)
  /\ acc_processed st'
     = acc_processed st + Z.of_nat (length (List.filter is_success rs))
  /\ acc_failed st'
     = acc_failed st
       + Z.of_nat (length (List.filter (fun r => negb (is_success r)) rs))
  /\ map report_duration_seconds (acc_transcripts st')
     = map report_duration_seconds (acc_transcripts st) ++ map duration_seconds rs.
Proof.
  induction rs as [|r rs IH]; intros st; cbn [fold_left].
  - cbn. rewrite app_nil_r. repeat split; lia.
  - destruct (IH (report_step clock with_timestamps st r)) as (Ht & Hp & Hf & Hd).
    destruct (report_step_counts st r) as (Hp1 & Hf1 & Hd1).
    cbv zeta. rewrite Ht, Hp, Hf, Hd, Hp1, Hf1, Hd1, report_step_total.
    cbn [List.filter map]. rewrite <- app_assoc.
    destruct (is_success r); cbn [negb length map fold_left];
      repeat split; try lia; reflexivity.
Qed.
End Loop.

End ReportFacts.

(** C1, as the code has it.  The total of the directory report is the sum
    of [durationSeconds] over the Success outcomes only, added in list
    order; a Failure outcome adds nothing to it, although its own duration
    is kept in its per-file entry.  The two counters are the numbers of
    Success and of Failure outcomes. *)
Theorem directory_total_sums_successes
    (clock : nat -> PyDatetime.datetime) (with_timestamps : bool)
    (fs : Server.filesystem) (results : list Transcriber.TranscriptionResult) :
  let report := snd (Server.handle_transcribe_directory_report clock with_timestamps fs results) in
  Server.total_duration_seconds report
    = Server.sum_durations (List.filter Server.is_success results)
  /\ Server.files_processed report
     = Z.of_nat (length (List.filter Server.is_success results))
  /\ Server.files_failed report
     = Z.of_nat (length (List.filter (fun r => negb (Server.is_success r)) results))
  /\ map Server.report_duration_seconds (Server.transcripts report)
     = map Transcriber.duration_seconds results.
Proof.
  unfold Server.handle_transcribe_directory_report. cbn [snd].
  cbn [Server.total_duration_seconds Server.files_processed
       Server.files_failed Server.transcripts].
  match goal with
  | |- context [fold_left _ _ ?st0] =>
      destruct (ReportFacts.report_loop clock with_timestamps results st0)
        as (Ht & Hp & Hf & Hd)
  end.
  cbv zeta in Ht, Hp, Hf, Hd. rewrite Ht, Hp, Hf, Hd.
  repeat split.
Qed.

(** C1 fails as stated: one file whose remote call is refused with status
    401 after its duration (90 seconds) was probed gives a Failure outcome
    of duration 90, and the report's total is 0, not 90. *)
Lemma directory_total_skips_failures :
  let e := {| Transcriber.status_code := 401;
              Transcriber.response_detail := Transcriber.DetailRaises;
              Transcriber.error_text := "401 Unauthorized" |} in
  let w := {| Transcriber.path_exists := fun _ => true;
              Transcriber.remote_call := fun _ _ _ => Transcriber.RaisesHTTP e |} in
  let results := [Transcriber.transcribe w 0 "/media/a.mp3" "standard" "en" (Some 90%Q) false] in
  let report := snd (Server.handle_transcribe_directory_report (fun _ => PyDatetime.may_day)
                                              false ∅ results) in
  map Transcriber.status results = [Transcriber.StatusError] /\
  Server.sum_durations results = (0 + 90)%Q /\
  Server.total_duration_seconds report = 0%Q /\
  ~ (Server.total_duration_seconds report == Server.sum_durations results)%Q.
Proof.
  cbv zeta. repeat split. intros H. vm_compute in H. discriminate H.
Qed.

(** ** server.py: the transcript codec *)

Module CodecFacts.
Import PyStr PyStrFacts Utils Transcriber Server.
Import PyDatetime (datetime, isoformat, zfill, zeros, format_offset).

#[local] Arguments String.append !_ _ : simpl nomatch.

(** *** The time stamp *)

Lemma digits_only_zfill width n : digits_only (zfill width n) = true.
Proof.
  unfold zfill. rewrite digits_only_app, digits_only_str_of_N, andb_true_r.
  induction (width - String.length (str_of_N n))%nat as [|k IH];
    [reflexivity | exact IH].
Qed.

Lemma no_space_zfill width n rest :
  no_space rest = true -> no_space (zfill width n +:+ rest) = true.
Proof.
  intros H.
  now rewrite no_space_app, (digits_only_no_space _ (digits_only_zfill _ _)).
Qed.

(** A time stamp has no white space in it, so it stays on its line. *)
Lemma no_space_isoformat d : no_space (isoformat d) = true.
Proof.
  unfold isoformat, format_offset.
  repeat first
    [ apply no_space_zfill
    | apply digits_only_no_space, digits_only_zfill
    | progress cbn [String.append no_space]
    | match goal with
      | |- no_space ("" +:+ ?x) = true => change ("" +:+ x) with x
      | |- (?a && _) = true => change a with true; cbn [andb]
      | |- no_space ((if ?c then _ else _) +:+ _) = true => destruct c
      | |- no_space (match ?o with Some _ => _ | None => _ end) = true => destruct o
      | |- no_space (if ?c then _ else _) = true => destruct c
      end
    | reflexivity ].
Qed.

(** A path that [write_transcript_file] chose is read as what it is. *)
Lemma json_path_sniffed p :
  endswith ".transcript.txt" (p +:+ ".transcript.json") = false /\
  endswith ".transcript.json" (p +:+ ".transcript.json") = true /\
  endswith ".json" (p +:+ ".transcript.json") = true /\
  drop_last 16 (p +:+ ".transcript.json") = p.
Proof.
  repeat split.
  - rewrite endswith_app_short by (simpl; lia). reflexivity.
  - apply endswith_app.
  - rewrite endswith_app_short by (simpl; lia). reflexivity.
  - apply (drop_last_app p ".transcript.json").
Qed.

Lemma text_path_sniffed p :
  endswith ".transcript.txt" (p +:+ ".transcript.txt") = true /\
  endswith ".json" (p +:+ ".transcript.txt") = false /\
  drop_last 15 (p +:+ ".transcript.txt") = p.
Proof.
  repeat split.
  - apply endswith_app.
  - rewrite endswith_app_short by (simpl; lia). reflexivity.
  - apply (drop_last_app p ".transcript.txt").
Qed.

(** *** The plain-text format *)

Lemma no_linebreak_no_CR s : no_linebreak s = true -> no_char CR s = true.
Proof.
  induction s as [|c r IH]; simpl; [reflexivity |].
  intros H. apply andb_prop in H as [H Hr]. apply andb_prop in H as [_ H2].
  now rewrite H2, (IH Hr).
Qed.

Lemma no_space_no_linebreak s : no_space s = true -> no_linebreak s = true.
Proof.
  induction s as [|c r IH]; simpl; [reflexivity |].
  intros H. apply andb_prop in H as [Hc Hr]. rewrite (IH Hr), andb_true_r.
  destruct (Ascii.eqb_spec c LF) as [->|_]; [discriminate Hc |].
  destruct (Ascii.eqb_spec c CR) as [->|_]; [discriminate Hc | reflexivity].
Qed.

Lemma text_header_app ts src dur acc body :
  text_header ts src dur acc +:+ body
  = ("# Transcribed: " +:+ ts) +:+ String LF
    (("# Source: " +:+ src) +:+ String LF
    (("# Duration: " +:+ dur) +:+ String LF
    (("# Accuracy: " +:+ acc) +:+ String LF (String LF body)))).
Proof.
  unfold text_header.
  repeat (rewrite !append_assoc; cbn [String.append]).
  reflexivity.
Qed.

Lemma header_no_CR ts src dur acc :
  no_linebreak ts = true -> no_linebreak src = true ->
  no_linebreak dur = true -> no_linebreak acc = true ->
  no_char CR (text_header ts src dur acc) = true.
Proof.
  intros H1 H2 H3 H4. apply no_linebreak_no_CR in H1, H2, H3, H4.
  unfold text_header.
  repeat (rewrite !no_char_app; cbn [no_char]).
  rewrite H1, H2, H3, H4. reflexivity.
Qed.

(** A written text is split into its header lines, one empty line and the
    lines of the transcript. *)
Lemma split_text ts src dur acc body :
  no_linebreak ts = true -> no_linebreak src = true ->
  no_linebreak dur = true -> no_linebreak acc = true ->
  split LF (text_header ts src dur acc +:+ body)
  = header_lines ts src dur acc ++ "" :: split LF body.
Proof.
  intros H1 H2 H3 H4. apply no_linebreak_no_LF in H1, H2, H3, H4.
  rewrite text_header_app.
  rewrite !split_app_sep by (rewrite no_char_app; cbn; assumption).
  reflexivity.
Qed.

Lemma header_loop_past lines : forall acc,
  fold_left header_step lines (true, acc) = (true, acc ++ lines).
Proof.
  induction lines as [|l lines IH]; intros acc; simpl.
  - now rewrite app_nil_r.
  - rewrite IH, <- app_assoc. reflexivity.
Qed.

Lemma header_loop ts src dur acc rest :
  fold_left header_step (header_lines ts src dur acc ++ "" :: rest) (false, [])
  = (true, rest).
Proof. cbn. apply header_loop_past. Qed.

Lemma scan_header ts src dur acc rest :
  scan_duration (take 5 (header_lines ts src dur acc ++ "" :: rest))
  = parse_duration_line ("# Duration: " +:+ dur).
Proof. reflexivity. Qed.

(** Reading back a written text: the transcript, whatever the duration
    line says. *)
Lemma read_written_text ts src dur acc body :
  no_linebreak ts = true -> no_linebreak src = true ->
  no_linebreak dur = true -> no_linebreak acc = true ->
  read_text (universal_newlines (text_header ts src dur acc +:+ body))
  = duration ← parse_duration_line ("# Duration: " +:+ dur);
    Some (strip (universal_newlines body), duration).
Proof.
  intros H1 H2 H3 H4.
  rewrite universal_newlines_app by now apply header_no_CR.
  unfold read_text. rewrite split_text by assumption.
  rewrite header_loop, scan_header. cbn [snd]. rewrite join_split.
  reflexivity.
Qed.

(** *** The duration line *)

Lemma parse_duration_unknown :
  parse_duration_line ("# Duration: " +:+ "unknown") = Some None.
Proof. vm_compute. reflexivity. Qed.

Lemma duration_line_cut dur :
  no_space dur = true ->
  parse_duration_line ("# Duration: " +:+ dur)
  = match split COLON dur with
    | [m; s] => m' ← py_int m; s' ← py_int s; Some (Some (m' * 60 + s'))
    | [h; m; s] =>
        h' ← py_int h; m' ← py_int m; s' ← py_int s;
        Some (Some (h' * 3600 + m' * 60 + s'))
    | _ => Some None
    end.
Proof.
  intros Hd. unfold parse_duration_line.
  change (split_once COLON ("# Duration: " +:+ dur))
    with ["# Duration"; String " " dur].
  cbv iota. change (strip (String " " dur)) with (strip dur).
  rewrite (strip_no_space dur Hd). reflexivity.
Qed.

Lemma no_space_digits_colon a b :
  digits_only a = true -> no_space b = true ->
  no_space (a +:+ ":" +:+ b) = true.
Proof.
  intros Ha Hb. rewrite no_space_app, (digits_only_no_space a Ha).
  cbn. exact Hb.
Qed.

Lemma no_space_format_duration d : no_space (format_duration d) = true.
Proof.
  rewrite UtilsFacts.format_duration_floor. cbv zeta.
  pose proof (Z.mod_pos_bound (Qfloor d) 3600 ltac:(lia)) as B1.
  pose proof (Z.mod_pos_bound (Qfloor d) 60 ltac:(lia)) as B2.
  assert (M : 0 <= Qfloor d mod 3600 / 60) by (apply Z.div_pos; lia).
  destruct (Z.ltb_spec 0 (Qfloor d / 3600)) as [Hh|Hh].
  - apply no_space_digits_colon; [apply digits_only_str_of_Z; lia |].
    apply no_space_digits_colon; [now apply digits_only_fmt_02d |].
    apply digits_only_no_space, digits_only_fmt_02d. lia.
  - apply no_space_digits_colon; [now apply digits_only_str_of_Z |].
    apply digits_only_no_space, digits_only_fmt_02d. lia.
Qed.

(** What the reader makes of a formatted duration: the whole seconds when
    the hours are written, the seconds within the hour otherwise. *)
Lemma parse_formatted_duration d :
  parse_duration_line ("# Duration: " +:+ format_duration d)
  = Some (Some (if 0 <? Qfloor d / 3600 then Qfloor d else Qfloor d mod 3600)).
Proof.
  rewrite duration_line_cut by apply no_space_format_duration.
  rewrite UtilsFacts.format_duration_floor. cbv zeta.
  set (f := Qfloor d).
  pose proof (Z.mod_pos_bound f 3600 ltac:(lia)) as B1.
  pose proof (Z.mod_pos_bound f 60 ltac:(lia)) as B2.
  assert (M : 0 <= f mod 3600 / 60) by (apply Z.div_pos; lia).
  destruct (Z.ltb_spec 0 (f / 3600)) as [Hh|Hh].
  - change (str_of_Z (f / 3600) +:+ ":" +:+ fmt_02d (f mod 3600 / 60)
              +:+ ":" +:+ fmt_02d (f mod 60))
      with (str_of_Z (f / 3600) +:+ String COLON
              (fmt_02d (f mod 3600 / 60) +:+ String COLON (fmt_02d (f mod 60)))).
    rewrite split_app_sep
      by (apply digits_only_no_colon, digits_only_str_of_Z; lia).
    rewrite split_app_sep by (apply digits_only_no_colon, digits_only_fmt_02d; lia).
    rewrite split_no_sep by (apply digits_only_no_colon, digits_only_fmt_02d; lia).
    rewrite py_int_str_of_Z, !py_int_fmt_02d by lia.
    cbn. do 2 f_equal. Z.to_euclidean_division_equations. lia.
  - change (str_of_Z (f mod 3600 / 60) +:+ ":" +:+ fmt_02d (f mod 60))
      with (str_of_Z (f mod 3600 / 60) +:+ String COLON (fmt_02d (f mod 60))).
    rewrite split_app_sep
      by (apply digits_only_no_colon, digits_only_str_of_Z; lia).
    rewrite split_no_sep by (apply digits_only_no_colon, digits_only_fmt_02d; lia).
    rewrite py_int_str_of_Z, py_int_fmt_02d by lia.
    cbn. do 2 f_equal. Z.to_euclidean_division_equations. lia.
Qed.

Lemma Qfloor_nonneg d : (0 <= d)%Q -> 0 <= Qfloor d.
Proof.
  intros H. rewrite <- (Qfloor_Z 0). now apply Qfloor_resp_le.
Qed.

Lemma parse_formatted_duration_nonneg d :
  (0 <= d)%Q ->
  parse_duration_line ("# Duration: " +:+ format_duration d)
  = Some (Some (Qfloor d)).
Proof.
  intros Hd. rewrite parse_formatted_duration.
  pose proof (Qfloor_nonneg d Hd) as Hf.
  destruct (Z.ltb_spec 0 (Qfloor d / 3600)) as [Hh|Hh]; [reflexivity |].
  do 2 f_equal. Z.to_euclidean_division_equations. lia.
Qed.

(** *** The first three lines alone

    The duration is found on the third line whatever comes after it. *)

Lemma universal_newlines_line a b :
  no_char CR a = true ->
  universal_newlines (a +:+ String LF b) = a +:+ String LF (universal_newlines b).
Proof.
  intros H. now rewrite universal_newlines_app.
Qed.

Lemma split_head ts src dur rest :
  no_linebreak ts = true -> no_linebreak src = true -> no_linebreak dur = true ->
  split LF (("# Transcribed: " +:+ ts) +:+ String LF
            (("# Source: " +:+ src) +:+ String LF
            (("# Duration: " +:+ dur) +:+ String LF rest)))
  = ("# Transcribed: " +:+ ts) :: ("# Source: " +:+ src)
      :: ("# Duration: " +:+ dur) :: split LF rest.
Proof.
  intros H1 H2 H3. apply no_linebreak_no_LF in H1, H2, H3.
  rewrite !split_app_sep by (rewrite no_char_app; cbn; assumption).
  reflexivity.
Qed.

Lemma read_text_head ts src dur rest :
  no_linebreak ts = true -> no_linebreak src = true -> no_linebreak dur = true ->
  read_text (universal_newlines
               (("# Transcribed: " +:+ ts) +:+ String LF
                (("# Source: " +:+ src) +:+ String LF
                (("# Duration: " +:+ dur) +:+ String LF rest))))
  = duration ← parse_duration_line ("# Duration: " +:+ dur);
    Some (strip (join (String LF "")
                   (snd (fold_left header_step
                           (split LF (universal_newlines rest)) (false, [])))),
          duration).
Proof.
  intros H1 H2 H3.
  rewrite !universal_newlines_line
    by (rewrite no_char_app; cbn; now apply no_linebreak_no_CR).
  unfold read_text. rewrite split_head by assumption. reflexivity.
Qed.

Section Reading.
Variable json_loads : string -> option json.
Variable json_dumps : json -> string.

(** Reading through a path with the JSON suffix. *)
Lemma get_json_file (fs : filesystem) p c :
  fs !! (p +:+ ".transcript.json") = Some c ->
  handle_get_transcript json_loads json_dumps fs (p +:+ ".transcript.json")
  = match load_json json_loads c ≫= (fun data => read_json data p) with
    | Some r => GetSuccess r
    | None => GetError ReadFailed
    end.
Proof.
  intros Hc. unfold handle_get_transcript.
  destruct (json_path_sniffed p) as (Htxt & Hjson & Hext & Hdrop).
  rewrite Htxt, Hjson. cbn [orb]. rewrite Hc, Hext, Hdrop. reflexivity.
Qed.

(** Reading through a path with the text suffix. *)
Lemma get_text_file (fs : filesystem) p c :
  fs !! (p +:+ ".transcript.txt") = Some c ->
  handle_get_transcript json_loads json_dumps fs (p +:+ ".transcript.txt")
  = match read_text (read_file json_dumps c) with
    | Some (transcript, duration) =>
        GetSuccess
          {| reply_transcript := JStr transcript;
             reply_source_media := p;
             reply_duration_seconds :=
               match duration with
               | Some z => JNum (inject_Z z)
               | None => JNull
               end;
             reply_has_timestamps := false;
             reply_word_count := None |}
    | None => GetError ReadFailed
    end.
Proof.
  intros Hc. unfold handle_get_transcript.
  destruct (text_path_sniffed p) as (Htxt & Hext & Hdrop).
  rewrite Htxt. cbn [orb]. rewrite Hc, Hext, Hdrop. reflexivity.
Qed.
End Reading.

Lemma write_json_file now (fs : filesystem) result :
  write_transcript_file now fs result true
  = (<[file_path result +:+ ".transcript.json" :=
         JsonFile
           (JObj [("metadata",
                   JObj [("source", JStr (path_name (file_path result)));
                         ("transcribed_at", JStr (isoformat now));
                         ("duration_seconds", JNum (duration_seconds result));
                         ("accuracy", JStr (accuracy result))]);
                  ("transcript", JStr (transcript result));
                  ("words", JArr (map word_json (words_or_empty (words result))))])]> fs,
     file_path result +:+ ".transcript.json").
Proof. reflexivity. Qed.

Lemma write_text_file now (fs : filesystem) result :
  write_transcript_file now fs result false
  = (<[file_path result +:+ ".transcript.txt" :=
         TextFile
           (text_header (isoformat now) (path_name (file_path result))
              (if truthy (duration_seconds result)
               then format_duration (duration_seconds result) else "unknown")
              (accuracy result)
            +:+ transcript result)]> fs,
     file_path result +:+ ".transcript.txt").
Proof. reflexivity. Qed.

End CodecFacts.

(** C5. Writing an outcome in the JSON format and reading the written file
    back succeeds with [has_timestamps] true and a word count equal to the
    length of the outcome's word list, 0 when the outcome has none: the
    written document has a "words" array with one element for each word.
    An outcome without words is written with an empty "words" array and
    reads back with a word count of 0. *)
Theorem json_round_trip_counts_words
    (json_loads : string -> option Server.json)
    (json_dumps : Server.json -> string)
    (now : PyDatetime.datetime) (fs : Server.filesystem)
    (result : Transcriber.TranscriptionResult) :
  let written := Server.write_transcript_file now fs result true in
  let response :=
    Server.handle_get_transcript json_loads json_dumps (fst written) (snd written) in
  let count :=
    match Transcriber.words result with
    | Some entries => length entries
    | None => 0%nat
    end in
  (exists reply,
      response = Server.GetSuccess reply /\
      Server.reply_has_timestamps reply = true /\
      Server.reply_word_count reply = Some count /\
      Server.reply_transcript reply = Server.JStr (Transcriber.transcript result)) /\
  (exists members items,
      fst written !! snd written = Some (Server.JsonFile (Server.JObj members)) /\
      Server.dict_get "words" members = Some (Server.JArr items) /\
      length items = count) /\
  (Transcriber.words result = None ->
   (exists members,
       fst written !! snd written = Some (Server.JsonFile (Server.JObj members)) /\
       Server.dict_get "words" members = Some (Server.JArr [])) /\
   exists reply,
       response = Server.GetSuccess reply /\ Server.reply_word_count reply = Some 0%nat).
Proof.
  cbv zeta. rewrite CodecFacts.write_json_file. cbn [fst snd].
  rewrite (CodecFacts.get_json_file _ _ _ _ _ (lookup_insert_eq _ _ _)).
  rewrite lookup_insert_eq.
  cbn [Server.load_json mbind option_bind Server.read_json].
  split; [| split].
  - eexists. split; [reflexivity |]. cbn. rewrite length_map.
    destruct (Transcriber.words result); repeat split.
  - do 2 eexists. split; [reflexivity |]. split; [reflexivity |].
    rewrite length_map. now destruct (Transcriber.words result).
  - intros Hw. rewrite Hw. split.
    + eexists. split; reflexivity.
    + eexists. split; reflexivity.
Qed.

(** An outcome with two word timings reads back with a word count of 2. *)
Lemma json_round_trip_counts_words_witness :
  let entry text t0 t1 :=
    {| Transcriber.word := text; Transcriber.start := t0;
       Transcriber.end_ := t1; Transcriber.confidence := 1%Q |} in
  let result :=
    {| Transcriber.file_path := "/media/talk.mp3";
       Transcriber.transcript := "hello world";
       Transcriber.words := Some [entry "hello" 0%Q (1 # 2)%Q; entry "world" (1 # 2)%Q 1%Q];
       Transcriber.duration_seconds := 125;
       Transcriber.accuracy := "standard";
       Transcriber.diarization := false;
       Transcriber.status := Transcriber.StatusSuccess;
       Transcriber.error_message := None;
       Transcriber.job_id := Some "job-1" |} in
  let written := Server.write_transcript_file PyDatetime.may_day ∅ result true in
  exists reply,
    Server.handle_get_transcript (fun _ => None) (fun _ => "") (fst written) (snd written)
    = Server.GetSuccess reply /\
    Server.reply_has_timestamps reply = true /\
    Server.reply_word_count reply = Some 2%nat.
Proof.
  intros entry result written.
  destruct (json_round_trip_counts_words (fun _ => None) (fun _ => "")
              PyDatetime.may_day ∅ result)
    as [(reply & Hget & Hts & Hcount & _) _].
  exists reply. split; [exact Hget |]. split; [exact Hts | exact Hcount].
Defined.

Module TextRoundTrip.
Import PyStr PyStrFacts Utils Transcriber Server CodecFacts.
Import PyDatetime (datetime, isoformat).

Lemma truthy_false_iff d : truthy d = false <-> (d == 0)%Q.
Proof.
  unfold truthy. rewrite negb_false_iff. apply Qeq_bool_iff.
Qed.

Lemma truthy_positive d : (0 < d)%Q -> truthy d = true.
Proof.
  intros H. destruct (truthy d) eqn:E; [reflexivity |].
  apply truthy_false_iff in E. rewrite E in H. now apply Qlt_irrefl in H.
Qed.

Section WriteThenRead.
Variable json_loads : string -> option json.
Variable json_dumps : json -> string.
Variable now : datetime.
Variable fs : filesystem.
Variable result : TranscriptionResult.

Let source_name := path_name (file_path result).
Let duration_str :=
  if truthy (duration_seconds result)
  then format_duration (duration_seconds result) else "unknown".

Hypothesis source_one_line : no_linebreak source_name = true.

Lemma timestamp_one_line : no_linebreak (isoformat now) = true.
Proof. apply no_space_no_linebreak, no_space_isoformat. Qed.

Lemma duration_str_one_line : no_linebreak duration_str = true.
Proof.
  unfold duration_str. destruct (truthy _); [| reflexivity].
  apply no_space_no_linebreak, no_space_format_duration.
Qed.

(** The third line of the written text is the duration line. *)
Lemma written_third_line :
  let written := write_transcript_file now fs result false in
  exists text,
    fst written !! snd written = Some (TextFile text) /\
    split LF text !! 2%nat = Some ("# Duration: " +:+ duration_str).
Proof.
  cbv zeta. rewrite write_text_file. cbn [fst snd].
  eexists. split; [apply lookup_insert_eq |].
  fold source_name duration_str.
  rewrite text_header_app, split_head
    by first [assumption | apply timestamp_one_line | apply duration_str_one_line].
  reflexivity.
Qed.

(** Reading back finds the duration on that line. *)
Lemma read_duration_after_write :
  let written := write_transcript_file now fs result false in
  exists text,
    handle_get_transcript json_loads json_dumps (fst written) (snd written)
    = match parse_duration_line ("# Duration: " +:+ duration_str) with
      | Some duration =>
          GetSuccess
            {| reply_transcript := JStr text;
               reply_source_media := file_path result;
               reply_duration_seconds :=
                 match duration with
                 | Some z => JNum (inject_Z z)
                 | None => JNull
                 end;
               reply_has_timestamps := false;
               reply_word_count := None |}
      | None => GetError ReadFailed
      end.
Proof.
  cbv zeta. rewrite write_text_file. cbn [fst snd].
  rewrite (get_text_file _ _ _ _ _ (lookup_insert_eq _ _ _)).
  cbn [read_file]. fold source_name duration_str.
  rewrite text_header_app, read_text_head
    by first [assumption | apply timestamp_one_line | apply duration_str_one_line].
  eexists.
  destruct (parse_duration_line _) as [duration|]; reflexivity.
Qed.

Hypothesis accuracy_one_line : no_linebreak (accuracy result) = true.

(** With the whole header in place, the transcript comes back with its
    line endings read as "\n" and trimmed once. *)
Lemma read_after_write :
  let written := write_transcript_file now fs result false in
  handle_get_transcript json_loads json_dumps (fst written) (snd written)
  = match parse_duration_line ("# Duration: " +:+ duration_str) with
    | Some duration =>
        GetSuccess
          {| reply_transcript :=
               JStr (strip (universal_newlines (transcript result)));
             reply_source_media := file_path result;
             reply_duration_seconds :=
               match duration with
               | Some z => JNum (inject_Z z)
               | None => JNull
               end;
             reply_has_timestamps := false;
             reply_word_count := None |}
    | None => GetError ReadFailed
    end.
Proof.
  cbv zeta. rewrite write_text_file. cbn [fst snd].
  rewrite (get_text_file _ _ _ _ _ (lookup_insert_eq _ _ _)).
  cbn [read_file].
  rewrite read_written_text
    by first [assumption | apply timestamp_one_line | apply duration_str_one_line].
  fold duration_str.
  destruct (parse_duration_line _) as [duration|]; reflexivity.
Qed.
End WriteThenRead.

End TextRoundTrip.

(** C4, as the code has it.  Take an outcome whose duration is not zero and
    whose source file name and accuracy hold no line break.  Writing it in
    the plain-text format and reading the written file back succeeds and
    yields the transcript with its line endings read as "\n" and trimmed
    once at both ends (the trimmed transcript itself when it has no carriage
    return), and as duration the formatted time reparsed: the whole seconds
    of the duration when that is positive, as 125.0 gives "2:05" and reads
    back as 125. *)
Theorem text_round_trip
    (json_loads : string -> option Server.json)
    (json_dumps : Server.json -> string)
    (now : PyDatetime.datetime) (fs : Server.filesystem)
    (result : Transcriber.TranscriptionResult) :
  PyStr.no_linebreak (Server.path_name (Transcriber.file_path result)) = true ->
  PyStr.no_linebreak (Transcriber.accuracy result) = true ->
  PyStr.truthy (Transcriber.duration_seconds result) = true ->
  let d := Transcriber.duration_seconds result in
  let written := Server.write_transcript_file now fs result false in
  let reparsed := if 0 <? Qfloor d / 3600 then Qfloor d else Qfloor d mod 3600 in
  Server.handle_get_transcript json_loads json_dumps (fst written) (snd written)
  = Server.GetSuccess
      {| Server.reply_transcript :=
           Server.JStr (PyStr.strip (PyStr.universal_newlines
                                       (Transcriber.transcript result)));
         Server.reply_source_media := Transcriber.file_path result;
         Server.reply_duration_seconds := Server.JNum (inject_Z reparsed);
         Server.reply_has_timestamps := false;
         Server.reply_word_count := None |}
  /\ Server.parse_duration_line ("# Duration: " +:+ Utils.format_duration d)
     = Some (Some reparsed)
  /\ ((0 <= d)%Q -> reparsed = Qfloor d)
  /\ (PyStr.no_char PyStr.CR (Transcriber.transcript result) = true ->
      PyStr.strip (PyStr.universal_newlines (Transcriber.transcript result))
      = PyStr.strip (Transcriber.transcript result)).
Proof.
  intros Hsrc Hacc Hd d written reparsed. subst d written reparsed.
  split; [| split; [| split]].
  - rewrite (TextRoundTrip.read_after_write _ _ _ _ _ Hsrc Hacc).
    rewrite Hd, CodecFacts.parse_formatted_duration. reflexivity.
  - apply CodecFacts.parse_formatted_duration.
  - intros Hpos.
    pose proof (CodecFacts.parse_formatted_duration
                  (Transcriber.duration_seconds result)) as E1.
    rewrite (CodecFacts.parse_formatted_duration_nonneg _ Hpos) in E1.
    congruence.
  - intros Hcr. now rewrite PyStrFacts.universal_newlines_id.
Qed.

Lemma text_round_trip_witness :
  let r := {| Transcriber.file_path := "/media/talk.mp3";
              Transcriber.transcript := "  hello world ";
              Transcriber.words := None;
              Transcriber.duration_seconds := 125;
              Transcriber.accuracy := "standard";
              Transcriber.diarization := false;
              Transcriber.status := Transcriber.StatusSuccess;
              Transcriber.error_message := None;
              Transcriber.job_id := Some "job-1" |} in
  let written := Server.write_transcript_file PyDatetime.may_day ∅ r false in
  (PyStr.no_linebreak (Server.path_name (Transcriber.file_path r)) = true /\
   PyStr.no_linebreak (Transcriber.accuracy r) = true /\
   PyStr.truthy (Transcriber.duration_seconds r) = true) /\
  Utils.format_duration 125 = "2:05" /\
  Server.handle_get_transcript (fun _ => None) (fun _ => "") (fst written) (snd written)
  = Server.GetSuccess
      {| Server.reply_transcript := Server.JStr "hello world";
         Server.reply_source_media := "/media/talk.mp3";
         Server.reply_duration_seconds := Server.JNum (inject_Z 125);
         Server.reply_has_timestamps := false;
         Server.reply_word_count := None |}.
Proof.
  intros r written.
  split; [repeat split | split; [vm_compute; reflexivity |]].
  destruct (text_round_trip (fun _ => None) (fun _ => "") PyDatetime.may_day ∅ r
              eq_refl eq_refl eq_refl) as [H _].
  exact H.
Defined.

(** C4 fails as stated on a Success outcome of duration 0, which is what
    the directory handler passes on when the duration probe failed: the
    written header says "unknown" and the duration read back is [None],
    whereas 0 formats as "0:00" and reparses as 0. *)
Lemma text_round_trip_loses_zero_duration :
  let payload := {| Transcriber.transcript_text := Some "hello world";
                    Transcriber.results := None |} in
  let w := {| Transcriber.path_exists := fun _ => true;
              Transcriber.remote_call :=
                fun _ _ _ => Transcriber.Completed "job-1" payload |} in
  let r := Transcriber.transcribe w 0 "/media/talk.mp3" "standard" "en" (Some 0%Q) false in
  let written := Server.write_transcript_file PyDatetime.may_day ∅ r false in
  Transcriber.status r = Transcriber.StatusSuccess /\
  Server.parse_duration_line
    ("# Duration: " +:+ Utils.format_duration (Transcriber.duration_seconds r))
  = Some (Some 0) /\
  Server.handle_get_transcript (fun _ => None) (fun _ => "") (fst written) (snd written)
  = Server.GetSuccess
      {| Server.reply_transcript := Server.JStr "hello world";
         Server.reply_source_media := "/media/talk.mp3";
         Server.reply_duration_seconds := Server.JNull;
         Server.reply_has_timestamps := false;
         Server.reply_word_count := None |}.
Proof.
  cbv zeta. split; [reflexivity |]. split; vm_compute; reflexivity.
Qed.

(** Two more ways in which the round trip of C4 needs its conditions: a
    file name with an empty line in it ends the header early, so that the
    rest of the header is read as transcript; and a carriage return in the
    transcript is read back as a line feed. *)
Lemma text_round_trip_needs_one_line_name :
  let r := {| Transcriber.file_path :=
                "/media/x" +:+ String PyStr.LF (String PyStr.LF "y.mp3");
              Transcriber.transcript := "hello";
              Transcriber.words := None;
              Transcriber.duration_seconds := 125;
              Transcriber.accuracy := "standard";
              Transcriber.diarization := false;
              Transcriber.status := Transcriber.StatusSuccess;
              Transcriber.error_message := None;
              Transcriber.job_id := Some "job-1" |} in
  let written := Server.write_transcript_file PyDatetime.may_day ∅ r false in
  exists reply,
    Server.handle_get_transcript (fun _ => None) (fun _ => "") (fst written) (snd written)
    = Server.GetSuccess reply /\
    Server.reply_transcript reply
    = Server.JStr ("y.mp3" +:+ String PyStr.LF
                   ("# Duration: 2:05" +:+ String PyStr.LF
                   ("# Accuracy: standard" +:+ String PyStr.LF
                   (String PyStr.LF "hello")))).
Proof.
  cbv zeta. eexists. split; vm_compute; reflexivity.
Qed.

Lemma text_round_trip_reads_carriage_return_as_newline :
  let r := {| Transcriber.file_path := "/media/talk.mp3";
              Transcriber.transcript := "one" +:+ String PyStr.CR "two";
              Transcriber.words := None;
              Transcriber.duration_seconds := 125;
              Transcriber.accuracy := "standard";
              Transcriber.diarization := false;
              Transcriber.status := Transcriber.StatusSuccess;
              Transcriber.error_message := None;
              Transcriber.job_id := Some "job-1" |} in
  let written := Server.write_transcript_file PyDatetime.may_day ∅ r false in
  PyStr.strip (Transcriber.transcript r) = "one" +:+ String PyStr.CR "two" /\
  exists reply,
    Server.handle_get_transcript (fun _ => None) (fun _ => "") (fst written) (snd written)
    = Server.GetSuccess reply /\
    Server.reply_transcript reply = Server.JStr ("one" +:+ String PyStr.LF "two").
Proof.
  cbv zeta. split; [vm_compute; reflexivity |].
  eexists. split; vm_compute; reflexivity.
Qed.

(** C10, as the code has it.  Take an outcome whose source file name holds
    no line break.  When its duration is 0, the third line written in the
    plain-text format is "# Duration: unknown" and reading the file back
    succeeds with no duration ([None], not 0); when its duration is
    positive, that line carries the formatted time. *)
Theorem zero_duration_reads_back_as_none
    (json_loads : string -> option Server.json)
    (json_dumps : Server.json -> string)
    (now : PyDatetime.datetime) (fs : Server.filesystem)
    (result : Transcriber.TranscriptionResult) :
  PyStr.no_linebreak (Server.path_name (Transcriber.file_path result)) = true ->
  let d := Transcriber.duration_seconds result in
  let written := Server.write_transcript_file now fs result false in
  let third_line text := PyStr.split PyStr.LF text !! 2%nat in
  ((d == 0)%Q ->
   (exists text,
       fst written !! snd written = Some (Server.TextFile text) /\
       third_line text = Some "# Duration: unknown") /\
   exists reply,
       Server.handle_get_transcript json_loads json_dumps (fst written) (snd written)
       = Server.GetSuccess reply /\
       Server.reply_duration_seconds reply = Server.JNull)
  /\
  ((0 < d)%Q ->
   exists text,
       fst written !! snd written = Some (Server.TextFile text) /\
       third_line text = Some ("# Duration: " +:+ Utils.format_duration d)).
Proof.
  intros Hsrc d written third_line. subst d written third_line.
  split.
  - intros Hz. apply TextRoundTrip.truthy_false_iff in Hz. split.
    + destruct (TextRoundTrip.written_third_line now fs result Hsrc)
        as (text & Hfile & Hline).
      exists text. split; [exact Hfile |]. now rewrite Hline, Hz.
    + destruct (TextRoundTrip.read_duration_after_write
                  json_loads json_dumps now fs result Hsrc) as [text Hread].
      rewrite Hread, Hz, CodecFacts.parse_duration_unknown.
      eexists. split; reflexivity.
  - intros Hp. apply TextRoundTrip.truthy_positive in Hp.
    destruct (TextRoundTrip.written_third_line now fs result Hsrc)
      as (text & Hfile & Hline).
    exists text. split; [exact Hfile |]. now rewrite Hline, Hp.
Qed.

Lemma zero_duration_reads_back_as_none_witness :
  let r := {| Transcriber.file_path := "/media/talk.mp3";
              Transcriber.transcript := "hello world";
              Transcriber.words := None;
              Transcriber.duration_seconds := 0;
              Transcriber.accuracy := "enhanced";
              Transcriber.diarization := false;
              Transcriber.status := Transcriber.StatusSuccess;
              Transcriber.error_message := None;
              Transcriber.job_id := Some "job-1" |} in
  let written := Server.write_transcript_file PyDatetime.may_day ∅ r false in
  (PyStr.no_linebreak (Server.path_name (Transcriber.file_path r)) = true /\
   (Transcriber.duration_seconds r == 0)%Q) /\
  exists reply,
    Server.handle_get_transcript (fun _ => None) (fun _ => "") (fst written) (snd written)
    = Server.GetSuccess reply /\
    Server.reply_duration_seconds reply = Server.JNull.
Proof.
  intros r written.
  split; [repeat split |].
  destruct (zero_duration_reads_back_as_none (fun _ => None) (fun _ => "")
              PyDatetime.may_day ∅ r eq_refl) as [H _].
  destruct (H (Qeq_refl 0)) as [_ Hread].
  exact Hread.
Defined.

(** C10 fails as stated for a media file whose name holds a line break.
    The directory handler finds the file "a\n# Duration: 1:00\n.mp3" (its
    name ends in ".mp3"), gives it duration 0 when the probe fails, and
    writes the name into the header; the reader then takes the injected line
    for the duration line and answers 60 instead of [None]. *)
Lemma injected_duration_line_is_read :
  let name := "/media/a" +:+ String PyStr.LF ("# Duration: 1:00" +:+ String PyStr.LF ".mp3") in
  let payload := {| Transcriber.transcript_text := Some "hello world";
                    Transcriber.results := None |} in
  let w := {| Transcriber.path_exists := fun _ => true;
              Transcriber.remote_call :=
                fun _ _ _ => Transcriber.Completed "job-1" payload |} in
  let r := Transcriber.transcribe w 0 name "standard" "en" (Some 0%Q) false in
  let written := Server.write_transcript_file PyDatetime.may_day ∅ r false in
  (Transcriber.duration_seconds r == 0)%Q /\
  Server.handle_get_transcript (fun _ => None) (fun _ => "") (fst written) (snd written)
  = Server.GetSuccess
      {| Server.reply_transcript := Server.JStr "hello world";
         Server.reply_source_media := name;
         Server.reply_duration_seconds := Server.JNum (inject_Z 60);
         Server.reply_has_timestamps := false;
         Server.reply_word_count := None |}.
Proof.
  cbv zeta. split; vm_compute; reflexivity.
Qed.

(** ** transcriber.py: the batch *)

Module BatchFacts.
Import PyStr Transcriber.
Local Open Scope nat_scope.

Lemma sum_insert (f : phase -> nat) (l : list phase) : forall i ph ph',
  l !! i = Some ph ->
  sum_list_with f (<[i := ph']> l) + f ph = sum_list_with f l + f ph'.
Proof.
  induction l as [|x l IH]; intros i ph ph' Hi; [discriminate |].
  destruct i as [|i]; simpl in *.
  - injection Hi as ->. lia.
  - specialize (IH i ph ph' Hi). lia.
Qed.

Lemma sum_positive (f : phase -> nat) (l : list phase) :
  0 < sum_list_with f l -> exists i ph, l !! i = Some ph /\ 0 < f ph.
Proof.
  induction l as [|x l IH]; simpl; [lia |].
  intros H. destruct (f x) eqn:E.
  - destruct (IH H) as (i & ph & Hi & Hph). now exists (S i), ph.
  - exists 0, x. split; [reflexivity | lia].
Qed.

Lemma sum_lookup_le (f : phase -> nat) (l : list phase) i ph :
  l !! i = Some ph -> f ph <= sum_list_with f l.
Proof.
  revert i. induction l as [|x l IH]; intros i Hi; [discriminate |].
  destruct i as [|i]; simpl in *.
  - injection Hi as ->. lia.
  - specialize (IH i Hi). lia.
Qed.

(** When no step is left, every task is done and [gather] answers. *)
Lemma all_done_gather (l : list phase) :
  sum_list_with steps_left l = 0 -> exists rs, mapM finished l = Some rs.
Proof.
  induction l as [|ph l IH]; simpl; intros H.
  - now exists [].
  - destruct ph as [| |r]; simpl in H; try lia.
    destruct (IH H) as [rs Hrs]. exists (r :: rs).
    cbn. now rewrite Hrs.
Qed.

Lemma transcribe_file_path w call p accuracy language duration diarize :
  file_path (transcribe w call p accuracy language duration diarize) = p.
Proof.
  unfold transcribe. destruct (negb _); [reflexivity |].
  destruct (remote_call _ _ _ _); reflexivity.
Qed.

Section Runs.
Variable w : World.
Variable files : list (string * Q).
Variables accuracy language : string.
Variable diarize : bool.
Variable progress_callback : bool.
Variable max_concurrent : Z.

Abbreviation step := (batch_step w files accuracy language diarize progress_callback).
Abbreviation run := (batch_run w files accuracy language diarize progress_callback).
Abbreviation item_result := (transcribe_item w accuracy language diarize).
Abbreviation invariant :=
  (batch_invariant w files accuracy language diarize max_concurrent).

Lemma run_trans st1 st2 st3 : run st1 st2 -> run st2 st3 -> run st1 st3.
Proof.
  intros H12 H23. induction H23 as [|st2 st3 st4 _ IH Hstep]; [exact H12 |].
  eapply run_step; [apply IH, H12 | exact Hstep].
Qed.


Lemma invariant_start st0 :
  transcribe_batch_start files max_concurrent = Some st0 -> invariant st0.
Proof.
  unfold transcribe_batch_start. destruct (_ <? _)%Z; [discriminate |].
  intros [= <-]. split; cbn.
  - apply length_replicate.
  - intros i r Hi. apply lookup_replicate in Hi as [Hi _]. discriminate Hi.
  - induction (length files) as [|n IH]; cbn in *; lia.
Qed.

Lemma invariant_step st st' : invariant st -> step st st' -> invariant st'.
Proof.
  intros [Hlen Hdone Hperm] Hstep.
  destruct Hstep as [st i n Hi Hp | st i item Hi Hitem]; split; cbn.
  - now rewrite length_insert.
  - intros j r Hj. destruct (decide (i = j)) as [<-|Hne].
    + rewrite list_lookup_insert_eq in Hj by (eapply lookup_lt_Some, Hi).
      discriminate Hj.
    + rewrite list_lookup_insert_ne in Hj by exact Hne. now apply Hdone.
  - pose proof (sum_insert in_flight _ _ _ Running Hi) as E. cbn in E. lia.
  - now rewrite length_insert.
  - intros j r Hj. destruct (decide (i = j)) as [<-|Hne].
    + rewrite list_lookup_insert_eq in Hj by (eapply lookup_lt_Some, Hi).
      injection Hj as <-. now exists item.
    + rewrite list_lookup_insert_ne in Hj by exact Hne. now apply Hdone.
  - pose proof (sum_insert in_flight _ _ _ (Done (item_result i item)) Hi) as E.
    cbn in E. lia.
Qed.

Lemma invariant_run st st' : invariant st -> run st st' -> invariant st'.
Proof.
  intros Hinv Hrun. induction Hrun as [|st1 st2 st3 _ IH Hstep]; [exact Hinv |].
  eapply invariant_step; [apply IH, Hinv | exact Hstep].
Qed.

(** The admission gate: never more tasks in flight than permits in all. *)
Lemma in_flight_bounded st0 st :
  transcribe_batch_start files max_concurrent = Some st0 -> run st0 st ->
  sum_list_with in_flight (tasks st) <= Z.to_nat max_concurrent.
Proof.
  intros Hstart Hrun.
  destruct (invariant_run st0 st (invariant_start st0 Hstart) Hrun) as [_ _ Hp].
  lia.
Qed.

(** Every step uses up one of the transitions that are left. *)
Lemma step_decreases st st' :
  step st st' ->
  S (sum_list_with steps_left (tasks st')) = sum_list_with steps_left (tasks st).
Proof.
  intros [st0 i n Hi Hp | st0 i item Hi Hitem]; cbn.
  - pose proof (sum_insert steps_left _ _ _ Running Hi) as E. cbn in E. lia.
  - pose proof (sum_insert steps_left _ _ _ (Done (item_result i item)) Hi) as E.
    cbn in E. lia.
Qed.

(** With at least one permit in all, a batch that is not finished can
    always move: a running task can finish, and when none is running all
    permits are free for a waiting one. *)
Lemma progress_step st :
  (1 <= max_concurrent)%Z -> invariant st ->
  0 < sum_list_with steps_left (tasks st) -> exists st', step st st'.
Proof.
  intros Hmax [Hlen Hdone Hperm] Hleft.
  destruct (Nat.eq_dec (sum_list_with in_flight (tasks st)) 0) as [Hnone|Hsome].
  - destruct (sum_positive _ _ Hleft) as (i & ph & Hi & Hph).
    destruct ph as [| |r]; cbn in Hph; try lia.
    + destruct (permits st) as [|n] eqn:Hp; [lia |].
      eexists. eapply step_acquire; [exact Hi | exact Hp].
    + pose proof (sum_lookup_le in_flight _ _ _ Hi) as Hle. cbn in Hle. lia.
  - destruct (sum_positive in_flight (tasks st) ltac:(lia)) as (i & ph & Hi & Hph).
    destruct ph as [| |r]; cbn in Hph; try lia.
    assert (Hlt : i < length files) by (rewrite <- Hlen; eapply lookup_lt_Some, Hi).
    apply lookup_lt_is_Some in Hlt as [item Hitem].
    eexists. eapply step_finish; [exact Hi | exact Hitem].
Qed.

(** So every state of a run can be run to the end. *)
Lemma run_to_the_end st :
  (1 <= max_concurrent)%Z -> invariant st ->
  exists st' rs, run st st' /\ gather st' = Some rs.
Proof.
  intros Hmax.
  remember (sum_list_with steps_left (tasks st)) as n eqn:Hn.
  revert st Hn. induction n as [|n IH]; intros st Hn Hinv.
  - destruct (all_done_gather (tasks st) (eq_sym Hn)) as [rs Hrs].
    exists st, rs. split; [apply run_refl | exact Hrs].
  - destruct (progress_step st Hmax Hinv ltac:(lia)) as [st1 Hstep].
    pose proof (step_decreases _ _ Hstep) as Hdec.
    destruct (IH st1 ltac:(lia) (invariant_step _ _ Hinv Hstep))
      as (st' & rs & Hrun & Hrs).
    exists st', rs. split; [| exact Hrs].
    eapply run_trans; [| exact Hrun].
    eapply run_step; [apply run_refl | exact Hstep].
Qed.

(** What [gather] hands back at the end of any run. *)
Lemma gather_invariant st rs :
  invariant st -> gather st = Some rs -> rs = imap item_result files.
Proof.
  intros [Hlen Hdone _] Hg. unfold gather in Hg.
  apply mapM_Some in Hg.
  apply list_eq. intros i. rewrite list_lookup_imap.
  destruct (rs !! i) as [r|] eqn:Hr.
  - destruct (Forall2_lookup_r _ _ _ _ _ Hg Hr) as (ph & Hph & Hfin).
    destruct ph as [| |r']; try discriminate Hfin. injection Hfin as ->.
    destruct (Hdone i r Hph) as (item & Hitem & ->).
    now rewrite Hitem.
  - destruct (files !! i) as [item|] eqn:Hitem; [| reflexivity].
    exfalso.
    assert (Hlt : i < length (tasks st))
      by (rewrite Hlen; eapply lookup_lt_Some, Hitem).
    apply lookup_lt_is_Some in Hlt as [ph Hph].
    destruct (Forall2_lookup_l _ _ _ _ _ Hg Hph) as (r & Hr' & _).
    congruence.
Qed.

(** The batch returns, and what it returns does not depend on the
    interleaving: the results of the items, in input order. *)
Lemma batch_returns_iff rs :
  (1 <= max_concurrent)%Z ->
  transcribe_batch_returns w files accuracy language diarize progress_callback max_concurrent rs
  <-> rs = imap item_result files.
Proof.
  intros Hmax. split.
  - intros (st0 & st & Hstart & Hrun & Hg).
    eapply gather_invariant; [| exact Hg].
    eapply invariant_run; [apply invariant_start, Hstart | exact Hrun].
  - intros ->.
    destruct (transcribe_batch_start files max_concurrent) as [st0|] eqn:Hstart.
    + pose proof (invariant_start _ Hstart) as Hinv.
      destruct (run_to_the_end st0 Hmax Hinv) as (st & rs & Hrun & Hg).
      exists st0, st. repeat split; try assumption.
      rewrite Hg. f_equal.
      eapply gather_invariant; [| exact Hg].
      eapply invariant_run; [exact Hinv | exact Hrun].
    + unfold transcribe_batch_start in Hstart.
      destruct (Z.ltb_spec max_concurrent 0); [lia | discriminate].
Qed.
End Runs.

End BatchFacts.

(** A semaphore without permits never lets a task in: the batch neither
    moves nor returns. *)
Lemma batch_without_permits_is_stuck
    (w : Transcriber.World) (files : list (string * Q))
    (accuracy language : string) (diarize progress_callback : bool) :
  files <> [] ->
  forall rs,
    ~ Transcriber.transcribe_batch_returns w files accuracy language diarize progress_callback 0 rs.
Proof.
  intros Hne rs (st0 & st & Hstart & Hrun & Hg).
  injection Hstart as Hstart.
  assert (E : st = st0).
  { clear Hg. induction Hrun as [|st1 st2 st3 _ IH Hstep]; [reflexivity |].
    specialize (IH Hstart). rewrite <- Hstart in IH.
    destruct Hstep as [st i n Hi Hp | st i item Hi Hitem]; subst st.
    - cbn in Hp. discriminate Hp.
    - cbn in Hi. apply lookup_replicate in Hi as [Hi _]. discriminate Hi. }
  subst st st0. unfold Transcriber.gather in Hg. cbn in Hg.
  destruct files as [|item files']; [congruence |].
  cbn in Hg. discriminate Hg.
Qed.

(** C2. With at least one permit, the batch returns, and under every
    interleaving of its tasks it returns exactly one result per input item,
    the [i]-th result being that of transcribing the [i]-th item (and
    carrying its file path), whatever the order in which the tasks
    finished. *)
Theorem batch_results_follow_input_order
    (w : Transcriber.World) (files : list (string * Q))
    (accuracy language : string) (diarize progress_callback : bool)
    (max_concurrent : Z) :
  files <> [] ->
  1 <= max_concurrent ->
  (exists rs,
      Transcriber.transcribe_batch_returns w files accuracy language diarize progress_callback
        max_concurrent rs) /\
  forall rs,
    Transcriber.transcribe_batch_returns w files accuracy language diarize progress_callback
      max_concurrent rs ->
    length rs = length files /\
    (forall i,
        rs !! i
        = (fun item => Transcriber.transcribe w i (fst item) accuracy language
                         (Some (snd item)) diarize) <$> files !! i) /\
    (forall i r, rs !! i = Some r ->
        exists item, files !! i = Some item /\ Transcriber.file_path r = fst item).
Proof.
  intros _ Hmax. split.
  - eexists. now apply BatchFacts.batch_returns_iff.
  - intros rs Hrs. apply BatchFacts.batch_returns_iff in Hrs; [| exact Hmax].
    subst rs. split; [apply length_imap |]. split.
    + intros i. apply list_lookup_imap.
    + intros i r Hr. rewrite list_lookup_imap in Hr.
      destruct (files !! i) as [item|]; [| discriminate Hr].
      injection Hr as <-. exists item. split; [reflexivity |].
      apply BatchFacts.transcribe_file_path.
Qed.

Lemma batch_results_follow_input_order_witness :
  let payload := {| Transcriber.transcript_text := Some "hello";
                    Transcriber.results := None |} in
  let w := {| Transcriber.path_exists := fun _ => true;
              Transcriber.remote_call :=
                fun _ _ _ => Transcriber.Completed "job" payload |} in
  let files := [("/media/a.mp3", 10%Q); ("/media/b.mp3", 20%Q)] in
  (files <> [] /\ 1 <= 1) /\
  exists rs,
    Transcriber.transcribe_batch_returns w files "standard" "en" false false 1 rs /\
    Transcriber.file_path <$> rs = ["/media/a.mp3"; "/media/b.mp3"].
Proof.
  intros payload w files.
  split; [split; [discriminate | lia] |].
  destruct (batch_results_follow_input_order w files "standard" "en" false false 1
              ltac:(discriminate) ltac:(lia)) as [[rs Hrs] Hall].
  exists rs. split; [exact Hrs |].
  destruct (Hall rs Hrs) as (Hlen & Hat & _).
  pose proof (Hat 0%nat) as H0. pose proof (Hat 1%nat) as H1.
  destruct rs as [|r0 [|r1 [|r2 rs]]]; try discriminate Hlen.
  cbn in H0, H1. injection H0 as ->. injection H1 as ->. reflexivity.
Defined.

(** C8. With at least one permit, the batch returns under every
    interleaving one outcome per item, and the outcome in position [i] is
    decided by item [i] alone: a missing file, an HTTP error or any other
    exception of its remote call becomes a Failure outcome there, carrying
    the matching message, and a completed call a Success outcome; nothing
    that happens to another item changes it. *)
Theorem batch_isolates_failures
    (w : Transcriber.World) (files : list (string * Q))
    (accuracy language : string) (diarize progress_callback : bool)
    (max_concurrent : Z) :
  1 <= max_concurrent ->
  (exists rs,
      Transcriber.transcribe_batch_returns w files accuracy language diarize progress_callback
        max_concurrent rs) /\
  forall rs,
    Transcriber.transcribe_batch_returns w files accuracy language diarize progress_callback
      max_concurrent rs ->
    length rs = length files /\
    (forall i item, files !! i = Some item ->
       exists r,
         rs !! i = Some r /\
         Transcriber.file_path r = fst item /\
         if Transcriber.path_exists w (fst item) then
           match Transcriber.remote_call w i (fst item)
                   (Transcriber.job_config accuracy language diarize) with
           | Transcriber.Completed job _ =>
               Transcriber.status r = Transcriber.StatusSuccess /\
               Transcriber.error_message r = None /\
               Transcriber.job_id r = Some job
           | Transcriber.RaisesHTTP e =>
               Transcriber.status r = Transcriber.StatusError /\
               Transcriber.error_message r
               = Some (Transcriber._handle_http_error e)
           | Transcriber.RaisesOther message =>
               Transcriber.status r = Transcriber.StatusError /\
               Transcriber.error_message r = Some message
           end
         else
           Transcriber.status r = Transcriber.StatusError /\
           Transcriber.error_message r = Some ("File not found: " +:+ fst item)) /\
    (forall w' rs' i item,
       Transcriber.transcribe_batch_returns w' files accuracy language diarize progress_callback
         max_concurrent rs' ->
       files !! i = Some item ->
       Transcriber.path_exists w' (fst item) = Transcriber.path_exists w (fst item) ->
       Transcriber.remote_call w' i (fst item)
         (Transcriber.job_config accuracy language diarize)
       = Transcriber.remote_call w i (fst item)
           (Transcriber.job_config accuracy language diarize) ->
       rs' !! i = rs !! i).
Proof.
  intros Hmax. split.
  - eexists. now apply BatchFacts.batch_returns_iff.
  - intros rs Hrs. apply BatchFacts.batch_returns_iff in Hrs; [| exact Hmax].
    subst rs. split; [apply length_imap |]. split.
    + intros i item Hitem. eexists. rewrite list_lookup_imap, Hitem.
      split; [reflexivity |].
      split; [apply BatchFacts.transcribe_file_path |].
      unfold Transcriber.transcribe_item, Transcriber.transcribe.
      destruct (Transcriber.path_exists w (fst item)); cbn [negb]; [| now split].
      destruct (Transcriber.remote_call w i (fst item) _); repeat split.
    + intros w' rs' i item Hrs' Hitem Hex Hcall.
      apply BatchFacts.batch_returns_iff in Hrs'; [| exact Hmax]. subst rs'.
      rewrite !list_lookup_imap, Hitem. cbn. f_equal.
      unfold Transcriber.transcribe_item, Transcriber.transcribe.
      now rewrite Hex, Hcall.
Qed.

(** Three items of which only the second one's remote call raises: three
    outcomes, Success, Failure with the message of the exception, Success. *)
Lemma batch_isolates_failures_witness :
  let payload := {| Transcriber.transcript_text := Some "hello";
                    Transcriber.results := None |} in
  let w := {| Transcriber.path_exists := fun _ => true;
              Transcriber.remote_call :=
                fun i _ _ =>
                  if Nat.eqb i 1
                  then Transcriber.RaisesOther "connection reset by peer"
                  else Transcriber.Completed "job" payload |} in
  let files := [("/media/a.mp3", 10%Q); ("/media/b.mp3", 20%Q); ("/media/c.mp3", 30%Q)] in
  1 <= 2 /\
  exists rs,
    Transcriber.transcribe_batch_returns w files "standard" "en" false false 2 rs /\
    Transcriber.status <$> rs
    = [Transcriber.StatusSuccess; Transcriber.StatusError; Transcriber.StatusSuccess] /\
    Transcriber.error_message <$> rs
    = [None; Some "connection reset by peer"; None].
Proof.
  intros payload w files.
  split; [lia |].
  destruct (batch_isolates_failures w files "standard" "en" false false 2 ltac:(lia))
    as [[rs Hrs] Hall].
  exists rs. split; [exact Hrs |].
  destruct (Hall rs Hrs) as (Hlen & Hat & _).
  destruct (Hat 0%nat _ eq_refl) as (x0 & E0 & _ & S0 & M0 & _).
  destruct (Hat 1%nat _ eq_refl) as (x1 & E1 & _ & S1 & M1).
  destruct (Hat 2%nat _ eq_refl) as (x2 & E2 & _ & S2 & M2 & _).
  destruct rs as [|r0 [|r1 [|r2 [|r3 rs]]]]; try discriminate Hlen.
  cbn in E0, E1, E2. injection E0 as ->. injection E1 as ->. injection E2 as ->.
  cbn [fmap list_fmap]. now rewrite S0, S1, S2, M0, M1, M2.
Defined.

(** ** transcriber.py: the usage report *)

Module UsageFacts.
Import PyStr PyDatetime Usage.

Lemma lex_not_Lt c1 c2 : c1 <> Lt -> c2 <> Lt -> lex c1 c2 <> Lt.
Proof. destruct c1; simpl; congruence. Qed.

Lemma N_compare_0 n : (n ?= 0)%N <> Lt.
Proof. destruct n; discriminate. Qed.

Lemma Pos_compare_1 p : (p ?= 1)%positive <> Lt.
Proof.
  destruct (Pos.compare_spec p 1) as [| H |]; try discriminate.
  exfalso. now apply Pos.nlt_1_r in H.
Qed.

(** Against the first of a month only year and month matter. *)
Lemma geb_first_of_month now d :
  geb_naive (drop_tzinfo d) (first_of_month now) = month_reached now d.
Proof.
  unfold geb_naive, compare_naive, month_reached, drop_tzinfo, first_of_month.
  cbn [year month day hour minute second microsecond].
  assert (T : lex (day d ?= 1)%positive
               (lex (hour d ?= 0)%N
               (lex (minute d ?= 0)%N
               (lex (second d ?= 0)%N (microsecond d ?= 0)%N))) <> Lt).
  { repeat apply lex_not_Lt; auto using N_compare_0, Pos_compare_1. }
  rewrite Pos.ltb_compare, Pos.leb_compare, (Pos.compare_antisym (year d) (year now)).
  rewrite (Pos.compare_antisym (month d) (month now)).
  destruct (Pos.eqb_spec (year d) (year now)) as [Ey|Ny].
  - rewrite Ey, Pos.compare_refl. cbn.
    destruct (month d ?= month now)%positive eqn:Em; cbn; try reflexivity.
    destruct (lex _ _); [reflexivity | congruence | reflexivity].
  - destruct (year d ?= year now)%positive eqn:Ey; cbn; try reflexivity.
    apply Pos.compare_eq in Ey. contradiction.
Qed.

Section Loop.
Variable fromisoformat : string -> option datetime.
Variable now : datetime.

Lemma usage_step_counted acc job :
  usage_step fromisoformat (first_of_month now) acc job
  = if counted fromisoformat now job
    then ((fst acc + 1)%Z, (snd acc + or_zero (duration job))%Q)
    else acc.
Proof.
  unfold usage_step, counted.
  destruct (job_date fromisoformat job) as [d|]; [| reflexivity].
  now rewrite geb_first_of_month.
Qed.

Lemma usage_loop jobs : forall acc,
  fold_left (usage_step fromisoformat (first_of_month now)) jobs acc
  = ((fst acc + Z.of_nat (length (List.filter (counted fromisoformat now) jobs)))%Z,
     fold_left Qplus
       (map (fun job => or_zero (duration job))
            (List.filter (counted fromisoformat now) jobs))
       (snd acc)).
Proof.
  induction jobs as [|job jobs IH]; intros [n total]; cbn [fold_left List.filter].
  - cbn. f_equal. lia.
  - rewrite IH, usage_step_counted.
    destruct (counted fromisoformat now job); cbn; f_equal; lia.
Qed.
End Loop.

End UsageFacts.

(** *** Wall-clock months and instants *)

Module CalendarFacts.
Import PyDatetime Usage.

Lemma year_length y :
  days_before_year (y + 1)
  = days_before_year y + 365 + (if is_leap y then 1 else 0).
Proof.
  unfold days_before_year, is_leap.
  replace (y + 1 - 1) with y by lia.
  destruct (Z.eqb_spec (y mod 4) 0), (Z.eqb_spec (y mod 100) 0),
    (Z.eqb_spec (y mod 400) 0);
    cbn [andb orb negb]; Z.to_euclidean_division_equations; lia.
Qed.

Lemma days_before_year_mono a b :
  a <= b -> days_before_year a <= days_before_year b.
Proof.
  unfold days_before_year. intros H. Z.to_euclidean_division_equations. lia.
Qed.

Ltac each_month m H :=
  let E := fresh in
  assert (E : m = 1 \/ m = 2 \/ m = 3 \/ m = 4 \/ m = 5 \/ m = 6 \/ m = 7
              \/ m = 8 \/ m = 9 \/ m = 10 \/ m = 11 \/ m = 12) by lia;
  destruct E as [->|[->|[->|[->|[->|[->|[->|[->|[->|[->|[->| ->]]]]]]]]]]].

Lemma month_end y m :
  1 <= m <= 12 ->
  days_before_month y m + days_in_month y m
  = if m =? 12 then 365 + (if is_leap y then 1 else 0)
    else days_before_month y (m + 1).
Proof.
  intros H. unfold days_before_month, days_in_month.
  each_month m H; destruct (is_leap y); reflexivity.
Qed.

Lemma days_before_month_mono y m m' :
  1 <= m <= m' -> m' <= 12 ->
  days_before_month y m <= days_before_month y m'.
Proof.
  intros H H'. unfold days_before_month.
  each_month m H; each_month m' H'; try lia;
    destruct (is_leap y); apply Z.leb_le; reflexivity.
Qed.

Lemma days_before_month_bound y m :
  1 <= m <= 12 ->
  0 <= days_before_month y m /\
  days_before_month y m + days_in_month y m
    <= 365 + (if is_leap y then 1 else 0).
Proof.
  intros H. unfold days_before_month, days_in_month.
  each_month m H; destruct (is_leap y); split; apply Z.leb_le; reflexivity.
Qed.

(** A valid date is on or after the first of a month exactly when its
    year and month are. *)
Lemma ordinal_month_start y0 m0 y m d :
  1 <= m0 <= 12 -> 1 <= m <= 12 -> 1 <= d <= days_in_month y m ->
  days_before_year y0 + days_before_month y0 m0 + 1
    <= days_before_year y + days_before_month y m + d
  <-> y0 < y \/ (y = y0 /\ m0 <= m).
Proof.
  intros Hm0 Hm Hd.
  pose proof (days_before_month_bound y m Hm) as (B1 & B2).
  pose proof (days_before_month_bound y0 m0 Hm0) as (C1 & C2).
  pose proof (year_length y) as Ly. pose proof (year_length y0) as Ly0.
  destruct (Z.lt_trichotomy y0 y) as [Hlt | [Heq | Hgt]].
  - pose proof (days_before_year_mono (y0 + 1) y ltac:(lia)).
    split; [intros _; now left |]. intros _.
    assert (1 <= days_in_month y0 m0)
      by (unfold days_in_month; each_month m0 Hm0; destruct (is_leap y0);
          apply Z.leb_le; reflexivity).
    lia.
  - subst y0. destruct (Z.le_gt_cases m0 m) as [Hle|Hgt].
    + pose proof (days_before_month_mono y m0 m ltac:(lia) ltac:(lia)).
      split; [intros _; right; lia | intros _; lia].
    + pose proof (days_before_month_mono y (m + 1) m0 ltac:(lia) ltac:(lia)) as Hmono.
      pose proof (month_end y m Hm) as He.
      destruct (Z.eqb_spec m 12); [lia |].
      split; [intros Hle; exfalso; lia | intros [?|[_ ?]]; lia].
  - pose proof (days_before_year_mono (y + 1) y0 ltac:(lia)).
    split; [intros Hle; exfalso; lia | intros [?|[? _]]; lia].
Qed.

Lemma month_reached_iff now d :
  month_reached now d = true
  <-> Zpos (year now) < Zpos (year d)
      \/ (Zpos (year d) = Zpos (year now) /\ Zpos (month now) <= Zpos (month d)).
Proof.
  unfold month_reached.
  rewrite orb_true_iff, andb_true_iff, Pos.ltb_lt, Pos.eqb_eq, Pos.leb_le.
  split; (intros [H|[H1 H2]]; [left | right]); try split; try lia.
Qed.

(** For a time given in UTC, the wall-clock test of the code is the test on
    instants: on or after the first instant of the month of [now]. *)
Lemma month_reached_instant now d :
  valid d -> Zpos (month now) <= 12 ->
  utcoffset now = None ->
  utcoffset d = None \/ utcoffset d = Some 0 ->
  month_reached now d = true
  <-> utc_instant (first_of_month now) <= utc_instant d.
Proof.
  intros (Vm & Vd & Vh & Vmi & Vs & Vus) Hnow Hnaive Hoff.
  rewrite month_reached_iff.
  rewrite <- (ordinal_month_start (Zpos (year now)) (Zpos (month now))
                (Zpos (year d)) (Zpos (month d)) (Zpos (day d)))
    by lia.
  unfold utc_instant, ordinal, first_of_month.
  cbn [year month day hour minute second microsecond utcoffset].
  rewrite Hnaive.
  assert (E : default 0 (utcoffset d) = 0) by (destruct Hoff as [-> | ->]; reflexivity).
  rewrite E. cbn [default from_option id].
  set (A := days_before_year (Zpos (year now))
            + days_before_month (Zpos (year now)) (Zpos (month now)) + 1).
  set (B := days_before_year (Zpos (year d))
            + days_before_month (Zpos (year d)) (Zpos (month d)) + Zpos (day d)).
  change (Z.of_N 0) with 0. change (Z.pos 1) with 1 in *.
  lia.
Qed.

End CalendarFacts.

(** What the report holds, in terms of the wall-clock test of the code. *)
Lemma usage_report_by_wall_clock
    (fromisoformat : string -> option PyDatetime.datetime)
    (jobs : list Usage.job_summary) (now : PyDatetime.datetime) :
  let report := Usage.get_usage fromisoformat (Usage.JobList jobs) now in
  let kept := List.filter (Usage.counted fromisoformat now) jobs in
  Usage.usage_error report = None /\
  Usage.jobs_this_month report = Some (Z.of_nat (length kept)) /\
  Usage.hours_used_this_month report
  = Some (Usage.round2 (Usage.sum_job_durations kept / 3600)).
Proof.
  cbv zeta. unfold Usage.get_usage.
  rewrite UsageFacts.usage_loop. cbn [fst snd].
  repeat split.
Qed.

(** C9, as the code has it.  When every creation time that is read is a
    valid one given in UTC, the usage report counts in [jobs_this_month],
    and sums into the hours-used figure (the sum of their durations over
    3600, rounded to hundredths), exactly those jobs whose creation time is
    on or after the first instant of the current UTC month; a job created
    earlier, or whose creation time is missing or does not parse, adds
    nothing. *)
Theorem usage_counts_jobs_of_utc_month
    (fromisoformat : string -> option PyDatetime.datetime)
    (jobs : list Usage.job_summary) (now : PyDatetime.datetime) :
  Zpos (PyDatetime.month now) <= 12 ->
  PyDatetime.utcoffset now = None ->
  Usage.utc_timestamps fromisoformat jobs ->
  let report := Usage.get_usage fromisoformat (Usage.JobList jobs) now in
  let kept := List.filter (Usage.created_in_month fromisoformat now) jobs in
  Usage.usage_error report = None /\
  Usage.jobs_this_month report = Some (Z.of_nat (length kept)) /\
  Usage.hours_used_this_month report
  = Some (Usage.round2 (Usage.sum_job_durations kept / 3600)) /\
  (forall job, Usage.created_at job = Usage.CreatedMissing ->
               Usage.created_in_month fromisoformat now job = false) /\
  (forall job s, Usage.created_at job = Usage.CreatedText s ->
                 fromisoformat (Usage.replace_Z s) = None ->
                 Usage.created_in_month fromisoformat now job = false) /\
  (forall job d, Usage.job_date fromisoformat job = Some d ->
                 PyDatetime.utc_instant d
                 < PyDatetime.utc_instant (PyDatetime.first_of_month now) ->
                 Usage.created_in_month fromisoformat now job = false).
Proof.
  intros Hmonth Hnaive Hutc report kept. subst report kept.
  assert (E : List.filter (Usage.created_in_month fromisoformat now) jobs
              = List.filter (Usage.counted fromisoformat now) jobs).
  { apply List.filter_ext_in. intros job Hin.
    unfold Usage.created_in_month, Usage.counted.
    destruct (Usage.job_date fromisoformat job) as [d|] eqn:Hd; [| reflexivity].
    destruct (Hutc job d Hin Hd) as [Hvalid Hoff].
    pose proof (CalendarFacts.month_reached_instant now d Hvalid Hmonth Hnaive Hoff)
      as Hiff.
    destruct (Usage.month_reached now d).
    - apply Z.leb_le, Hiff. reflexivity.
    - apply Z.leb_gt. apply Z.nle_gt. intros Hle. apply Hiff in Hle. discriminate Hle. }
  rewrite E.
  destruct (usage_report_by_wall_clock fromisoformat jobs now) as (He & Hc & Hh).
  split; [exact He |]. split; [exact Hc |]. split; [exact Hh |].
  split; [| split].
  - intros job Hc'. unfold Usage.created_in_month, Usage.job_date. now rewrite Hc'.
  - intros job s Hc' Hp. unfold Usage.created_in_month, Usage.job_date. rewrite Hc'.
    destruct s; [reflexivity | now rewrite Hp].
  - intros job d Hd Hlt. unfold Usage.created_in_month. rewrite Hd.
    apply Z.leb_gt, Hlt.
Qed.

Lemma usage_counts_jobs_of_utc_month_witness :
  let now := {| PyDatetime.year := 2024; PyDatetime.month := 3; PyDatetime.day := 15;
                PyDatetime.hour := 12; PyDatetime.minute := 0; PyDatetime.second := 0;
                PyDatetime.microsecond := 0; PyDatetime.utcoffset := None |} in
  let job created seconds :=
    {| Usage.created_at := Usage.CreatedText created;
       Usage.duration := Some seconds |} in
  let jobs := [job "2024-02-29T23:59:59Z" 600%Q;
               job "2024-03-01T00:00:00Z" 1800%Q;
               job "not a date" 900%Q;
               {| Usage.created_at := Usage.CreatedMissing; Usage.duration := Some 60%Q |};
               job "2024-03-10T08:30:00.250Z" 5400%Q] in
  let report := Usage.get_usage PyDatetime.fromisoformat_basic (Usage.JobList jobs) now in
  (Zpos (PyDatetime.month now) <= 12 /\
   PyDatetime.utcoffset now = None /\
   Usage.utc_timestamps PyDatetime.fromisoformat_basic jobs) /\
  Usage.jobs_this_month report = Some 2 /\
  Usage.hours_used_this_month report = Some (200 # 100).
Proof.
  intros now job jobs report.
  assert (Hutc : Usage.utc_timestamps PyDatetime.fromisoformat_basic jobs).
  { intros j d Hin Hd.
    repeat (destruct Hin as [<- | Hin]; [
      first [ discriminate Hd
            | injection Hd as <-;
              split; [| right; reflexivity];
              unfold PyDatetime.valid;
              repeat split;
              first [apply Z.leb_le; reflexivity | apply N.ltb_lt; reflexivity] ] |]).
    destruct Hin. }
  assert (Hmonth : Zpos (PyDatetime.month now) <= 12) by (simpl; lia).
  split; [split; [exact Hmonth | split; [reflexivity | exact Hutc]] |].
  destruct (usage_counts_jobs_of_utc_month PyDatetime.fromisoformat_basic jobs now
              Hmonth eq_refl Hutc)
    as (_ & Hcount & Hhours & _).
  split; [exact Hcount | exact Hhours].
Defined.

(** C9 fails as stated for a creation time with an offset.  On 15 March
    2024 (UTC) a job created at 2024-03-01T00:30:00+05:00, that is at 19:30
    UTC on 29 February and so before the first instant of March, is
    counted and its hour is added. *)
Lemma usage_counts_job_created_before_month_start :
  let now := {| PyDatetime.year := 2024; PyDatetime.month := 3; PyDatetime.day := 15;
                PyDatetime.hour := 12; PyDatetime.minute := 0; PyDatetime.second := 0;
                PyDatetime.microsecond := 0; PyDatetime.utcoffset := None |} in
  let created := "2024-03-01T00:30:00+05:00" in
  let jobs := [{| Usage.created_at := Usage.CreatedText created;
                  Usage.duration := Some 3600%Q |}] in
  let report := Usage.get_usage PyDatetime.fromisoformat_basic (Usage.JobList jobs) now in
  (exists d, PyDatetime.fromisoformat_basic (Usage.replace_Z created) = Some d /\
             PyDatetime.valid d /\
             PyDatetime.utc_instant d
             < PyDatetime.utc_instant (PyDatetime.first_of_month now)) /\
  Usage.jobs_this_month report = Some 1 /\
  Usage.hours_used_this_month report = Some (100 # 100).
Proof.
  cbv zeta. split; [| split; vm_compute; reflexivity].
  eexists. split; [vm_compute; reflexivity |].
  split; [| vm_compute; reflexivity].
  unfold PyDatetime.valid.
  repeat split; first [apply Z.leb_le; reflexivity | apply N.ltb_lt; reflexivity].
Qed.

(** * Further properties of the code *)

(** ** transcriber.py: [transcribe] *)

(** X1. Whatever the file system and the provider do, the outcome of
    [transcribe] echoes the path, accuracy and diarization flag it was
    given, and it is either a Success with a job id and no error message, or
    a Failure with an error message and no job id, an empty transcript and
    no words.  Its duration is 0 when the file is missing (no duration is
    kept then) and otherwise the duration passed in, 0 standing in for
    none. *)
Theorem transcribe_outcome_shape
    (w : Transcriber.World) (call : nat) (file_path accuracy language : string)
    (duration : option Q) (diarize : bool) :
  let r := Transcriber.transcribe w call file_path accuracy language duration diarize in
  Transcriber.file_path r = file_path /\
  Transcriber.accuracy r = accuracy /\
  Transcriber.diarization r = diarize /\
  (Transcriber.status r = Transcriber.StatusSuccess /\
   Transcriber.error_message r = None /\
   (exists job, Transcriber.job_id r = Some job) /\
   Transcriber.path_exists w file_path = true
   \/
   Transcriber.status r = Transcriber.StatusError /\
   (exists message, Transcriber.error_message r = Some message) /\
   Transcriber.job_id r = None /\
   Transcriber.transcript r = "" /\
   Transcriber.words r = None) /\
  Transcriber.duration_seconds r
  = (if Transcriber.path_exists w file_path then PyStr.or_zero duration else 0%Q) /\
  (Transcriber.path_exists w file_path = false ->
   Transcriber.error_message r = Some ("File not found: " +:+ file_path)).
Proof.
  cbv zeta. unfold Transcriber.transcribe.
  destruct (Transcriber.path_exists w file_path); cbn [negb].
  - destruct (Transcriber.remote_call w call file_path _) as [job res|e|message];
      cbn; repeat split; try discriminate.
    + left. repeat split. now exists job.
    + right. repeat split. now eexists.
    + right. repeat split. now eexists.
  - cbn. repeat split. right. repeat split. now eexists.
Qed.

(** ** transcriber.py: the batch, its gate and its progress reports *)

Module BatchLogFacts.
Import PyStr Transcriber BatchLog.
Local Open Scope nat_scope.

Lemma done_paths_running (tasks : list phase) : forall files i,
  tasks !! i = Some Waiting ->
  done_paths (<[i := Running]> tasks) files = done_paths tasks files.
Proof.
  induction tasks as [|ph tasks IH]; intros files i Hi; [discriminate |].
  destruct files as [|item files]; [now destruct i |].
  destruct i as [|i].
  - cbn in *. now injection Hi as ->.
  - specialize (IH files i Hi). cbn in *.
    destruct ph; [exact IH | exact IH | now f_equal].
Qed.

Lemma done_paths_done (tasks : list phase) : forall files i item r,
  tasks !! i = Some Running -> files !! i = Some item ->
  done_paths (<[i := Done r]> tasks) files ≡ₚ fst item :: done_paths tasks files.
Proof.
  induction tasks as [|ph tasks IH]; intros files i item r Hi Hf; [discriminate |].
  destruct files as [|item' files]; [discriminate |].
  destruct i as [|i].
  - cbn in *. injection Hi as ->. now injection Hf as ->.
  - specialize (IH files i item r Hi Hf). cbn in *.
    destruct ph; [exact IH | exact IH |].
    rewrite IH. apply Permutation_swap.
Qed.

Lemma done_paths_all (tasks : list phase) : forall files rs,
  mapM finished tasks = Some rs -> length tasks = length files ->
  done_paths tasks files = map fst files.
Proof.
  induction tasks as [|ph tasks IH]; intros files rs Hg Hlen;
    destruct files as [|item files]; try discriminate Hlen; [reflexivity |].
  cbn in Hg. destruct ph as [| |r]; try discriminate Hg.
  cbn in Hg. destruct (mapM finished tasks) as [rs'|] eqn:E; [| discriminate Hg].
  cbn. f_equal. apply (IH files rs' eq_refl). now injection Hlen.
Qed.

Section Log.
Variable w : World.
Variable files : list (string * Q).
Variables accuracy language : string.
Variable diarize : bool.
Variable progress_callback : bool.

Lemma done_paths_waiting n : forall fs : list (string * Q),
  done_paths (replicate n Waiting) fs = [].
Proof. induction n as [|n IH]; intros [|item fs]; cbn; auto. Qed.

Lemma log_invariant_start max_concurrent st0 :
  transcribe_batch_start files max_concurrent = Some st0 ->
  log_invariant files progress_callback st0.
Proof.
  unfold transcribe_batch_start. destruct (_ <? _)%Z; [discriminate |].
  intros [= <-]. split; cbn [progress completed tasks]; rewrite ?done_paths_waiting.
  - reflexivity.
  - now destruct progress_callback.
  - reflexivity.
  - constructor.
  - reflexivity.
Qed.

Lemma log_invariant_step st st' :
  log_invariant files progress_callback st ->
  batch_step w files accuracy language diarize progress_callback st st' ->
  log_invariant files progress_callback st'.
Proof.
  intros [Hn Hc Hs Ht Hp] Hstep.
  destruct Hstep as [st i n Hi Hperm | st i item Hi Hitem]; split;
    cbn [progress completed tasks].
  - now rewrite done_paths_running.
  - exact Hc.
  - exact Hs.
  - exact Ht.
  - intros Hcb. rewrite done_paths_running by exact Hi. now apply Hp.
  - rewrite (Permutation_length (done_paths_done _ _ _ _ _ Hi Hitem)).
    cbn [length]. now rewrite Hn.
  - destruct progress_callback; [| exact Hc].
    rewrite length_app, Hc. cbn. lia.
  - destruct progress_callback; [| exact Hs].
    rewrite map_app, Hs, length_app, Hc. cbn [length map fst].
    rewrite Nat.add_1_r, seq_S. reflexivity.
  - destruct progress_callback; [| exact Ht].
    apply Forall_app. split; [exact Ht |]. now constructor.
  - intros Hcb. rewrite Hcb.
    rewrite map_app, done_paths_done by eassumption. cbn.
    rewrite (Hp Hcb). symmetry. apply Permutation_cons_append.
Qed.

Lemma log_invariant_run st st' :
  log_invariant files progress_callback st ->
  batch_run w files accuracy language diarize progress_callback st st' ->
  log_invariant files progress_callback st'.
Proof.
  intros Hinv Hrun. induction Hrun as [|st1 st2 st3 _ IH Hstep]; [exact Hinv |].
  eapply log_invariant_step; [apply IH, Hinv | exact Hstep].
Qed.
End Log.

End BatchLogFacts.

(** X2. In every state that a batch can reach, the tasks holding a permit
    and the permits left add up to [max_concurrent]; so never more than
    [max_concurrent] calls of [transcribe] are in flight. *)
Theorem batch_never_exceeds_its_permits
    (w : Transcriber.World) (files : list (string * Q))
    (accuracy language : string) (diarize progress_callback : bool)
    (max_concurrent : Z) (st0 st : Transcriber.batch_state) :
  Transcriber.transcribe_batch_start files max_concurrent = Some st0 ->
  Transcriber.batch_run w files accuracy language diarize progress_callback st0 st ->
  (sum_list_with Transcriber.in_flight (Transcriber.tasks st)
   <= Z.to_nat max_concurrent)%nat /\
  (Transcriber.permits st
   + sum_list_with Transcriber.in_flight (Transcriber.tasks st)
   = Z.to_nat max_concurrent)%nat.
Proof.
  intros Hstart Hrun.
  destruct (BatchFacts.invariant_run w files accuracy language diarize progress_callback
              max_concurrent st0 st
              (BatchFacts.invariant_start w files accuracy language diarize
                 max_concurrent st0 Hstart) Hrun) as [_ _ Hp].
  split; [lia | exact Hp].
Qed.

Lemma batch_never_exceeds_its_permits_witness :
  let w := {| Transcriber.path_exists := fun _ => true;
              Transcriber.remote_call :=
                fun _ _ _ => Transcriber.RaisesOther "down" |} in
  let files := [("/media/a.mp3", 10%Q); ("/media/b.mp3", 20%Q)] in
  exists st0 st,
    Transcriber.transcribe_batch_start files 1 = Some st0 /\
    Transcriber.batch_run w files "standard" "en" false false st0 st /\
    Transcriber.tasks st = [Transcriber.Waiting; Transcriber.Running] /\
    (sum_list_with Transcriber.in_flight (Transcriber.tasks st) <= 1)%nat.
Proof.
  intros w files.
  set (st0 := {| Transcriber.tasks := [Transcriber.Waiting; Transcriber.Waiting];
                 Transcriber.permits := 1;
                 Transcriber.completed := 0;
                 Transcriber.progress := [] |}).
  set (st1 := {| Transcriber.tasks := [Transcriber.Waiting; Transcriber.Running];
                 Transcriber.permits := 0;
                 Transcriber.completed := 0;
                 Transcriber.progress := [] |}).
  assert (Hstart : Transcriber.transcribe_batch_start files 1 = Some st0) by reflexivity.
  assert (Hrun : Transcriber.batch_run w files "standard" "en" false false st0 st1).
  { eapply Transcriber.run_step; [apply Transcriber.run_refl |].
    exact (Transcriber.step_acquire w files "standard" "en" false false st0 1 0
             eq_refl eq_refl). }
  exists st0, st1.
  split; [exact Hstart |]. split; [exact Hrun |]. split; [reflexivity |].
  exact (proj1 (batch_never_exceeds_its_permits w files "standard" "en" false false 1
                  st0 st1 Hstart Hrun)).
Defined.

(** X3. A batch over a non-empty list needs a permit: with
    [max_concurrent] 0 no task is ever let in, and with a negative one the
    semaphore cannot be built, so the batch returns no result list. *)
Theorem batch_needs_a_permit
    (w : Transcriber.World) (files : list (string * Q))
    (accuracy language : string) (diarize progress_callback : bool)
    (max_concurrent : Z) :
  files <> [] ->
  max_concurrent <= 0 ->
  forall rs,
    ~ Transcriber.transcribe_batch_returns w files accuracy language diarize progress_callback
        max_concurrent rs.
Proof.
  intros Hne Hmax rs.
  destruct (Z.eq_dec max_concurrent 0) as [-> | Hneg].
  - now apply batch_without_permits_is_stuck.
  - intros (st0 & st & Hstart & _). unfold Transcriber.transcribe_batch_start in Hstart.
    destruct (Z.ltb_spec max_concurrent 0); [discriminate Hstart | lia].
Qed.

Lemma batch_needs_a_permit_witness :
  let w := {| Transcriber.path_exists := fun _ => true;
              Transcriber.remote_call :=
                fun _ _ _ => Transcriber.RaisesOther "down" |} in
  let files := [("/media/a.mp3", 10%Q)] in
  (files <> [] /\ 0 <= 0) /\
  forall rs,
    ~ Transcriber.transcribe_batch_returns w files "standard" "en" false false 0 rs.
Proof.
  intros w files.
  split; [split; [discriminate | lia] |].
  exact (batch_needs_a_permit w files "standard" "en" false false 0
           ltac:(discriminate) ltac:(lia)).
Defined.

(** X4. While a batch runs, the shared counter is the number of finished
    tasks.  Without a progress callback (the default) no call is made.
    With one, there is a call for every finished task; the calls carry the
    counts 1, 2, ... in the order they are made and the number of items as
    total, and they name each finished item once.  When the batch returns,
    the counter is the number of items and, with a callback, the paths of
    the calls are the input paths, each once, in the order of completion. *)
Theorem batch_reports_each_item_once
    (w : Transcriber.World) (files : list (string * Q))
    (accuracy language : string) (diarize progress_callback : bool)
    (max_concurrent : Z) (st0 st : Transcriber.batch_state) :
  Transcriber.transcribe_batch_start files max_concurrent = Some st0 ->
  Transcriber.batch_run w files accuracy language diarize progress_callback st0 st ->
  let calls := Transcriber.progress st in
  Transcriber.completed st
  = length (BatchLog.done_paths (Transcriber.tasks st) files) /\
  (progress_callback = false -> calls = []) /\
  (progress_callback = true ->
     length calls = Transcriber.completed st /\
     map (fun call => fst (fst call)) calls = seq 1 (Transcriber.completed st) /\
     Forall (fun call => snd (fst call) = length files) calls /\
     map snd calls ≡ₚ BatchLog.done_paths (Transcriber.tasks st) files) /\
  (forall rs, Transcriber.gather st = Some rs ->
     Transcriber.completed st = length files /\
     (progress_callback = true -> map snd calls ≡ₚ map fst files)).
Proof.
  intros Hstart Hrun calls. subst calls.
  destruct (BatchLogFacts.log_invariant_run w files accuracy language diarize
              progress_callback st0 st
              (BatchLogFacts.log_invariant_start files progress_callback
                 max_concurrent st0 Hstart) Hrun)
    as [Hn Hc Hs Ht Hp].
  destruct (BatchFacts.invariant_run w files accuracy language diarize progress_callback
              max_concurrent st0 st
              (BatchFacts.invariant_start w files accuracy language diarize
                 max_concurrent st0 Hstart) Hrun) as [Hlen _ _].
  split; [exact Hn |]. split; [| split].
  - intros Hcb. rewrite Hcb in Hc. now apply length_zero_iff_nil.
  - intros Hcb. rewrite Hcb in Hc. rewrite Hc in Hs.
    split; [exact Hc |]. split; [exact Hs |]. split; [exact Ht | now apply Hp].
  - intros rs Hg.
    pose proof (BatchLogFacts.done_paths_all _ _ _ Hg Hlen) as Hall.
    split.
    + rewrite Hn, Hall. apply length_map.
    + intros Hcb. rewrite (Hp Hcb). now rewrite Hall.
Qed.

(** Two items under two permits and a callback; the second item finishes
    first.  The callback is called with (1, 2, b) and then with (2, 2, a). *)
Lemma batch_reports_each_item_once_witness :
  let w := {| Transcriber.path_exists := fun _ => true;
              Transcriber.remote_call :=
                fun _ _ _ => Transcriber.RaisesOther "down" |} in
  let files := [("/media/a.mp3", 10%Q); ("/media/b.mp3", 20%Q)] in
  exists st0 st,
    Transcriber.transcribe_batch_start files 2 = Some st0 /\
    Transcriber.batch_run w files "standard" "en" false true st0 st /\
    Transcriber.progress st
    = [(1%nat, 2%nat, "/media/b.mp3"); (2%nat, 2%nat, "/media/a.mp3")] /\
    Transcriber.completed st = 2%nat /\
    map (fun call => fst (fst call)) (Transcriber.progress st) = [1%nat; 2%nat].
Proof.
  intros w files.
  set (ra := Transcriber.transcribe_item w "standard" "en" false 0 ("/media/a.mp3", 10%Q)).
  set (rb := Transcriber.transcribe_item w "standard" "en" false 1 ("/media/b.mp3", 20%Q)).
  set (st0 := {| Transcriber.tasks := [Transcriber.Waiting; Transcriber.Waiting];
                 Transcriber.permits := 2;
                 Transcriber.completed := 0;
                 Transcriber.progress := [] |}).
  set (st1 := {| Transcriber.tasks := [Transcriber.Running; Transcriber.Waiting];
                 Transcriber.permits := 1;
                 Transcriber.completed := 0;
                 Transcriber.progress := [] |}).
  set (st2 := {| Transcriber.tasks := [Transcriber.Running; Transcriber.Running];
                 Transcriber.permits := 0;
                 Transcriber.completed := 0;
                 Transcriber.progress := [] |}).
  set (st3 := {| Transcriber.tasks := [Transcriber.Running; Transcriber.Done rb];
                 Transcriber.permits := 1;
                 Transcriber.completed := 1;
                 Transcriber.progress := [(1%nat, 2%nat, "/media/b.mp3")] |}).
  set (st4 := {| Transcriber.tasks := [Transcriber.Done ra; Transcriber.Done rb];
                 Transcriber.permits := 2;
                 Transcriber.completed := 2;
                 Transcriber.progress :=
                   [(1%nat, 2%nat, "/media/b.mp3"); (2%nat, 2%nat, "/media/a.mp3")] |}).
  assert (Hstart : Transcriber.transcribe_batch_start files 2 = Some st0) by reflexivity.
  assert (Hrun : Transcriber.batch_run w files "standard" "en" false true st0 st4).
  { eapply Transcriber.run_step; [eapply Transcriber.run_step;
      [eapply Transcriber.run_step; [eapply Transcriber.run_step;
         [apply Transcriber.run_refl |] |] |] |].
    - exact (Transcriber.step_acquire w files "standard" "en" false true st0 0 1
               eq_refl eq_refl).
    - exact (Transcriber.step_acquire w files "standard" "en" false true st1 1 0
               eq_refl eq_refl).
    - exact (Transcriber.step_finish w files "standard" "en" false true st2 1
               ("/media/b.mp3", 20%Q) eq_refl eq_refl).
    - exact (Transcriber.step_finish w files "standard" "en" false true st3 0
               ("/media/a.mp3", 10%Q) eq_refl eq_refl). }
  exists st0, st4. split; [exact Hstart |]. split; [exact Hrun |].
  split; [reflexivity |].
  destruct (batch_reports_each_item_once w files "standard" "en" false true 2 st0 st4
              Hstart Hrun) as (_ & _ & Hcalls & Hend).
  split; [exact (proj1 (Hend [ra; rb] eq_refl)) |].
  exact (proj1 (proj2 (Hcalls eq_refl))).
Defined.

(** ** utils.py and server.py: transcript paths and the files behind them *)

Module PathFacts.
Import PyStr PyStrFacts Utils Transcriber Server CodecFacts.

#[local] Arguments String.append !_ _ : simpl nomatch.

Lemma append_cancel_r s : forall p1 p2, p1 +:+ s = p2 +:+ s -> p1 = p2.
Proof.
  assert (L : forall c p, s <> String c (p +:+ s)).
  { intros c p E. apply (f_equal String.length) in E.
    simpl in E. rewrite length_append in E. lia. }
  induction p1 as [|a p1 IH]; intros [|c p2] E; simpl in E.
  - reflexivity.
  - now apply L in E.
  - symmetry in E. now apply L in E.
  - injection E as -> E. f_equal. now apply IH.
Qed.

Lemma variants_differ p1 p2 : p1 +:+ ".transcript.txt" <> p2 +:+ ".transcript.json".
Proof.
  intros E.
  destruct (text_path_sniffed p1) as (_ & H1 & _).
  destruct (json_path_sniffed p2) as (_ & _ & H2 & _).
  rewrite E, H2 in H1. discriminate H1.
Qed.

Lemma get_transcript_path_inj p1 b1 p2 b2 :
  get_transcript_path p1 b1 = get_transcript_path p2 b2 -> p1 = p2 /\ b1 = b2.
Proof.
  unfold get_transcript_path. destruct b1, b2; intros E.
  - split; [now apply append_cancel_r in E | reflexivity].
  - symmetry in E. now apply variants_differ in E.
  - now apply variants_differ in E.
  - split; [now apply append_cancel_r in E | reflexivity].
Qed.

Lemma write_path now (fs : filesystem) r b :
  write_transcript_file now fs r b
  = (<[get_transcript_path (file_path r) b :=
         match b with
         | true =>
             JsonFile
               (JObj [("metadata",
                       JObj [("source", JStr (path_name (file_path r)));
                             ("transcribed_at", JStr (PyDatetime.isoformat now));
                             ("duration_seconds", JNum (duration_seconds r));
                             ("accuracy", JStr (accuracy r))]);
                      ("transcript", JStr (transcript r));
                      ("words", JArr (map word_json (words_or_empty (words r))))])
         | false =>
             TextFile
               (text_header (PyDatetime.isoformat now) (path_name (file_path r))
                  (if truthy (duration_seconds r)
                   then format_duration (duration_seconds r) else "unknown")
                  (accuracy r)
                +:+ transcript r)
         end]> fs,
     get_transcript_path (file_path r) b).
Proof. destruct b; reflexivity. Qed.

Lemma exists_lookup (fs : filesystem) p : exists_ fs p = true <-> is_Some (fs !! p).
Proof.
  unfold exists_. destruct (fs !! p); split; intros H;
    first [reflexivity | discriminate | now eexists | now destruct H].
Qed.

End PathFacts.

(** X5. No two pairs of a media path and a format share a transcript
    path: the path of a transcript determines both the media file and
    whether it is the text or the JSON variant. *)
Theorem transcript_paths_do_not_collide (p1 p2 : string) (b1 b2 : bool) :
  Utils.get_transcript_path p1 b1 = Utils.get_transcript_path p2 b2
  <-> p1 = p2 /\ b1 = b2.
Proof.
  split; [apply PathFacts.get_transcript_path_inj | now intros [-> ->]].
Qed.

(** X6. Writing a transcript puts a file at the transcript path and leaves
    every other path of the file system as it was, the other variant of the
    same media file included.  Writing again for the same media file and
    format replaces the file, and writes of the two variants can be done in
    either order. *)
Theorem write_transcript_file_frame
    (now now' : PyDatetime.datetime) (fs : Server.filesystem)
    (r r' : Transcriber.TranscriptionResult) (b : bool) :
  let written := Server.write_transcript_file now fs r b in
  snd written = Utils.get_transcript_path (Transcriber.file_path r) b /\
  is_Some (fst written !! snd written) /\
  (forall q, q <> snd written -> fst written !! q = fs !! q) /\
  fst written !! Utils.get_transcript_path (Transcriber.file_path r) (negb b)
  = fs !! Utils.get_transcript_path (Transcriber.file_path r) (negb b) /\
  (Transcriber.file_path r' = Transcriber.file_path r ->
   fst (Server.write_transcript_file now' (fst written) r' b)
   = fst (Server.write_transcript_file now' fs r' b) /\
   fst (Server.write_transcript_file now' (fst written) r' (negb b))
   = fst (Server.write_transcript_file now
            (fst (Server.write_transcript_file now' fs r' (negb b))) r b)).
Proof.
  cbv zeta. rewrite !PathFacts.write_path. cbn [fst snd].
  split; [reflexivity |]. split; [rewrite lookup_insert_eq; now eexists |].
  split; [intros q Hq; now rewrite lookup_insert_ne |].
  split.
  - rewrite lookup_insert_ne; [reflexivity |].
    intros E. apply PathFacts.get_transcript_path_inj in E as [_ E]. now destruct b.
  - intros Hp. rewrite Hp. split.
    + apply insert_insert_eq.
    + apply insert_insert_ne.
      intros E. apply PathFacts.get_transcript_path_inj in E as [_ E]. now destruct b.
Qed.

Lemma write_transcript_file_frame_witness :
  let r := {| Transcriber.file_path := "/media/talk.mp3";
              Transcriber.transcript := "first";
              Transcriber.words := None;
              Transcriber.duration_seconds := 125;
              Transcriber.accuracy := "standard";
              Transcriber.diarization := false;
              Transcriber.status := Transcriber.StatusSuccess;
              Transcriber.error_message := None;
              Transcriber.job_id := Some "job-1" |} in
  let r' := {| Transcriber.file_path := "/media/talk.mp3";
               Transcriber.transcript := "second";
               Transcriber.words := None;
               Transcriber.duration_seconds := 125;
               Transcriber.accuracy := "enhanced";
               Transcriber.diarization := false;
               Transcriber.status := Transcriber.StatusSuccess;
               Transcriber.error_message := None;
               Transcriber.job_id := Some "job-2" |} in
  let fs1 := fst (Server.write_transcript_file PyDatetime.may_day ∅ r false) in
  Transcriber.file_path r' = Transcriber.file_path r /\
  fst (Server.write_transcript_file PyDatetime.may_day fs1 r' false)
  = fst (Server.write_transcript_file PyDatetime.may_day ∅ r' false).
Proof.
  intros r r' fs1. split; [reflexivity |].
  destruct (write_transcript_file_frame PyDatetime.may_day PyDatetime.may_day ∅ r r' false)
    as (_ & _ & _ & _ & H).
  exact (proj1 (H eq_refl)).
Defined.

(** ** server.py: [handle_get_transcript] *)

Module ReadFacts.
Import PyStr PyStrFacts Utils Transcriber Server CodecFacts PathFacts.

#[local] Arguments String.append !_ _ : simpl nomatch.

Lemma header_loop_nonempty pre : forall st,
  Forall (fun line => line <> "") pre ->
  fold_left header_step pre (false, st) = (false, st).
Proof.
  induction pre as [|line pre IH]; intros st H; [reflexivity |].
  inversion H as [|? ? Hline Hpre]; subst. cbn [fold_left header_step].
  destruct (String.eqb_spec line ""); [contradiction |]. now apply IH.
Qed.

Lemma header_loop_cut pre post :
  Forall (fun line => line <> "") pre ->
  fold_left header_step (pre ++ "" :: post) (false, []) = (true, post).
Proof.
  intros H. rewrite fold_left_app, (header_loop_nonempty pre [] H).
  cbn [fold_left header_step]. cbn [String.eqb]. apply header_loop_past.
Qed.

Section Reading.
Variable json_loads : string -> option json.
Variable json_dumps : json -> string.

Abbreviation get := (handle_get_transcript json_loads json_dumps).

(** Reading through a media path is reading the transcript found for it. *)
Lemma get_through_media_path (fs : filesystem) m :
  endswith ".transcript.txt" m = false ->
  endswith ".transcript.json" m = false ->
  get fs m
  = match fs !! (m +:+ ".transcript.txt"), fs !! (m +:+ ".transcript.json") with
    | Some _, _ => get fs (m +:+ ".transcript.txt")
    | None, Some _ => get fs (m +:+ ".transcript.json")
    | None, None => GetError (NoTranscriptFound m)
    end.
Proof.
  intros Ht Hj.
  destruct (fs !! (m +:+ ".transcript.txt")) as [c|] eqn:Et.
  - rewrite (get_text_file _ _ _ _ _ Et).
    unfold handle_get_transcript, find_transcript, exists_.
    rewrite Ht, Hj, Et. cbn [orb]. rewrite Et.
    destruct (text_path_sniffed m) as (_ & -> & _). reflexivity.
  - destruct (fs !! (m +:+ ".transcript.json")) as [c|] eqn:Ej.
    + rewrite (get_json_file _ _ _ _ _ Ej).
      unfold handle_get_transcript, find_transcript, exists_.
      rewrite Ht, Hj, Et, Ej. cbn [orb]. rewrite Ej.
      destruct (json_path_sniffed m) as (_ & _ & -> & _). reflexivity.
    + unfold handle_get_transcript, find_transcript, exists_.
      now rewrite Ht, Hj, Et, Ej.
Qed.

(** Reading through a transcript path looks at that one file only. *)
Lemma get_text_local (fs fs' : filesystem) p :
  fs' !! (p +:+ ".transcript.txt") = fs !! (p +:+ ".transcript.txt") ->
  get fs' (p +:+ ".transcript.txt") = get fs (p +:+ ".transcript.txt").
Proof.
  intros E. unfold handle_get_transcript.
  destruct (text_path_sniffed p) as (-> & _ & _). cbn [orb]. now rewrite E.
Qed.

Lemma get_text_not_timestamped (fs : filesystem) p reply :
  get fs (p +:+ ".transcript.txt") = GetSuccess reply ->
  reply_has_timestamps reply = false /\ reply_source_media reply = p.
Proof.
  unfold handle_get_transcript.
  destruct (text_path_sniffed p) as (Ht & Hj & Hd). rewrite Ht. cbn [orb].
  destruct (fs !! _) as [c|]; [| discriminate].
  rewrite Hj, Hd.
  destruct (read_text _) as [[t d]|]; [| discriminate].
  intros [= <-]. split; reflexivity.
Qed.
End Reading.

End ReadFacts.

(** X7. A path that is not itself a transcript path is read through the
    transcripts beside it: the text variant when it exists, else the JSON
    variant, and with the same answer as reading that transcript path
    directly; when neither exists the answer is the "no transcript found"
    error. *)
Theorem get_transcript_through_media_path
    (json_loads : string -> option Server.json)
    (json_dumps : Server.json -> string)
    (fs : Server.filesystem) (media_path : string) :
  PyStr.endswith ".transcript.txt" media_path = false ->
  PyStr.endswith ".transcript.json" media_path = false ->
  Server.handle_get_transcript json_loads json_dumps fs media_path
  = match fs !! Utils.get_transcript_path media_path false,
          fs !! Utils.get_transcript_path media_path true with
    | Some _, _ =>
        Server.handle_get_transcript json_loads json_dumps fs
          (Utils.get_transcript_path media_path false)
    | None, Some _ =>
        Server.handle_get_transcript json_loads json_dumps fs
          (Utils.get_transcript_path media_path true)
    | None, None => Server.GetError (Server.NoTranscriptFound media_path)
    end.
Proof.
  intros Ht Hj. now apply ReadFacts.get_through_media_path.
Qed.

Lemma get_transcript_through_media_path_witness :
  let r := {| Transcriber.file_path := "/media/talk.mp3";
              Transcriber.transcript := "hello world";
              Transcriber.words := None;
              Transcriber.duration_seconds := 125;
              Transcriber.accuracy := "standard";
              Transcriber.diarization := false;
              Transcriber.status := Transcriber.StatusSuccess;
              Transcriber.error_message := None;
              Transcriber.job_id := Some "job-1" |} in
  let fs := fst (Server.write_transcript_file PyDatetime.may_day ∅ r true) in
  (PyStr.endswith ".transcript.txt" "/media/talk.mp3" = false /\
   PyStr.endswith ".transcript.json" "/media/talk.mp3" = false) /\
  Server.handle_get_transcript (fun _ => None) (fun _ => "") fs "/media/talk.mp3"
  = Server.handle_get_transcript (fun _ => None) (fun _ => "") fs
      "/media/talk.mp3.transcript.json".
Proof.
  intros r fs. split; [split; reflexivity |].
  exact (get_transcript_through_media_path (fun _ => None) (fun _ => "") fs
           "/media/talk.mp3" eq_refl eq_refl).
Defined.

(** X8. A text transcript left from an earlier run hides a JSON transcript
    written later: after writing an outcome with timestamps, reading
    through the media path still answers with the old text transcript (so
    without timestamps) whenever one exists; only when there is none does
    it answer with the JSON document just written. *)
Theorem stale_text_transcript_hides_json
    (json_loads : string -> option Server.json)
    (json_dumps : Server.json -> string)
    (now : PyDatetime.datetime) (fs : Server.filesystem)
    (result : Transcriber.TranscriptionResult) :
  let media_path := Transcriber.file_path result in
  let fs' := fst (Server.write_transcript_file now fs result true) in
  PyStr.endswith ".transcript.txt" media_path = false ->
  PyStr.endswith ".transcript.json" media_path = false ->
  (is_Some (fs !! Utils.get_transcript_path media_path false) ->
   Server.handle_get_transcript json_loads json_dumps fs' media_path
   = Server.handle_get_transcript json_loads json_dumps fs
       (Utils.get_transcript_path media_path false) /\
   forall reply,
     Server.handle_get_transcript json_loads json_dumps fs' media_path
     = Server.GetSuccess reply ->
     Server.reply_has_timestamps reply = false) /\
  (fs !! Utils.get_transcript_path media_path false = None ->
   exists reply,
     Server.handle_get_transcript json_loads json_dumps fs' media_path
     = Server.GetSuccess reply /\
     Server.reply_has_timestamps reply = true /\
     Server.reply_word_count reply
     = Some (length (Server.words_or_empty (Transcriber.words result)))).
Proof.
  intros media_path fs' Ht Hj. subst media_path fs'.
  rewrite (ReadFacts.get_through_media_path _ _ _ _ Ht Hj).
  rewrite CodecFacts.write_json_file. cbn [fst].
  unfold Utils.get_transcript_path.
  match goal with
  | |- context [<[_ := ?d]> fs] => set (doc := d)
  end.
  assert (Hne : Transcriber.file_path result +:+ ".transcript.json"
                <> Transcriber.file_path result +:+ ".transcript.txt")
    by (intros E; symmetry in E; now apply PathFacts.variants_differ in E).
  rewrite (lookup_insert_ne _ _ _ _ Hne), lookup_insert_eq.
  split.
  - intros [c Hc]. rewrite Hc.
    assert (E : Server.handle_get_transcript json_loads json_dumps
                  (<[Transcriber.file_path result +:+ ".transcript.json" := doc]> fs)
                  (Transcriber.file_path result +:+ ".transcript.txt")
                = Server.handle_get_transcript json_loads json_dumps fs
                    (Transcriber.file_path result +:+ ".transcript.txt"))
      by (apply ReadFacts.get_text_local; now apply lookup_insert_ne).
    split; [exact E |].
    intros reply Hr. rewrite E in Hr.
    now apply ReadFacts.get_text_not_timestamped in Hr.
  - intros Hnone. rewrite Hnone.
    rewrite (CodecFacts.get_json_file _ _ _ _ _ (lookup_insert_eq _ _ _)).
    subst doc.
    cbn [Server.load_json mbind option_bind Server.read_json].
    eexists. split; [reflexivity |]. cbn. now rewrite length_map.
Qed.

Lemma stale_text_transcript_hides_json_witness :
  let r := {| Transcriber.file_path := "/media/talk.mp3";
              Transcriber.transcript := "old words";
              Transcriber.words := None;
              Transcriber.duration_seconds := 125;
              Transcriber.accuracy := "standard";
              Transcriber.diarization := false;
              Transcriber.status := Transcriber.StatusSuccess;
              Transcriber.error_message := None;
              Transcriber.job_id := Some "job-1" |} in
  let r' := {| Transcriber.file_path := "/media/talk.mp3";
               Transcriber.transcript := "new words";
               Transcriber.words := None;
               Transcriber.duration_seconds := 125;
               Transcriber.accuracy := "enhanced";
               Transcriber.diarization := false;
               Transcriber.status := Transcriber.StatusSuccess;
               Transcriber.error_message := None;
               Transcriber.job_id := Some "job-2" |} in
  let fs := fst (Server.write_transcript_file PyDatetime.may_day ∅ r false) in
  let fs' := fst (Server.write_transcript_file PyDatetime.may_day fs r' true) in
  (PyStr.endswith ".transcript.txt" "/media/talk.mp3" = false /\
   PyStr.endswith ".transcript.json" "/media/talk.mp3" = false /\
   is_Some (fs !! Utils.get_transcript_path "/media/talk.mp3" false)) /\
  Server.handle_get_transcript (fun _ => None) (fun _ => "") fs' "/media/talk.mp3"
  = Server.handle_get_transcript (fun _ => None) (fun _ => "") fs
      "/media/talk.mp3.transcript.txt".
Proof.
  intros r r' fs fs'.
  assert (Hold : is_Some (fs !! Utils.get_transcript_path "/media/talk.mp3" false)).
  { subst fs. rewrite CodecFacts.write_text_file. cbn [fst].
    rewrite lookup_insert_eq. now eexists. }
  split; [split; [reflexivity | split; [reflexivity | exact Hold]] |].
  destruct (stale_text_transcript_hides_json (fun _ => None) (fun _ => "")
              PyDatetime.may_day fs r' eq_refl eq_refl) as [H _].
  exact (proj1 (H Hold)).
Defined.

(** X9. The two "not found" answers of [handle_get_transcript].  "No
    transcript found" is given exactly for a path that is not a transcript
    path and has neither transcript beside it; "transcript file not found"
    exactly for a transcript path with no file behind it, so never for a
    media path. *)
Theorem get_transcript_not_found_answers
    (json_loads : string -> option Server.json)
    (json_dumps : Server.json -> string)
    (fs : Server.filesystem) (path : string) :
  let answer := Server.handle_get_transcript json_loads json_dumps fs path in
  let is_transcript_path :=
    PyStr.endswith ".transcript.txt" path || PyStr.endswith ".transcript.json" path in
  (forall q, answer = Server.GetError (Server.NoTranscriptFound q)
             <-> q = path /\ is_transcript_path = false /\
                 fs !! (path +:+ ".transcript.txt") = None /\
                 fs !! (path +:+ ".transcript.json") = None) /\
  (forall q, answer = Server.GetError (Server.TranscriptFileNotFound q)
             <-> q = path /\ is_transcript_path = true /\ fs !! path = None).
Proof.
  cbv zeta.
  assert (Done : forall (answer : Server.get_response) (P Q : string -> Prop),
            (forall e, answer = Server.GetError e -> e = Server.ReadFailed) ->
            (forall q, ~ P q) -> (forall q, ~ Q q) ->
            (forall q, answer = Server.GetError (Server.NoTranscriptFound q) <-> P q) /\
            (forall q, answer = Server.GetError (Server.TranscriptFileNotFound q) <-> Q q)).
  { intros answer P Q Ha HP HQ.
    split; intros q; (split; [intros E; apply Ha in E; discriminate E |]);
      intros H; [now apply HP in H | now apply HQ in H]. }
  destruct (PyStr.endswith ".transcript.txt" path
            || PyStr.endswith ".transcript.json" path) eqn:Es.
  - unfold Server.handle_get_transcript. rewrite Es.
    destruct (PyStr.endswith ".transcript.txt" path);
      (destruct (fs !! path) as [c|] eqn:Ec;
       [ apply Done;
         [ intros e;
           repeat match goal with
                  | |- context [match ?x with _ => _ end] => destruct x
                  end; congruence
         | intros q (_ & H & _); discriminate H
         | intros q (_ & _ & H); discriminate H ]
       | split; intros q; split;
         solve [ intros H; discriminate H
               | intros [= <-]; repeat split
               | intros (-> & _); reflexivity
               | intros (_ & H & _); discriminate H ] ]).
  - apply orb_false_elim in Es as [Et Ej].
    rewrite (ReadFacts.get_through_media_path _ _ _ _ Et Ej).
    destruct (fs !! (path +:+ ".transcript.txt")) as [c|] eqn:Ect.
    + rewrite (CodecFacts.get_text_file _ _ _ _ _ Ect).
      apply Done.
      * intros e. destruct (Server.read_text _) as [[t d]|]; congruence.
      * intros q (_ & _ & H & _). discriminate H.
      * intros q (_ & H & _). discriminate H.
    + destruct (fs !! (path +:+ ".transcript.json")) as [c|] eqn:Ecj.
      * rewrite (CodecFacts.get_json_file _ _ _ _ _ Ecj).
        apply Done.
        -- intros e. destruct (_ ≫= _); congruence.
        -- intros q (_ & _ & _ & H). discriminate H.
        -- intros q (_ & H & _). discriminate H.
      * split; intros q; split;
          solve [ intros H; discriminate H
                | intros [= <-]; repeat split
                | intros (-> & _); reflexivity
                | intros (_ & H & _); discriminate H ].
Qed.

(** X10. The text reader takes as transcript what follows the first empty
    line, joined again and trimmed once, whatever stands before it; a text
    without any empty line therefore reads back with an empty transcript,
    header or not. *)
Theorem read_text_cuts_at_first_empty_line (content : string) :
  let lines := PyStr.split PyStr.LF content in
  (forall pre post,
      lines = pre ++ "" :: post ->
      Forall (fun line => line <> "") pre ->
      Server.read_text content
      = duration ← Server.scan_duration (take 5 lines);
        Some (PyStr.strip (PyStr.join (String PyStr.LF "") post), duration)) /\
  (Forall (fun line => line <> "") lines ->
   Server.read_text content
   = duration ← Server.scan_duration (take 5 lines); Some ("", duration)).
Proof.
  cbv zeta. unfold Server.read_text. split.
  - intros pre post E Hpre. rewrite E.
    now rewrite (ReadFacts.header_loop_cut pre post Hpre).
  - intros Hall. now rewrite (ReadFacts.header_loop_nonempty _ [] Hall).
Qed.

Lemma read_text_cuts_at_first_empty_line_witness :
  Forall (fun line => line <> "") (PyStr.split PyStr.LF "just some words") /\
  Server.read_text "just some words" = Some ("", None).
Proof.
  assert (H : Forall (fun line => line <> "") (PyStr.split PyStr.LF "just some words")).
  { repeat constructor. discriminate. }
  split; [exact H |].
  exact (proj2 (read_text_cuts_at_first_empty_line "just some words") H).
Defined.

(** X11. Reading a JSON transcript never looks for more than it needs: any
    document that is an object reads back, with an empty transcript, no
    duration and a word count of 0 standing in for missing members, unless
    its "metadata" is not an object or its "words" has no length; a
    document that is not an object is a read failure.  A successful answer
    always says [has_timestamps] and names the media path. *)
Theorem get_json_transcript_defaults
    (json_loads : string -> option Server.json)
    (json_dumps : Server.json -> string)
    (fs : Server.filesystem) (media_path : string) (doc : Server.json) :
  fs !! (media_path +:+ ".transcript.json") = Some (Server.JsonFile doc) ->
  let answer :=
    Server.handle_get_transcript json_loads json_dumps fs
      (media_path +:+ ".transcript.json") in
  ((exists reply, answer = Server.GetSuccess reply)
   <-> exists members,
         doc = Server.JObj members /\
         (forall v, Server.dict_get "metadata" members = Some v ->
                    exists meta, v = Server.JObj meta) /\
         (forall v, Server.dict_get "words" members = Some v ->
                    exists n, Server.py_len v = Some n)) /\
  (answer = Server.GetError Server.ReadFailed
   \/ exists reply, answer = Server.GetSuccess reply /\
                    Server.reply_has_timestamps reply = true /\
                    Server.reply_source_media reply = media_path) /\
  (forall members,
      doc = Server.JObj members ->
      Server.dict_get "transcript" members = None ->
      Server.dict_get "metadata" members = None ->
      Server.dict_get "words" members = None ->
      answer = Server.GetSuccess
                 {| Server.reply_transcript := Server.JStr "";
                    Server.reply_source_media := media_path;
                    Server.reply_duration_seconds := Server.JNull;
                    Server.reply_has_timestamps := true;
                    Server.reply_word_count := Some 0%nat |}).
Proof.
  intros Hfile answer. subst answer.
  rewrite (CodecFacts.get_json_file _ _ _ _ _ Hfile).
  cbn [Server.load_json mbind option_bind].
  split; [| split].
  - split.
    + intros [reply Hr]. destruct doc as [| | | | | |members]; try discriminate Hr.
      exists members. split; [reflexivity |]. cbn [Server.read_json] in Hr.
      split.
      * intros v Hv. rewrite Hv in Hr. cbn in Hr.
        destruct v; try discriminate Hr. now eexists.
      * intros v Hv. rewrite Hv in Hr. cbn [default from_option id] in Hr.
        destruct (match default (Server.JObj []) _ with
                  | Server.JObj meta => _ | _ => None end); [| discriminate Hr].
        cbn in Hr. destruct (Server.py_len v); [now eexists | discriminate Hr].
    + intros (members & -> & Hm & Hw). cbn [Server.read_json].
      destruct (Server.dict_get "metadata" members) as [v|] eqn:Em.
      * destruct (Hm v eq_refl) as [meta ->]. cbn.
        destruct (Server.dict_get "words" members) as [v'|] eqn:Ew.
        -- destruct (Hw v' eq_refl) as [n Hn]. cbn. rewrite Hn. cbn. now eexists.
        -- cbn. now eexists.
      * cbn.
        destruct (Server.dict_get "words" members) as [v'|] eqn:Ew.
        -- destruct (Hw v' eq_refl) as [n Hn]. cbn. rewrite Hn. cbn. now eexists.
        -- cbn. now eexists.
  - destruct (Server.read_json doc media_path) as [reply|] eqn:Hr; [| now left].
    right. exists reply. split; [reflexivity |].
    destruct doc as [| | | | | |members]; try discriminate Hr.
    cbn [Server.read_json] in Hr.
    destruct (match default (Server.JObj []) _ with
              | Server.JObj meta => _ | _ => None end); [| discriminate Hr].
    cbn in Hr. destruct (Server.py_len _); [| discriminate Hr].
    cbn in Hr. injection Hr as <-. split; reflexivity.
  - intros members -> Ht Hm Hw. cbn [Server.read_json]. now rewrite Ht, Hm, Hw.
Qed.

Lemma get_json_transcript_defaults_witness :
  let fs : Server.filesystem :=
    {[ "/media/talk.mp3.transcript.json" := Server.JsonFile (Server.JObj []) ]} in
  fs !! ("/media/talk.mp3" +:+ ".transcript.json") = Some (Server.JsonFile (Server.JObj [])) /\
  Server.handle_get_transcript (fun _ => None) (fun _ => "") fs
    ("/media/talk.mp3" +:+ ".transcript.json")
  = Server.GetSuccess
      {| Server.reply_transcript := Server.JStr "";
         Server.reply_source_media := "/media/talk.mp3";
         Server.reply_duration_seconds := Server.JNull;
         Server.reply_has_timestamps := true;
         Server.reply_word_count := Some 0%nat |}.
Proof.
  intros fs.
  assert (H : fs !! ("/media/talk.mp3" +:+ ".transcript.json")
              = Some (Server.JsonFile (Server.JObj []))) by (vm_compute; reflexivity).
  split; [exact H |].
  destruct (get_json_transcript_defaults (fun _ => None) (fun _ => "") fs
              "/media/talk.mp3" (Server.JObj []) H) as (_ & _ & Hd).
  exact (Hd [] eq_refl eq_refl eq_refl eq_refl).
Defined.

(** ** utils.py: [get_audio_duration] *)

(** X12. [get_audio_duration] answers with a duration exactly when ffprobe
    exits with code 0 and prints a JSON object whose "format" member is an
    object with a "duration" that [float] accepts; the duration need not be
    finite.  A non-zero exit code is the "ffprobe failed" error whatever was
    printed.  An exception other than the [RuntimeError]s of the docstring
    leaves the function in two cases only: [subprocess.run] raised
    something that no clause catches, or the output was decoded as JSON
    and has another shape. *)
Theorem get_audio_duration_outcomes
    (json_loads : string -> option Server.json)
    (float_of_text : string -> option Probe.pyfloat) (run : Probe.ffprobe_run) :
  let answer := Probe.get_audio_duration json_loads float_of_text run in
  (forall d,
      answer = inl d
      <-> exists stdout stderr data format v,
            run = Probe.RunExit 0 stdout stderr /\
            json_loads stdout = Some (Server.JObj data) /\
            Server.dict_get "format" data = Some (Server.JObj format) /\
            Server.dict_get "duration" format = Some v /\
            Probe.py_float float_of_text v = Some d) /\
  (forall code stdout stderr,
      run = Probe.RunExit code stdout stderr -> code <> 0 ->
      answer = inr (Probe.FfprobeFailed stderr)) /\
  (forall e,
      answer = inr e -> Probe.is_runtime_error e = false ->
      run = Probe.RunRaises /\ e = Probe.RunRaisedOther
      \/ exists stdout stderr v,
           run = Probe.RunExit 0 stdout stderr /\ json_loads stdout = Some v /\
           e = Probe.OutputOfOtherShape) /\
  (run = Probe.RunRaises -> answer = inr Probe.RunRaisedOther).
Proof.
  cbv zeta. unfold Probe.get_audio_duration.
  split; [| split; [| split]].
  - intros d. split.
    + destruct run as [| | |code out err]; try discriminate.
      destruct (Z.eqb_spec code 0) as [->|]; cbn [negb]; [| discriminate].
      destruct (json_loads out) as [[| | | | | |data]|] eqn:El; try discriminate.
      destruct (Server.dict_get "format" data) as [[| | | | | |format]|] eqn:Ef;
        cbn [default from_option id]; try discriminate.
      destruct (Server.dict_get "duration" format) as [v|] eqn:Ed;
        [| discriminate].
      destruct v; try discriminate;
        (destruct (Probe.py_float float_of_text _) as [d'|] eqn:Ep;
         [| discriminate]);
        intros [= <-]; repeat eexists; eassumption.
    + intros (out & err & data & format & v & -> & El & Ef & Ed & Ep).
      cbn. rewrite El, Ef. cbn. rewrite Ed.
      destruct v; try (now rewrite Ep); discriminate Ep.
  - intros code out err -> Hcode.
    destruct (Z.eqb_spec code 0); [contradiction | reflexivity].
  - intros e. destruct run as [| | |code out err].
    + intros [= <-]. discriminate.
    + intros [= <-]. discriminate.
    + intros [= <-] _. now left.
    + destruct (Z.eqb_spec code 0) as [->|]; cbn [negb];
        [| intros [= <-]; discriminate].
      destruct (json_loads out) as [v|] eqn:El; [| intros [= <-]; discriminate].
      intros He Hk. right. exists out, err, v.
      split; [reflexivity |]. split; [exact El |].
      destruct e; cbn in Hk; first [discriminate Hk | reflexivity | exfalso].
      destruct v as [| | | | | |data]; try discriminate He.
      destruct (default (Server.JObj []) (Server.dict_get "format" data))
        as [| | | | | |format]; try discriminate He.
      destruct (Server.dict_get "duration" format) as [[| | | | | |]|];
        try discriminate He;
        destruct (Probe.py_float float_of_text _); discriminate He.
  - now intros ->.
Qed.

(** ffprobe prints the duration as a text of digits, as it does. *)
Lemma get_audio_duration_outcomes_witness :
  let quoted (s : string) := String "034"%char (s +:+ String "034"%char "") in
  let stdout :=
    "{" +:+ quoted "format" +:+ ": {" +:+ quoted "duration" +:+ ": "
        +:+ quoted "12.500000" +:+ "}}" in
  let loads (s : string) :=
    if String.eqb s stdout
    then Some (Server.JObj [("format", Server.JObj [("duration", Server.JStr "12.500000")])])
    else None in
  let float (s : string) :=
    if String.eqb s "12.500000" then Some (Probe.Finite (25 # 2)) else None in
  Probe.get_audio_duration loads float (Probe.RunExit 0 stdout "")
  = inl (Probe.Finite (25 # 2)).
Proof.
  intros quoted stdout loads float.
  apply (proj1 (get_audio_duration_outcomes loads float (Probe.RunExit 0 stdout ""))).
  repeat eexists; reflexivity.
Defined.

(** ** server.py: [handle_transcribe_file] *)

Module FileHandlerFacts.
Import PyStr Utils Transcriber Server Probe Handlers.

Lemma transcribe_success_iff w call p accuracy language duration diarize :
  status (transcribe w call p accuracy language duration diarize) = StatusSuccess
  <-> path_exists w p = true /\
      exists job payload,
        remote_call w call p (job_config accuracy language diarize)
        = Completed job payload.
Proof.
  unfold transcribe. destruct (path_exists w p); cbn [negb].
  - destruct (remote_call w call p _) as [job payload|e|m]; cbn; split.
    + intros _. split; [reflexivity | now exists job, payload].
    + reflexivity.
    + discriminate.
    + intros [_ (job & payload & H)]. discriminate H.
    + discriminate.
    + intros [_ (job & payload & H)]. discriminate H.
  - cbn. split; [discriminate | intros [H _]; discriminate H].
Qed.

(** Only the duration of the outcome depends on the duration passed in. *)
Lemma transcribe_ignores_duration w call p acc language d d' diarize :
  let r := transcribe w call p acc language d diarize in
  let r' := transcribe w call p acc language d' diarize in
  status r = status r' /\ error_message r = error_message r' /\
  transcript r = transcript r' /\ words r = words r' /\
  job_id r = job_id r' /\ file_path r = file_path r' /\
  accuracy r = accuracy r' /\ diarization r = diarization r'.
Proof.
  cbv zeta. unfold transcribe. destruct (path_exists w p); cbn [negb].
  - destruct (remote_call w call p _); cbn; repeat split.
  - cbn. repeat split.
Qed.

Lemma get_transcriber_key h :
  match get_transcriber h with
  | Some _ => nonempty (host_api_key h) = true
  | None => nonempty (host_api_key h) = false
  end.
Proof.
  unfold get_transcriber, new_transcriber. cbn [nonempty].
  destruct (nonempty (host_api_key h)) eqn:Hkey; [| reflexivity].
  now destruct (host_api_key h).
Qed.

Section One.
Variable json_loads : string -> option json.
Variable float_of_text : string -> option pyfloat.
Variable h : Host.
Variable now : PyDatetime.datetime.
Variable fs : filesystem.
Variable arguments : file_arguments.

Let file_path := arg_file_path arguments.
Let accuracy := default "standard" (arg_accuracy arguments).
Let with_timestamps := default false (arg_with_timestamps arguments).

(** What stands behind a success answer. *)
Lemma handle_transcribe_file_success s :
  snd (handle_transcribe_file json_loads float_of_text h now fs arguments)
  = FileSuccess s ->
  exists d job payload,
    path_exists (host_world h) file_path = true /\
    probe json_loads float_of_text h file_path = inl (Finite d) /\
    nonempty (host_api_key h) = true /\
    remote_call (host_world h) 0 file_path (job_config accuracy "en" false)
    = Completed job payload /\
    host_write h (get_transcript_path file_path with_timestamps) = WriteOk /\
    let result := transcribe (host_world h) 0 file_path accuracy "en"
                             (Some d) false in
    status result = StatusSuccess /\
    handle_transcribe_file json_loads float_of_text h now fs arguments
    = (fst (write_transcript_file now fs result with_timestamps),
       FileSuccess
         {| answer_transcript_path := get_transcript_path file_path with_timestamps;
            answer_duration_seconds := d;
            answer_duration_formatted := format_duration d;
            answer_accuracy := accuracy |}).
Proof.
  unfold handle_transcribe_file.
  fold file_path accuracy with_timestamps.
  destruct (path_exists (host_world h) file_path) eqn:Hex; cbn [negb];
    [| discriminate].
  destruct (probe json_loads float_of_text h file_path) as [duration|e] eqn:Hp;
    [| discriminate].
  pose proof (get_transcriber_key h) as Hkey.
  destruct (get_transcriber h) as [key|]; [| discriminate].
  destruct (status (transcribe _ 0 file_path accuracy "en" (seconds_of duration) false))
    eqn:Hs; [| discriminate].
  destruct duration as [d|],
           (host_write h (get_transcript_path file_path with_timestamps)) eqn:Hw;
    try discriminate; try (destruct with_timestamps; discriminate).
  cbn [seconds_of] in Hs |- *.
  pose proof (proj1 (transcribe_success_iff _ _ _ _ _ _ _) Hs)
    as (_ & job & payload & Hcall).
  intros _. exists d, job, payload.
  repeat (split; [first [reflexivity | assumption] |]).
  rewrite !PathFacts.write_path. cbn [fst snd].
  rewrite BatchFacts.transcribe_file_path. reflexivity.
Qed.
End One.

End FileHandlerFacts.

(** X13. [handle_transcribe_file] answers with success exactly when the
    file exists, the probe gave a finite duration, an API key is there, the
    provider completed the job and the write of the transcript succeeded;
    it has then written a file at the transcript path it names, and it
    reports the probed duration.  Whatever the answer, no other path
    changes.  The errors found before the write (a missing file, a failed
    probe, no key, a failed transcription) leave the file system as it
    was, and so does a write that fails at [open]; a write that fails
    later can leave a partial file.  A duration that is not finite always
    ends in an error answer, for the JSON format after the document was
    written. *)
Theorem handle_transcribe_file_all_or_nothing
    (json_loads : string -> option Server.json)
    (float_of_text : string -> option Probe.pyfloat)
    (h : Handlers.Host) (now : PyDatetime.datetime) (fs : Server.filesystem)
    (arguments : Handlers.file_arguments) :
  let file_path := Handlers.arg_file_path arguments in
  let accuracy := default "standard" (Handlers.arg_accuracy arguments) in
  let with_timestamps := default false (Handlers.arg_with_timestamps arguments) in
  let output_path := Utils.get_transcript_path file_path with_timestamps in
  let fs' := fst (Handlers.handle_transcribe_file json_loads float_of_text h now fs arguments) in
  let answer := snd (Handlers.handle_transcribe_file json_loads float_of_text h now fs arguments) in
  ((exists s, answer = Handlers.FileSuccess s)
   <-> Transcriber.path_exists (Handlers.host_world h) file_path = true /\
       (exists d, Handlers.probe json_loads float_of_text h file_path
                  = inl (Probe.Finite d)) /\
       Probe.nonempty (Handlers.host_api_key h) = true /\
       (exists job payload,
          Transcriber.remote_call (Handlers.host_world h) 0 file_path
            (Transcriber.job_config accuracy "en" false)
          = Transcriber.Completed job payload) /\
       Handlers.host_write h output_path = Handlers.WriteOk) /\
  (forall s, answer = Handlers.FileSuccess s ->
     Handlers.answer_transcript_path s = output_path /\
     is_Some (fs' !! output_path) /\
     Handlers.probe json_loads float_of_text h file_path
     = inl (Probe.Finite (Handlers.answer_duration_seconds s)) /\
     Handlers.answer_duration_formatted s
     = Utils.format_duration (Handlers.answer_duration_seconds s) /\
     Handlers.answer_accuracy s = accuracy) /\
  (forall q, q <> output_path -> fs' !! q = fs !! q) /\
  (forall e, answer = Handlers.FileError e ->
     match e with
     | Handlers.FileNotFound _ | Handlers.DurationUnknown _
     | Handlers.NoApiKey | Handlers.TranscriptionFailed _ => fs' = fs
     | Handlers.WriteFailed _ =>
         Handlers.host_write h output_path <> Handlers.WriteOk /\
         (forall message,
            Handlers.host_write h output_path = Handlers.OpenRaises message ->
            fs' = fs)
     | Handlers.DurationNotFinite =>
         Handlers.probe json_loads float_of_text h file_path = inl Probe.NotFinite /\
         (with_timestamps = false -> fs' = fs)
     end) /\
  (Handlers.probe json_loads float_of_text h file_path = inl Probe.NotFinite ->
   exists e, answer = Handlers.FileError e).
Proof.
  cbv zeta. unfold Handlers.handle_transcribe_file.
  set (file_path := Handlers.arg_file_path arguments).
  set (accuracy := default "standard" (Handlers.arg_accuracy arguments)).
  set (with_timestamps := default false (Handlers.arg_with_timestamps arguments)).
  set (output_path := Utils.get_transcript_path file_path with_timestamps).
  assert (Hend : forall (done : Server.filesystem * Handlers.file_response) e,
            done.2 = Handlers.FileError e ->
            (forall q, q <> output_path -> done.1 !! q = fs !! q) ->
            ~ (Transcriber.path_exists (Handlers.host_world h) file_path = true /\
               (exists d, Handlers.probe json_loads float_of_text h file_path
                          = inl (Probe.Finite d)) /\
               Probe.nonempty (Handlers.host_api_key h) = true /\
               (exists job payload,
                  Transcriber.remote_call (Handlers.host_world h) 0 file_path
                    (Transcriber.job_config accuracy "en" false)
                  = Transcriber.Completed job payload) /\
               Handlers.host_write h output_path = Handlers.WriteOk) ->
            match e with
            | Handlers.FileNotFound _ | Handlers.DurationUnknown _
            | Handlers.NoApiKey | Handlers.TranscriptionFailed _ => done.1 = fs
            | Handlers.WriteFailed _ =>
                Handlers.host_write h output_path <> Handlers.WriteOk /\
                (forall message,
                   Handlers.host_write h output_path = Handlers.OpenRaises message ->
                   done.1 = fs)
            | Handlers.DurationNotFinite =>
                Handlers.probe json_loads float_of_text h file_path = inl Probe.NotFinite /\
                (with_timestamps = false -> done.1 = fs)
            end ->
            ((exists s, done.2 = Handlers.FileSuccess s)
             <-> Transcriber.path_exists (Handlers.host_world h) file_path = true /\
                 (exists d, Handlers.probe json_loads float_of_text h file_path
                            = inl (Probe.Finite d)) /\
                 Probe.nonempty (Handlers.host_api_key h) = true /\
                 (exists job payload,
                    Transcriber.remote_call (Handlers.host_world h) 0 file_path
                      (Transcriber.job_config accuracy "en" false)
                    = Transcriber.Completed job payload) /\
                 Handlers.host_write h output_path = Handlers.WriteOk) /\
            (forall s, done.2 = Handlers.FileSuccess s ->
               Handlers.answer_transcript_path s = output_path /\
               is_Some (done.1 !! output_path) /\
               Handlers.probe json_loads float_of_text h file_path
               = inl (Probe.Finite (Handlers.answer_duration_seconds s)) /\
               Handlers.answer_duration_formatted s
               = Utils.format_duration (Handlers.answer_duration_seconds s) /\
               Handlers.answer_accuracy s = accuracy) /\
            (forall q, q <> output_path -> done.1 !! q = fs !! q) /\
            (forall e', done.2 = Handlers.FileError e' ->
               match e' with
               | Handlers.FileNotFound _ | Handlers.DurationUnknown _
               | Handlers.NoApiKey | Handlers.TranscriptionFailed _ => done.1 = fs
               | Handlers.WriteFailed _ =>
                   Handlers.host_write h output_path <> Handlers.WriteOk /\
                   (forall message,
                      Handlers.host_write h output_path = Handlers.OpenRaises message ->
                      done.1 = fs)
               | Handlers.DurationNotFinite =>
                   Handlers.probe json_loads float_of_text h file_path
                   = inl Probe.NotFinite /\
                   (with_timestamps = false -> done.1 = fs)
               end) /\
            (Handlers.probe json_loads float_of_text h file_path = inl Probe.NotFinite ->
             exists e', done.2 = Handlers.FileError e')).
  { intros done e He Hframe Hnot Hkind. rewrite He.
    split; [split; [intros [s Hs]; discriminate Hs | intros H; now apply Hnot in H] |].
    split; [intros s Hs; discriminate Hs |].
    split; [exact Hframe |].
    split; [intros e' [= <-]; exact Hkind | intros _; now exists e]. }
  destruct (Transcriber.path_exists (Handlers.host_world h) file_path) eqn:Hex;
    cbn [negb].
  2: { eapply Hend; [reflexivity | reflexivity | | reflexivity].
       intros (H & _). discriminate H. }
  destruct (Handlers.probe json_loads float_of_text h file_path)
    as [duration|e] eqn:Hp.
  2: { eapply Hend; [reflexivity | reflexivity | | reflexivity].
       intros (_ & [d H] & _). discriminate H. }
  pose proof (FileHandlerFacts.get_transcriber_key h) as Hkey.
  destruct (Handlers.get_transcriber h) as [key|].
  2: { eapply Hend; [reflexivity | reflexivity | | reflexivity].
       intros (_ & _ & H & _). congruence. }
  destruct (Transcriber.status
              (Transcriber.transcribe _ 0 file_path accuracy "en"
                 (Handlers.seconds_of duration) false)) eqn:Hs.
  2: { eapply Hend; [reflexivity | reflexivity | | reflexivity].
       intros (_ & _ & _ & H4 & _).
       rewrite (proj2 (FileHandlerFacts.transcribe_success_iff _ _ _ _ _ _ _)
                  (conj Hex H4)) in Hs. discriminate Hs. }
  pose proof (proj1 (FileHandlerFacts.transcribe_success_iff _ _ _ _ _ _ _) Hs)
    as (_ & job & payload & Hcall).
  destruct duration as [d|],
           (Handlers.host_write h output_path) as [|message|message partial] eqn:Hw.
  - (* the success *)
    cbn [Handlers.seconds_of]. rewrite PathFacts.write_path. cbn [fst snd].
    rewrite BatchFacts.transcribe_file_path. fold output_path.
    split; [split; [intros _ | intros _; now eexists] |].
    { split; [reflexivity |]. split; [now exists d |]. split; [exact Hkey |].
      split; [now exists job, payload | reflexivity]. }
    split; [intros s [= <-]; cbn |].
    { split; [reflexivity |]. split; [rewrite lookup_insert_eq; now eexists |].
      repeat split. }
    split; [intros q Hq; now rewrite lookup_insert_ne by congruence |].
    split; [intros e He; discriminate He | intros H; discriminate H].
  - eapply Hend; [reflexivity | reflexivity | |].
    + intros (_ & _ & _ & _ & H). discriminate H.
    + cbn. split; [discriminate | reflexivity].
  - eapply Hend; [reflexivity | | |].
    + intros q Hq. cbn. now rewrite lookup_insert_ne by congruence.
    + intros (_ & _ & _ & _ & H). discriminate H.
    + cbn. split; [discriminate | intros m H; discriminate H].
  - destruct with_timestamps eqn:Hwts.
    + eapply Hend; [reflexivity | | |].
      * intros q Hq. cbn. now rewrite lookup_insert_ne by congruence.
      * intros (_ & [d H] & _). discriminate H.
      * cbn. split; [reflexivity | discriminate].
    + eapply Hend; [reflexivity | reflexivity | |].
      * intros (_ & [d H] & _). discriminate H.
      * cbn. split; reflexivity.
  - destruct with_timestamps eqn:Hwts.
    + eapply Hend; [reflexivity | reflexivity | |].
      * intros (_ & [d H] & _). discriminate H.
      * cbn. split; [discriminate | reflexivity].
    + eapply Hend; [reflexivity | reflexivity | |].
      * intros (_ & [d H] & _). discriminate H.
      * cbn. split; reflexivity.
  - destruct with_timestamps eqn:Hwts.
    + eapply Hend; [reflexivity | | |].
      * intros q Hq. cbn. now rewrite lookup_insert_ne by congruence.
      * intros (_ & [d H] & _). discriminate H.
      * cbn. split; [discriminate | intros m H; discriminate H].
    + eapply Hend; [reflexivity | reflexivity | |].
      * intros (_ & [d H] & _). discriminate H.
      * cbn. split; reflexivity.
Qed.

(** ffprobe prints [nan] as the duration of a file that the provider
    transcribes: with timestamps asked for, the answer is an error although
    the JSON document was written. *)
Lemma handle_transcribe_file_all_or_nothing_witness :
  let quoted (s : string) := String "034"%char (s +:+ String "034"%char "") in
  let stdout :=
    "{" +:+ quoted "format" +:+ ": {" +:+ quoted "duration" +:+ ": "
        +:+ quoted "nan" +:+ "}}" in
  let loads (s : string) :=
    if String.eqb s stdout
    then Some (Server.JObj [("format", Server.JObj [("duration", Server.JStr "nan")])])
    else None in
  let float (s : string) :=
    if String.eqb s "nan" then Some Probe.NotFinite else None in
  let payload := {| Transcriber.transcript_text := Some "hello world";
                    Transcriber.results := None |} in
  let h := {| Handlers.host_world :=
                {| Transcriber.path_exists := fun _ => true;
                   Transcriber.remote_call :=
                     fun _ _ _ => Transcriber.Completed "job-1" payload |};
              Handlers.host_ffprobe := fun _ => Probe.RunExit 0 stdout "";
              Handlers.host_api_key := Some "key";
              Handlers.host_find_media_files := fun _ _ _ => inl [];
              Handlers.host_write := fun _ => Handlers.WriteOk |} in
  let arguments := {| Handlers.arg_file_path := "/media/talk.mp3";
                      Handlers.arg_accuracy := None;
                      Handlers.arg_with_timestamps := Some true |} in
  let done := Handlers.handle_transcribe_file loads float h PyDatetime.may_day ∅
                arguments in
  snd done = Handlers.FileError Handlers.DurationNotFinite /\
  is_Some (fst done !! "/media/talk.mp3.transcript.json") /\
  Handlers.probe loads float h "/media/talk.mp3" = inl Probe.NotFinite.
Proof.
  intros quoted stdout loads float payload h arguments done.
  assert (He : snd done = Handlers.FileError Handlers.DurationNotFinite)
    by reflexivity.
  split; [exact He |]. split; [vm_compute; now eexists |].
  destruct (handle_transcribe_file_all_or_nothing loads float h PyDatetime.may_day ∅
              arguments) as (_ & _ & _ & Herr & _).
  exact (proj1 (Herr _ He)).
Defined.

(** X14. A transcript written by [handle_transcribe_file] can be read back
    at once: [handle_get_transcript] on the path named in a success answer
    succeeds, names the media file and says whether there are timestamps,
    for the JSON format always and for the text format whenever the file
    name holds no line break. *)
Theorem transcribed_file_reads_back
    (json_loads json_loads' : string -> option Server.json)
    (json_dumps : Server.json -> string)
    (float_of_text : string -> option Probe.pyfloat)
    (h : Handlers.Host) (now : PyDatetime.datetime) (fs : Server.filesystem)
    (arguments : Handlers.file_arguments) (s : Handlers.file_success) :
  let file_path := Handlers.arg_file_path arguments in
  let with_timestamps := default false (Handlers.arg_with_timestamps arguments) in
  let done := Handlers.handle_transcribe_file json_loads float_of_text h now fs arguments in
  snd done = Handlers.FileSuccess s ->
  with_timestamps = true
  \/ PyStr.no_linebreak (Server.path_name file_path) = true ->
  exists reply,
    Server.handle_get_transcript json_loads' json_dumps (fst done)
      (Handlers.answer_transcript_path s)
    = Server.GetSuccess reply /\
    Server.reply_source_media reply = file_path /\
    Server.reply_has_timestamps reply = with_timestamps.
Proof.
  cbv zeta. intros Hdone Hname.
  destruct (FileHandlerFacts.handle_transcribe_file_success
              json_loads float_of_text h now fs arguments s Hdone)
    as (d & job & payload & Hex & Hp & Hk & Hcall & Hw & Hs & Ha).
  cbv zeta in *.
  rewrite Ha in Hdone |- *. cbn [fst snd] in *. injection Hdone as <-.
  cbn [Handlers.answer_transcript_path].
  set (result := Transcriber.transcribe _ 0 _ _ "en" (Some d) false) in *.
  assert (Hpath : Transcriber.file_path result = Handlers.arg_file_path arguments)
    by apply BatchFacts.transcribe_file_path.
  rewrite <- Hpath.
  destruct (default false (Handlers.arg_with_timestamps arguments)) eqn:Hwts.
  - rewrite CodecFacts.write_json_file. cbn [fst].
    unfold Utils.get_transcript_path.
    rewrite (CodecFacts.get_json_file _ _ _ _ _ (lookup_insert_eq _ _ _)).
    cbn [Server.load_json mbind option_bind Server.read_json].
    eexists. split; [reflexivity |]. split; reflexivity.
  - destruct Hname as [Hname | Hname]; [discriminate Hname |].
    rewrite <- Hpath in Hname.
    destruct (TextRoundTrip.read_duration_after_write json_loads' json_dumps
                now fs result Hname) as [text Hread].
    cbv zeta in Hread.
    rewrite CodecFacts.write_text_file in Hread |- *. cbn [fst snd] in Hread |- *.
    unfold Utils.get_transcript_path. rewrite Hread.
    destruct (PyStr.truthy (Transcriber.duration_seconds result)).
    + rewrite CodecFacts.parse_formatted_duration.
      eexists. split; [reflexivity |]. split; reflexivity.
    + rewrite CodecFacts.parse_duration_unknown.
      eexists. split; [reflexivity |]. split; reflexivity.
Qed.

(** A talk of 125 seconds whose probe, key, provider and write are all
    fine is transcribed as text and read back through the path of the
    answer. *)
Lemma transcribed_file_reads_back_witness :
  let quoted (s : string) := String "034"%char (s +:+ String "034"%char "") in
  let stdout :=
    "{" +:+ quoted "format" +:+ ": {" +:+ quoted "duration" +:+ ": "
        +:+ quoted "125.000000" +:+ "}}" in
  let loads (s : string) :=
    if String.eqb s stdout
    then Some (Server.JObj
                 [("format", Server.JObj [("duration", Server.JStr "125.000000")])])
    else None in
  let float (s : string) :=
    if String.eqb s "125.000000" then Some (Probe.Finite 125) else None in
  let payload := {| Transcriber.transcript_text := Some "hello world";
                    Transcriber.results := None |} in
  let h := {| Handlers.host_world :=
                {| Transcriber.path_exists := fun _ => true;
                   Transcriber.remote_call :=
                     fun _ _ _ => Transcriber.Completed "job-1" payload |};
              Handlers.host_ffprobe := fun _ => Probe.RunExit 0 stdout "";
              Handlers.host_api_key := Some "key";
              Handlers.host_find_media_files := fun _ _ _ => inl [];
              Handlers.host_write := fun _ => Handlers.WriteOk |} in
  let arguments := {| Handlers.arg_file_path := "/media/talk.mp3";
                      Handlers.arg_accuracy := None;
                      Handlers.arg_with_timestamps := None |} in
  let done := Handlers.handle_transcribe_file loads float h
                PyDatetime.may_day ∅ arguments in
  exists s reply,
    snd done = Handlers.FileSuccess s /\
    Server.handle_get_transcript (fun _ => None) (fun _ => "") (fst done)
      (Handlers.answer_transcript_path s)
    = Server.GetSuccess reply /\
    Server.reply_source_media reply = "/media/talk.mp3" /\
    Server.reply_has_timestamps reply = false.
Proof.
  intros quoted stdout loads float payload h arguments done.
  eexists.
  destruct (transcribed_file_reads_back loads (fun _ => None) (fun _ => "")
              float h PyDatetime.may_day ∅ arguments _
              eq_refl (or_intror eq_refl))
    as (reply & Hget & Hmedia & Hts).
  exists reply. split; [reflexivity |]. split; [exact Hget |].
  split; [exact Hmedia | exact Hts].
Defined.

(** ** server.py: [handle_transcribe_directory] *)

Module DirectoryFacts.
Import PyStr Utils Transcriber Server Probe Handlers.

Lemma transcribe_error_message w call p accuracy language duration diarize :
  status (transcribe w call p accuracy language duration diarize) = StatusError ->
  is_Some (error_message (transcribe w call p accuracy language duration diarize)).
Proof.
  unfold transcribe. destruct (path_exists w p); cbn [negb].
  - destruct (remote_call w call p _); cbn; first [discriminate | now eexists].
  - now eexists.
Qed.

Section Loop.
Variable clock : nat -> PyDatetime.datetime.
Variable with_timestamps : bool.

Abbreviation loop := (fold_left (report_step clock with_timestamps)).
Abbreviation target r := (get_transcript_path (file_path r) with_timestamps).
Abbreviation entry :=
  (fun r => {| report_file := file_path r;
               report_transcript_path :=
                 if is_success r then Some (target r) else None;
               report_duration_seconds := duration_seconds r;
               report_status := status r;
               report_error_message :=
                 if is_success r then None else error_message r |}).

Lemma report_step_entry st r :
  acc_transcripts (report_step clock with_timestamps st r)
  = acc_transcripts st ++ [entry r].
Proof.
  unfold report_step, is_success. destruct (status r) eqn:Hs.
  - rewrite PathFacts.write_path. reflexivity.
  - reflexivity.
Qed.

Lemma report_step_disk st r :
  let st' := report_step clock with_timestamps st r in
  (is_success r = false -> disk st' = disk st) /\
  (is_success r = true -> is_Some (disk st' !! target r)) /\
  (forall q, is_Some (disk st !! q) -> is_Some (disk st' !! q)) /\
  (forall q, q <> target r -> disk st' !! q = disk st !! q).
Proof.
  cbv zeta. unfold report_step, is_success. destruct (status r).
  - rewrite PathFacts.write_path. cbn [disk].
    split; [discriminate |]. split; [| split].
    + intros _. rewrite lookup_insert_eq. now eexists.
    + intros q Hq. destruct (decide (target r = q)) as [<-|Hne].
      * rewrite lookup_insert_eq. now eexists.
      * now rewrite lookup_insert_ne.
    + intros q Hq. now rewrite lookup_insert_ne.
  - cbn [disk]. split; [reflexivity |]. split; [discriminate |].
    split; [trivial | reflexivity].
Qed.

Lemma report_loop_entries rs : forall st,
  acc_transcripts (loop rs st) = acc_transcripts st ++ map entry rs.
Proof.
  induction rs as [|r rs IH]; intros st; cbn [fold_left map].
  - now rewrite app_nil_r.
  - rewrite IH, report_step_entry, <- app_assoc. reflexivity.
Qed.

Lemma report_loop_disk rs : forall st,
  (forall q, is_Some (disk st !! q) -> is_Some (disk (loop rs st) !! q)) /\
  (forall r, r ∈ rs -> is_success r = true ->
     is_Some (disk (loop rs st) !! target r)) /\
  (forall q, (forall r, r ∈ rs -> is_success r = true -> q <> target r) ->
     disk (loop rs st) !! q = disk st !! q).
Proof.
  induction rs as [|r rs IH]; intros st; cbn [fold_left].
  - split; [trivial |]. split; [| reflexivity].
    intros r Hr. now apply elem_of_nil in Hr.
  - destruct (IH (report_step clock with_timestamps st r)) as (Hkeep & Hnew & Hframe).
    destruct (report_step_disk st r) as (Hfail & Hput & Hkeep1 & Hframe1).
    cbv zeta in *.
    split; [| split].
    + intros q Hq. apply Hkeep, Hkeep1, Hq.
    + intros r' Hr' Hs. apply elem_of_cons in Hr' as [-> | Hr'].
      * apply Hkeep, Hput, Hs.
      * now apply Hnew.
    + intros q Hq. rewrite Hframe.
      * destruct (is_success r) eqn:Hs.
        -- apply Hframe1. apply Hq; [apply elem_of_cons; now left | exact Hs].
        -- now rewrite Hfail.
      * intros r' Hr'. apply Hq. apply elem_of_cons. now right.
Qed.

(** The loop under a host whose writes can fail: when it gets to its end
    it is the loop of the writes that cannot. *)
Lemma report_loop_ends h l : forall st st',
  report_loop h clock with_timestamps l st = LoopEnds st' ->
  st' = loop (map fst l) st.
Proof.
  induction l as [|[r d] l IH]; intros st st'; cbn [report_loop fold_left map fst].
  - now intros [= <-].
  - destruct (status r), d as [q|]; try discriminate; try apply IH.
    + destruct (host_write h _); [apply IH | discriminate | discriminate].
    + destruct with_timestamps; [| discriminate].
      destruct (host_write h _); try discriminate.
      destruct (doomed_loop _ _ _ _ _). discriminate.
Qed.


End Loop.

(** Whatever the interleaving and the number of permits, a batch that
    returns hands back the outcomes of the items in input order. *)
Lemma batch_returns_results w files accuracy language diarize progress_callback
    max_concurrent rs :
  transcribe_batch_returns w files accuracy language diarize progress_callback max_concurrent rs ->
  rs = imap (transcribe_item w accuracy language diarize) files.
Proof.
  intros (st0 & st & Hstart & Hrun & Hg).
  eapply BatchFacts.gather_invariant; [| exact Hg].
  eapply BatchFacts.invariant_run; [apply BatchFacts.invariant_start, Hstart | exact Hrun].
Qed.

Section Answer.
Variable json_loads : string -> option json.
Variable float_of_text : string -> option pyfloat.
Variable h : Host.
Variable clock : nat -> PyDatetime.datetime.
Variable fs : filesystem.
Variable arguments : directory_arguments.

Abbreviation returns :=
  (handle_transcribe_directory_returns json_loads float_of_text h clock fs arguments).
Abbreviation found :=
  (host_find_media_files h (arg_directory arguments)
     (default DEFAULT_FILE_TYPES (arg_file_types arguments))
     (default false (arg_recursive arguments))).
Abbreviation outcomes media_files :=
  (imap (transcribe_item (host_world h)
           (default "standard" (arg_dir_accuracy arguments)) "en" false)
        (map batch_item (map (with_duration json_loads float_of_text h) media_files))).
Abbreviation written rs :=
  (handle_transcribe_directory_report clock
     (default false (arg_dir_with_timestamps arguments)) fs rs).
Abbreviation start :=
  {| disk := fs; writes := 0; acc_transcripts := [];
     acc_processed := 0; acc_failed := 0; acc_total := 0%Q |}.
Abbreviation probed media_files :=
  (map snd (map (with_duration json_loads float_of_text h) media_files)).

(** How the handler ends once the batch has returned. *)
Abbreviation ending media_files fs' response :=
  (match report_loop h clock (default false (arg_dir_with_timestamps arguments))
           (zip (outcomes media_files) (probed media_files)) start with
   | LoopEnds st =>
       fs' = disk st /\
       response
       = DirectoryReport
           {| files_processed := acc_processed st;
              files_failed := acc_failed st;
              transcripts := acc_transcripts st;
              total_duration_seconds := acc_total st;
              total_duration_formatted := format_duration (acc_total st) |}
   | LoopRaises remains e => fs' = remains /\ response = HandlerRaises e
   | LoopNotFollowed => response = NotFollowed
   end).

Lemma outcomes_zip media_files :
  map fst (zip (outcomes media_files) (probed media_files)) = outcomes media_files.
Proof. apply fst_zip. now rewrite length_imap, !length_map. Qed.

(** The ends of the handler, branch by branch. *)
Lemma returns_cases fs' response :
  returns fs' response ->
  (fs' = fs /\ (response = NoMediaFiles \/ exists e, response = DirectoryError e)) \/
  exists p ps,
    found = inl (p :: ps) /\ nonempty (host_api_key h) = true /\
    0 <= default 10 (arg_max_concurrent arguments) /\
    ending (p :: ps) fs' response.
Proof.
  unfold handle_transcribe_directory_returns.
  destruct found as [[|p ps]|message].
  - intros [-> ->]. left. split; [reflexivity | now left].
  - pose proof (get_transcriber_key := FileHandlerFacts.get_transcriber_key h).
    destruct (get_transcriber h).
    2: { intros [-> ->]. left. split; [reflexivity | right; now eexists]. }
    unfold transcribe_batch_start.
    destruct (Z.ltb_spec (default 10 (arg_max_concurrent arguments)) 0).
    { intros [-> ->]. left. split; [reflexivity | right; now eexists]. }
    intros (rs & Hrs & Hend). right. exists p, ps.
    split; [reflexivity |]. split; [exact get_transcriber_key |].
    split; [assumption |].
    apply batch_returns_results in Hrs. subst rs. exact Hend.
  - intros [-> ->]. left. split; [reflexivity | right; now eexists].
Qed.

(** A report is the report of the outcomes of the files found. *)
Lemma returns_report fs' report :
  returns fs' (DirectoryReport report) ->
  exists media_files,
    found = inl media_files /\ media_files <> [] /\
    fs' = fst (written (outcomes media_files)) /\
    report = snd (written (outcomes media_files)).
Proof.
  intros Hret. apply returns_cases in Hret
    as [[_ [H | [e H]]] | (p & ps & Hfound & _ & _ & Hend)]; try discriminate H.
  exists (p :: ps). split; [exact Hfound |]. split; [discriminate |].
  destruct (report_loop h clock _ _ _) as [st|remains e|] eqn:Hloop;
    [| destruct Hend as [_ H]; discriminate H | discriminate Hend].
  apply report_loop_ends in Hloop. rewrite outcomes_zip in Hloop.
  destruct Hend as [-> [= ->]].
  unfold handle_transcribe_directory_report. cbn [fst snd].
  rewrite <- Hloop. split; reflexivity.
Qed.
End Answer.

End DirectoryFacts.

(** X15. The report of [handle_transcribe_directory] has one entry for
    every media file that was found, in the order of discovery, and the two
    counters add up to the number of files.  The entry of a file says
    success exactly when the file exists and the provider completed its
    job; it then names the transcript path of the file, where a file now
    is, and has no error message.  Otherwise it has no transcript path and
    has an error message.  The handler deletes nothing, and changes no path
    that is not named in an entry. *)
Theorem directory_report_covers_every_file
    (json_loads : string -> option Server.json)
    (float_of_text : string -> option Probe.pyfloat)
    (h : Handlers.Host) (clock : nat -> PyDatetime.datetime)
    (fs fs' : Server.filesystem) (arguments : Handlers.directory_arguments)
    (report : Server.directory_report) :
  let accuracy := default "standard" (Handlers.arg_dir_accuracy arguments) in
  let with_timestamps := default false (Handlers.arg_dir_with_timestamps arguments) in
  Handlers.handle_transcribe_directory_returns json_loads float_of_text h clock
    fs arguments fs' (Handlers.DirectoryReport report) ->
  exists media_files,
    Handlers.host_find_media_files h (Handlers.arg_directory arguments)
      (default Handlers.DEFAULT_FILE_TYPES (Handlers.arg_file_types arguments))
      (default false (Handlers.arg_recursive arguments))
    = inl media_files /\
    map Server.report_file (Server.transcripts report) = media_files /\
    Server.files_processed report + Server.files_failed report
    = Z.of_nat (length media_files) /\
    (forall i item, Server.transcripts report !! i = Some item ->
       let p := Server.report_file item in
       (Server.report_status item = Transcriber.StatusSuccess
        <-> Transcriber.path_exists (Handlers.host_world h) p = true /\
            exists job payload,
              Transcriber.remote_call (Handlers.host_world h) i p
                (Transcriber.job_config accuracy "en" false)
              = Transcriber.Completed job payload) /\
       match Server.report_status item with
       | Transcriber.StatusSuccess =>
           Server.report_transcript_path item
           = Some (Utils.get_transcript_path p with_timestamps) /\
           is_Some (fs' !! Utils.get_transcript_path p with_timestamps) /\
           Server.report_error_message item = None
       | Transcriber.StatusError =>
           Server.report_transcript_path item = None /\
           is_Some (Server.report_error_message item)
       end) /\
    (forall q, is_Some (fs !! q) -> is_Some (fs' !! q)) /\
    (forall q,
       (forall item, item ∈ Server.transcripts report ->
          Server.report_transcript_path item <> Some q) ->
       fs' !! q = fs !! q).
Proof.
  cbv zeta. intros Hret.
  destruct (DirectoryFacts.returns_report _ _ _ _ _ _ _ _ Hret)
    as (media_files & Hfound & _ & -> & ->).
  exists media_files. split; [exact Hfound |].
  unfold Server.handle_transcribe_directory_report. cbn [fst snd].
  cbn [Server.transcripts Server.files_processed Server.files_failed].
  set (rs := imap _ _).
  set (wts := default false (Handlers.arg_dir_with_timestamps arguments)).
  set (st0 := {| Server.disk := fs |}).
  pose proof (DirectoryFacts.report_loop_entries clock wts rs st0) as Hentries.
  destruct (DirectoryFacts.report_loop_disk clock wts rs st0) as (Hkeep & Hnew & Hframe).
  destruct (ReportFacts.report_loop clock wts rs st0) as (_ & Hp & Hf & _).
  cbv zeta in Hp, Hf.
  change (Server.acc_transcripts st0) with (@nil Server.file_report) in Hentries.
  change (Server.acc_processed st0) with 0 in Hp.
  change (Server.acc_failed st0) with 0 in Hf.
  change (Server.disk st0) with fs in Hkeep, Hframe.
  cbn [app] in Hentries.
  assert (Hrs : forall i r, rs !! i = Some r ->
            exists p, media_files !! i = Some p /\
              r = Transcriber.transcribe (Handlers.host_world h) i p
                    (default "standard" (Handlers.arg_dir_accuracy arguments)) "en"
                    (Some (snd (Handlers.batch_item
                                  (Handlers.with_duration json_loads float_of_text h p))))
                    false).
  { intros i r Hr. subst rs.
    rewrite list_lookup_imap, !list_lookup_fmap in Hr.
    destruct (media_files !! i) as [p|]; [| discriminate Hr].
    exists p. split; [reflexivity |]. cbn in Hr. injection Hr as <-.
    unfold Transcriber.transcribe_item, Handlers.batch_item, Handlers.with_duration.
    now destruct (Handlers.probe _ _ _ _). }
  rewrite Hentries. split; [| split; [| split; [| split]]].
  - rewrite map_map. cbn [Server.report_file].
    apply list_eq. intros i. rewrite list_lookup_fmap.
    destruct (rs !! i) as [r|] eqn:Hr.
    + destruct (Hrs i r Hr) as (p & Hp' & ->). cbn.
      now rewrite BatchFacts.transcribe_file_path.
    + cbn. symmetry. apply lookup_ge_None. apply lookup_ge_None in Hr.
      subst rs. now rewrite length_imap, !length_map in Hr.
  - rewrite Hp, Hf.
    assert (Hlen : length rs = length media_files)
      by (subst rs; now rewrite length_imap, !length_map).
    rewrite <- Hlen. clear. induction rs as [|r rs IH]; [reflexivity |].
    cbn [List.filter]. destruct (Server.is_success r); cbn [negb length]; lia.
  - intros i item Hitem. rewrite list_lookup_fmap in Hitem.
    destruct (rs !! i) as [r|] eqn:Hr; [| discriminate Hitem].
    injection Hitem as <-. cbn [Server.report_file Server.report_status
      Server.report_transcript_path Server.report_error_message].
    destruct (Hrs i r Hr) as (p & Hp' & Er).
    assert (Hpath : Transcriber.file_path r = p)
      by (rewrite Er; apply BatchFacts.transcribe_file_path).
    rewrite Hpath. split.
    + rewrite Er. apply FileHandlerFacts.transcribe_success_iff.
    + pose proof (Hnew r (list_elem_of_lookup_2 _ _ _ Hr)) as Hput.
      unfold Server.is_success in *.
      destruct (Transcriber.status r) eqn:Hs.
      * rewrite Hpath in Hput. split; [reflexivity |]. split; [now apply Hput | reflexivity].
      * split; [reflexivity |]. rewrite Er in Hs |- *.
        now apply DirectoryFacts.transcribe_error_message.
  - exact Hkeep.
  - intros q Hq. apply Hframe. intros r Hr Hs E.
    apply (Hq _ (list_elem_of_fmap_2 _ _ _ Hr)).
    cbn [Server.report_transcript_path]. rewrite Hs. now rewrite E.
Qed.

(** Two files are found; the provider completes the first and refuses the
    second.  The report has an entry for each, in order. *)
Lemma directory_report_covers_every_file_witness :
  let quoted (s : string) := String "034"%char (s +:+ String "034"%char "") in
  let stdout :=
    "{" +:+ quoted "format" +:+ ": {" +:+ quoted "duration" +:+ ": "
        +:+ quoted "125.000000" +:+ "}}" in
  let loads (s : string) :=
    if String.eqb s stdout
    then Some (Server.JObj
                 [("format", Server.JObj [("duration", Server.JStr "125.000000")])])
    else None in
  let float (s : string) :=
    if String.eqb s "125.000000" then Some (Probe.Finite 125) else None in
  let payload := {| Transcriber.transcript_text := Some "hello world";
                    Transcriber.results := None |} in
  let h := {| Handlers.host_world :=
                {| Transcriber.path_exists := fun _ => true;
                   Transcriber.remote_call :=
                     fun i _ _ =>
                       if Nat.eqb i 0 then Transcriber.Completed "job-1" payload
                       else Transcriber.RaisesOther "connection reset by peer" |};
              Handlers.host_ffprobe := fun _ => Probe.RunExit 0 stdout "";
              Handlers.host_api_key := Some "key";
              Handlers.host_find_media_files :=
                fun _ _ _ => inl ["/media/a.mp3"; "/media/b.mp3"];
              Handlers.host_write := fun _ => Handlers.WriteOk |} in
  let arguments := {| Handlers.arg_directory := "/media";
                      Handlers.arg_file_types := None;
                      Handlers.arg_dir_accuracy := None;
                      Handlers.arg_dir_with_timestamps := None;
                      Handlers.arg_recursive := None;
                      Handlers.arg_max_concurrent := None |} in
  exists fs' report,
    Handlers.handle_transcribe_directory_returns loads float h
      (fun _ => PyDatetime.may_day) ∅ arguments fs' (Handlers.DirectoryReport report) /\
    map Server.report_file (Server.transcripts report)
    = ["/media/a.mp3"; "/media/b.mp3"] /\
    map Server.report_status (Server.transcripts report)
    = [Transcriber.StatusSuccess; Transcriber.StatusError] /\
    Server.files_processed report + Server.files_failed report = 2.
Proof.
  intros quoted stdout loads float payload h arguments.
  pose (files := map Handlers.batch_item
                     (map (Handlers.with_duration loads float h)
                          ["/media/a.mp3"; "/media/b.mp3"])).
  pose (rs := imap (Transcriber.transcribe_item (Handlers.host_world h)
                      "standard" "en" false) files).
  pose (done := Server.handle_transcribe_directory_report
                  (fun _ => PyDatetime.may_day) false ∅ rs).
  assert (Hret : Handlers.handle_transcribe_directory_returns loads float h
            (fun _ => PyDatetime.may_day) ∅ arguments (fst done)
            (Handlers.DirectoryReport (snd done))).
  { exists rs. split; [| split; reflexivity].
    apply (proj2 (BatchFacts.batch_returns_iff (Handlers.host_world h) files
                    "standard" "en" false false 10 rs ltac:(lia))).
    reflexivity. }
  exists (fst done), (snd done). split; [exact Hret |].
  destruct (directory_report_covers_every_file loads float h
              (fun _ => PyDatetime.may_day) ∅ (fst done) arguments (snd done) Hret)
    as (media_files & Hfound & Hfiles & Hcount & _).
  injection Hfound as <-.
  split; [exact Hfiles |]. split; [reflexivity | exact Hcount].
Defined.



(** ** server.py: [handle_get_usage] *)

(** X17. [handle_get_usage] answers with status error only when there is
    no API key, in the argument-free constructor that is when the
    environment variable is missing or empty.  With a key the status is
    success even when listing the jobs failed: the report then carries the
    error text and no figure.  When the jobs were listed the report has no
    error, no limit and no remaining hours, and a job count between 0 and
    the number of jobs listed. *)
Theorem handle_get_usage_answers
    (h : Handlers.Host)
    (fromisoformat : string -> option PyDatetime.datetime)
    (reply : Usage.list_jobs_reply) (now : PyDatetime.datetime) :
  let answer := Handlers.handle_get_usage h fromisoformat reply now in
  (answer = Handlers.UsageError <-> Probe.nonempty (Handlers.host_api_key h) = false) /\
  (forall report, answer = Handlers.UsageSuccess report ->
     Usage.monthly_limit_hours report = None /\
     Usage.hours_remaining report = None /\
     match reply with
     | Usage.ListRaises message =>
         Usage.usage_error report = Some message /\
         Usage.hours_used_this_month report = None /\
         Usage.jobs_this_month report = None
     | Usage.JobList jobs =>
         Usage.usage_error report = None /\
         is_Some (Usage.hours_used_this_month report) /\
         exists n, Usage.jobs_this_month report = Some n /\
                   0 <= n <= Z.of_nat (length jobs)
     end).
Proof.
  cbv zeta. unfold Handlers.handle_get_usage, Handlers.get_transcriber,
    Probe.new_transcriber. cbn [Probe.nonempty].
  destruct (Probe.nonempty (Handlers.host_api_key h)) eqn:Hkey.
  - destruct (Handlers.host_api_key h) as [key|]; [| discriminate Hkey].
    split; [split; discriminate |].
    intros report [= <-]. destruct reply as [jobs|message].
    + destruct (usage_report_by_wall_clock fromisoformat jobs now) as (He & Hc & Hh).
      cbv zeta in Hc, Hh. rewrite He, Hc, Hh.
      assert (Hnone :
        Usage.monthly_limit_hours
          (Usage.get_usage fromisoformat (Usage.JobList jobs) now) = None /\
        Usage.hours_remaining
          (Usage.get_usage fromisoformat (Usage.JobList jobs) now) = None).
      { unfold Usage.get_usage. destruct (fold_left _ _ _). now split. }
      destruct Hnone as [-> ->].
      split; [reflexivity |]. split; [reflexivity |]. split; [reflexivity |].
      split; [now eexists |]. eexists. split; [reflexivity |].
      split; [lia |]. apply inj_le.
      clear. induction jobs as [|job jobs IH]; [reflexivity |].
      cbn [List.filter]. destruct (Usage.counted _ _ _); cbn [length]; lia.
    + cbn. repeat split.
  - split; [split; reflexivity |]. intros report H. discriminate H.
Qed.

(** ** transcriber.py: what [get_usage] reads of a date *)

(** X18. The usage report reads only the year and the month of the clock
    and of each creation time: two job lists with the same durations whose
    creation times, where they are read, agree on year and month give the
    same report, under two clocks of the same year and month.  Day, time
    of day and UTC offset are never looked at. *)
Theorem usage_reads_only_year_and_month
    (fromisoformat : string -> option PyDatetime.datetime)
    (jobs jobs' : list Usage.job_summary) (now now' : PyDatetime.datetime) :
  PyDatetime.year now = PyDatetime.year now' ->
  PyDatetime.month now = PyDatetime.month now' ->
  Forall2 (fun job job' =>
             Usage.duration job = Usage.duration job' /\
             (fun d => (PyDatetime.year d, PyDatetime.month d))
               <$> Usage.job_date fromisoformat job
             = (fun d => (PyDatetime.year d, PyDatetime.month d))
                 <$> Usage.job_date fromisoformat job') jobs jobs' ->
  Usage.get_usage fromisoformat (Usage.JobList jobs) now
  = Usage.get_usage fromisoformat (Usage.JobList jobs') now'.
Proof.
  intros Hy Hm Hjobs. unfold Usage.get_usage.
  assert (E : forall acc,
            fold_left (Usage.usage_step fromisoformat (PyDatetime.first_of_month now))
                      jobs acc
            = fold_left (Usage.usage_step fromisoformat (PyDatetime.first_of_month now'))
                        jobs' acc).
  { induction Hjobs as [|job job' jobs jobs' [Hd Hdate] _ IH]; intros acc;
      [reflexivity |].
    cbn [fold_left]. rewrite IH. f_equal.
    rewrite !UsageFacts.usage_step_counted, Hd.
    assert (Hc : Usage.counted fromisoformat now job
                 = Usage.counted fromisoformat now' job').
    { unfold Usage.counted.
      destruct (Usage.job_date fromisoformat job) as [d|],
               (Usage.job_date fromisoformat job') as [d'|];
        try discriminate Hdate; [| reflexivity].
      injection Hdate as Hdy Hdm.
      unfold Usage.month_reached. now rewrite Hy, Hm, Hdy, Hdm. }
    now rewrite Hc. }
  now rewrite E.
Qed.

(** A job created on the first of March at midnight UTC and one created on
    the last of March, late, five hours east of UTC, under clocks of the
    15th and the 1st of March. *)
Lemma usage_reads_only_year_and_month_witness :
  let at_ d h mi off :=
    {| PyDatetime.year := 2024; PyDatetime.month := 3; PyDatetime.day := d;
       PyDatetime.hour := h; PyDatetime.minute := mi; PyDatetime.second := 0;
       PyDatetime.microsecond := 0; PyDatetime.utcoffset := off |} in
  let job d := {| Usage.created_at := Usage.CreatedDatetime d;
                  Usage.duration := Some 1800%Q |} in
  Usage.get_usage (fun _ => None)
    (Usage.JobList [job (at_ 1%positive 0%N 0%N (Some 0))]) (at_ 15%positive 12%N 0%N None)
  = Usage.get_usage (fun _ => None)
      (Usage.JobList [job (at_ 31%positive 23%N 59%N (Some 18000))]) (at_ 1%positive 0%N 0%N None).
Proof.
  intros at_ job.
  apply (usage_reads_only_year_and_month (fun _ => None)); try reflexivity.
  repeat constructor.
Defined.

(** ** utils.py: [find_media_files] *)

Module DiscoveryFacts.
Import PyStr Discovery.

Lemma compare_not_Gt_trans : forall a b c,
  String.compare a b <> Gt -> String.compare b c <> Gt -> String.compare a c <> Gt.
Proof.
  induction a as [|x a IH]; intros [|y b] [|z c]; cbn; try congruence.
  change (Ascii.compare x y) with (N.compare (N_of_ascii x) (N_of_ascii y)).
  change (Ascii.compare y z) with (N.compare (N_of_ascii y) (N_of_ascii z)).
  change (Ascii.compare x z) with (N.compare (N_of_ascii x) (N_of_ascii z)).
  destruct (N.compare_spec (N_of_ascii x) (N_of_ascii y)) as [Exy|Lxy|Gxy];
    destruct (N.compare_spec (N_of_ascii y) (N_of_ascii z)) as [Eyz|Lyz|Gyz];
    try congruence; intros Hab Hbc.
  - rewrite Exy, Eyz, N.compare_refl. now apply (IH b c).
  - rewrite Exy. now rewrite (proj2 (N.compare_lt_iff _ _) Lyz).
  - rewrite <- Eyz. now rewrite (proj2 (N.compare_lt_iff _ _) Lxy).
  - now rewrite (proj2 (N.compare_lt_iff _ _) (N.lt_trans _ _ _ Lxy Lyz)).
Qed.

Lemma str_le_compare a b : str_le a b <-> String.compare a b <> Gt.
Proof.
  unfold str_le, String.leb. destruct (String.compare a b); split; congruence.
Qed.

#[export] Instance str_le_trans : Transitive str_le.
Proof.
  intros a b c Hab Hbc. apply str_le_compare in Hab, Hbc. apply str_le_compare.
  now apply (compare_not_Gt_trans a b c).
Qed.

#[export] Instance str_le_total : Total str_le.
Proof. intros a b. apply String.leb_total. Qed.

#[export] Instance str_le_antisym : AntiSymm eq str_le.
Proof. intros a b. apply String.leb_antisym. Qed.

Lemma sorted_spec l :
  StronglySorted str_le (sorted l) /\ sorted l ≡ₚ l.
Proof.
  split; [apply StronglySorted_merge_sort; apply _ | apply merge_sort_Permutation].
Qed.

(** A loop whose body can raise ends without an exception exactly when no
    element makes the body raise; it then keeps what the body keeps. *)
Lemma fold_raising_spec {B : Type} (body : list string -> B -> list string + string)
    (quiet : B -> Prop) (hit : B -> string -> Prop) :
  (forall acc b,
     match body acc b with
     | inl acc' => quiet b /\ (NoDup acc -> NoDup acc') /\
                   forall p, p ∈ acc' <-> p ∈ acc \/ hit b p
     | inr _ => ~ quiet b
     end) ->
  forall l acc,
    match fold_raising body l acc with
    | inl acc' => Forall quiet l /\ (NoDup acc -> NoDup acc') /\
                  forall p, p ∈ acc' <-> p ∈ acc \/ exists b, b ∈ l /\ hit b p
    | inr _ => ~ Forall quiet l
    end.
Proof.
  intros Hbody. induction l as [|b l IH]; intros acc; cbn [fold_raising].
  - split; [constructor |]. split; [trivial |]. intros p. split; [now left |].
    intros [Hp | (b & Hb & _)]; [assumption | now apply elem_of_nil in Hb].
  - specialize (Hbody acc b). destruct (body acc b) as [acc1|e].
    + destruct Hbody as (Hq & Hnd1 & Hin1). specialize (IH acc1).
      destruct (fold_raising body l acc1) as [acc'|e].
      * destruct IH as (Hqs & Hnd & Hin).
        split; [now constructor |]. split; [auto |].
        intros p. rewrite Hin, Hin1. split.
        -- intros [[Hp | Hp] | (b' & Hb' & Hp)]; [now left | |].
           ++ right. exists b. split; [apply elem_of_cons; now left | exact Hp].
           ++ right. exists b'. split; [apply elem_of_cons; now right | exact Hp].
        -- intros [Hp | (b' & Hb' & Hp)]; [now left; left |].
           apply elem_of_cons in Hb' as [-> | Hb'].
           ++ left. now right.
           ++ right. now exists b'.
      * intros H. apply IH. now apply Forall_cons in H as [_ H].
    + intros H. apply Hbody. now apply Forall_cons in H as [H _].
Qed.

Section Collect.
Variable upper : string -> string.
Variable t : Tree.
Variable directory : string.
Variable recursive : bool.

Abbreviation patterns ext := ["*." +:+ ext; "*." +:+ upper ext].
Abbreviation hit_file q p := (is_file t q = inl true /\ resolve t q = inl p).
Abbreviation quiet_file q :=
  (is_file t q = inl false \/ is_file t q = inl true /\ exists p, resolve t q = inl p).
Abbreviation hit_pattern pattern p :=
  (exists q, q ∈ fst (glob t recursive directory pattern) /\ hit_file q p).
Abbreviation quiet_pattern pattern :=
  (Forall (fun q => quiet_file q) (fst (glob t recursive directory pattern)) /\
   snd (glob t recursive directory pattern) = None).
Abbreviation hit_extension ext p :=
  (exists pattern, pattern ∈ patterns ext /\ hit_pattern pattern p).
Abbreviation quiet_extension ext :=
  (Forall (fun pattern => quiet_pattern pattern) (patterns ext)).

Lemma add_file_spec acc q :
  match add_file t acc q with
  | inl acc' => quiet_file q /\ (NoDup acc -> NoDup acc') /\
                forall p, p ∈ acc' <-> p ∈ acc \/ hit_file q p
  | inr _ => ~ quiet_file q
  end.
Proof.
  unfold add_file. destruct (is_file t q) as [[|]|e].
  - destruct (resolve t q) as [abs_path|e].
    + split; [right; split; [reflexivity | now eexists] |].
      destruct (bool_decide_reflect (abs_path ∈ acc)) as [Hin|Hout].
      * split; [trivial |]. intros p. split; [now left |].
        intros [Hp | [_ [= <-]]]; assumption.
      * split.
        -- intros Hnd. apply NoDup_app. split; [exact Hnd |].
           split; [| apply NoDup_singleton].
           intros x Hx Hx'. apply list_elem_of_singleton in Hx' as ->. contradiction.
        -- intros p. rewrite elem_of_app, list_elem_of_singleton.
           split; intros [Hp | Hp].
           ++ now left.
           ++ right. split; [reflexivity | now subst].
           ++ now left.
           ++ right. destruct Hp as [_ [= <-]]. reflexivity.
    + intros [H | [_ [p H]]]; discriminate H.
  - split; [now left |]. split; [trivial |]. intros p. split; [now left |].
    intros [Hp | [Hf _]]; [assumption | discriminate Hf].
  - intros [H | [H _]]; discriminate H.
Qed.

Lemma add_pattern_spec acc pattern :
  match add_pattern t directory recursive acc pattern with
  | inl acc' => quiet_pattern pattern /\ (NoDup acc -> NoDup acc') /\
                forall p, p ∈ acc' <-> p ∈ acc \/ hit_pattern pattern p
  | inr _ => ~ quiet_pattern pattern
  end.
Proof.
  unfold add_pattern.
  destruct (glob t recursive directory pattern) as [paths raised]. cbn [fst snd].
  pose proof (fold_raising_spec (add_file t) (fun q => quiet_file q)
                (fun q p => hit_file q p) add_file_spec paths acc) as H.
  destruct (fold_raising (add_file t) paths acc) as [acc'|e].
  - destruct H as (Hq & Hnd & Hin). destruct raised as [e|].
    + intros [_ H]. discriminate H.
    + split; [now split |]. split; [exact Hnd | exact Hin].
  - intros [Hq _]. now apply H.
Qed.

Lemma add_extension_spec acc ext :
  match add_extension upper t directory recursive acc ext with
  | inl acc' => quiet_extension ext /\ (NoDup acc -> NoDup acc') /\
                forall p, p ∈ acc' <-> p ∈ acc \/ hit_extension ext p
  | inr _ => ~ quiet_extension ext
  end.
Proof.
  unfold add_extension.
  exact (fold_raising_spec (add_pattern t directory recursive)
           (fun pattern => quiet_pattern pattern)
           (fun pattern p => hit_pattern pattern p) add_pattern_spec (patterns ext) acc).
Qed.

Lemma collected_spec order acc :
  match fold_raising (add_extension upper t directory recursive) order acc with
  | inl acc' => Forall (fun ext => quiet_extension ext) order /\
                (NoDup acc -> NoDup acc') /\
                forall p, p ∈ acc' <-> p ∈ acc \/ exists ext, ext ∈ order /\ hit_extension ext p
  | inr _ => ~ Forall (fun ext => quiet_extension ext) order
  end.
Proof.
  exact (fold_raising_spec (add_extension upper t directory recursive)
           (fun ext => quiet_extension ext)
           (fun ext p => hit_extension ext p) add_extension_spec order acc).
Qed.

(** What a search that returns a list has met and returns. *)
Lemma found_spec order files :
  find_media_files_in upper t order directory recursive = inl files ->
  dir_exists t directory = inl true /\ is_dir t directory = inl true /\
  Forall (fun ext => quiet_extension ext) order /\
  StronglySorted str_le files /\ NoDup files /\
  forall p, p ∈ files <-> exists ext, ext ∈ order /\ hit_extension ext p.
Proof.
  unfold find_media_files_in.
  destruct (dir_exists t directory) as [[|]|e]; try discriminate.
  destruct (is_dir t directory) as [[|]|e]; try discriminate.
  pose proof (collected_spec order []) as H.
  destruct (fold_raising _ order []) as [media_files|e]; [| discriminate].
  intros [= <-]. destruct H as (Hq & Hnd & Hin).
  destruct (sorted_spec media_files) as [Hsorted Hperm].
  split; [reflexivity |]. split; [reflexivity |]. split; [exact Hq |].
  split; [exact Hsorted |]. split.
  - rewrite Hperm. apply Hnd, NoDup_nil_2.
  - intros p. rewrite Hperm, Hin. split; [| now right].
    intros [Hp | Hp]; [now apply elem_of_nil in Hp | exact Hp].
Qed.

(** A search returns a list as soon as the directory is one and no call
    raises for any extension. *)
Lemma found_when_quiet order :
  dir_exists t directory = inl true -> is_dir t directory = inl true ->
  Forall (fun ext => quiet_extension ext) order ->
  exists files, find_media_files_in upper t order directory recursive = inl files.
Proof.
  intros He Hd Hq. unfold find_media_files_in. rewrite He, Hd.
  pose proof (collected_spec order []) as H.
  destruct (fold_raising _ order []) as [media_files|e]; [now eexists |].
  now apply H in Hq.
Qed.

(** The order in which the set is iterated does not show in a list that is
    returned, nor in whether one is. *)
Lemma order_irrelevant order1 order2 files :
  (forall ext, ext ∈ order1 <-> ext ∈ order2) ->
  find_media_files_in upper t order1 directory recursive = inl files ->
  find_media_files_in upper t order2 directory recursive = inl files.
Proof.
  intros Hsame H1.
  apply found_spec in H1 as (He & Hd & Hq & Hs1 & Hnd1 & Hin1).
  assert (Hq2 : Forall (fun ext => quiet_extension ext) order2).
  { apply Forall_forall. intros ext Hext. apply Hsame in Hext.
    revert ext Hext. now apply Forall_forall. }
  destruct (found_when_quiet order2 He Hd Hq2) as [files2 H2].
  rewrite H2. f_equal.
  apply found_spec in H2 as (_ & _ & _ & Hs2 & Hnd2 & Hin2).
  apply (StronglySorted_unique str_le); [exact Hs2 | exact Hs1 |].
  apply NoDup_Permutation; [exact Hnd2 | exact Hnd1 |].
  intros p. rewrite Hin1, Hin2.
  split; intros (ext & He' & Hp); exists ext; (split; [now apply Hsame | exact Hp]).
Qed.
End Collect.

End DiscoveryFacts.

(** X19. [find_media_files] iterates over a set, and always ends.  When
    it returns a list under one iteration order of the extensions, it
    returns that list under every order.  A missing directory and a path
    that is not a directory are answered with their own errors under every
    order, before anything is searched.  A list is returned exactly when
    the directory is one and no call of the tree raises for any requested
    extension: no glob ends in an exception, and [is_file] and [resolve]
    answer on every path matched.  Any other exception is one that a call
    of the tree raised; which of several escapes can depend on the
    order. *)
Theorem find_media_files_order_independent
    (lower upper : string -> string) (t : Discovery.Tree)
    (directory : string) (file_types : option (list string)) (recursive : bool) :
  let returns :=
    Discovery.find_media_files_returns lower upper t directory file_types recursive in
  (exists answer, returns answer) /\
  (forall files answer, returns (inl files) -> returns answer -> answer = inl files) /\
  (Discovery.dir_exists t directory = inl false ->
   forall answer, returns answer
                  <-> answer = inr (Discovery.DirectoryNotFound directory)) /\
  (Discovery.dir_exists t directory = inl true ->
   Discovery.is_dir t directory = inl false ->
   forall answer, returns answer
                  <-> answer = inr (Discovery.NotADirectory directory)) /\
  (forall e, returns (inr e) ->
     match e with
     | Discovery.DirectoryNotFound d =>
         d = directory /\ Discovery.dir_exists t directory = inl false
     | Discovery.NotADirectory d =>
         d = directory /\ Discovery.dir_exists t directory = inl true /\
         Discovery.is_dir t directory = inl false
     | Discovery.Raised _ => True
     end) /\
  ((exists files, returns (inl files))
   <-> Discovery.dir_exists t directory = inl true /\
       Discovery.is_dir t directory = inl true /\
       forall requested pattern,
         requested ∈ default Handlers.DEFAULT_FILE_TYPES file_types ->
         (let ext := Discovery.lstrip_dots (lower requested) in
          pattern = "*." +:+ ext \/ pattern = "*." +:+ upper ext) ->
         snd (Discovery.glob t recursive directory pattern) = None /\
         forall q, q ∈ fst (Discovery.glob t recursive directory pattern) ->
           Discovery.is_file t q = inl false \/
           Discovery.is_file t q = inl true /\
           exists p, Discovery.resolve t q = inl p).
Proof.
  cbv zeta.
  set (exts := Discovery.extensions lower
                 (default Handlers.DEFAULT_FILE_TYPES file_types)).
  assert (Hone : Discovery.find_media_files_returns lower upper t directory
                   file_types recursive
                   (Discovery.find_media_files_in upper t (remove_dups exts)
                      directory recursive)).
  { exists (remove_dups exts). split; [apply NoDup_remove_dups |].
    split; [intros ext; apply elem_of_remove_dups | reflexivity]. }
  split; [eexists; exact Hone |]. split; [| split; [| split; [| split]]].
  - intros files answer (order1 & _ & Hin1 & H1) (order2 & _ & Hin2 & ->).
    symmetry in H1.
    apply (DiscoveryFacts.order_irrelevant upper t directory recursive order1 order2);
      [| exact H1].
    intros ext. now rewrite Hin1, Hin2.
  - intros He answer. split.
    + intros (order & _ & _ & ->). unfold Discovery.find_media_files_in.
      now rewrite He.
    + intros ->. unfold Discovery.find_media_files_in in Hone.
      now rewrite He in Hone.
  - intros He Hd answer. split.
    + intros (order & _ & _ & ->). unfold Discovery.find_media_files_in.
      now rewrite He, Hd.
    + intros ->. unfold Discovery.find_media_files_in in Hone.
      now rewrite He, Hd in Hone.
  - intros e (order & _ & _ & H). unfold Discovery.find_media_files_in in H.
    destruct (Discovery.dir_exists t directory) as [[|]|m].
    + destruct (Discovery.is_dir t directory) as [[|]|m'].
      * destruct (Discovery.fold_raising _ order []); [discriminate H |].
        now injection H as ->.
      * injection H as ->. repeat split.
      * now injection H as ->.
    + injection H as ->. repeat split.
    + now injection H as ->.
  - split.
    + intros (files & order & _ & Hin & H). symmetry in H.
      apply DiscoveryFacts.found_spec in H as (He & Hd & Hq & _).
      split; [exact He |]. split; [exact Hd |].
      intros requested pattern Hreq Hpat.
      assert (Hext : Discovery.lstrip_dots (lower requested) ∈ order).
      { apply Hin. unfold Discovery.extensions.
        apply list_elem_of_fmap. now exists requested. }
      pose proof (proj1 (Forall_forall _ _) Hq _ Hext) as Hpats.
      assert (Hquiet : Forall
                (fun q => Discovery.is_file t q = inl false \/
                          Discovery.is_file t q = inl true /\
                          exists p, Discovery.resolve t q = inl p)
                (fst (Discovery.glob t recursive directory pattern)) /\
              snd (Discovery.glob t recursive directory pattern) = None).
      { apply (proj1 (Forall_forall _ _) Hpats).
        destruct Hpat as [-> | ->]; [apply elem_of_cons; now left |].
        apply elem_of_cons. right. apply elem_of_cons. now left. }
      destruct Hquiet as [Hfiles Hend]. split; [exact Hend |].
      now apply Forall_forall.
    + intros (He & Hd & Hq).
      destruct (DiscoveryFacts.found_when_quiet upper t directory recursive
                  (remove_dups exts) He Hd) as [files Hfiles].
      * apply Forall_forall. intros ext Hext.
        apply (proj1 (elem_of_remove_dups _ _)) in Hext.
        unfold exts, Discovery.extensions in Hext.
        apply list_elem_of_fmap in Hext as (requested & -> & Hreq).
        apply Forall_forall. intros pattern Hpat.
        destruct (Hq requested pattern Hreq) as [Hend Hfiles].
        { apply elem_of_cons in Hpat as [-> | Hpat]; [now left |].
          apply elem_of_cons in Hpat as [-> | Hpat]; [now right |].
          now apply elem_of_nil in Hpat. }
        split; [now apply Forall_forall | exact Hend].
      * exists files. rewrite <- Hfiles. exact Hone.
Qed.

(** The glob refuses the pattern of one extension and [is_file] is denied
    on a file of another: which of the two exceptions leaves the function
    depends on the order in which the two extensions are gone through. *)
Lemma find_media_files_exception_depends_on_order :
  let t := {| Discovery.dir_exists := fun _ => inl true;
              Discovery.is_dir := fun _ => inl true;
              Discovery.glob :=
                fun _ _ pattern =>
                  if String.eqb pattern "*.**" then ([], Some "Invalid pattern")
                  else if String.eqb pattern "*.mp3" then (["/m/a.mp3"], None)
                  else ([], None);
              Discovery.is_file := fun _ => inr "Permission denied";
              Discovery.resolve := fun p => inl p |} in
  Discovery.find_media_files_returns (fun s => s) (fun s => s) t "/m"
    (Some ["**"; "mp3"]) false (inr (Discovery.Raised "Invalid pattern")) /\
  Discovery.find_media_files_returns (fun s => s) (fun s => s) t "/m"
    (Some ["**"; "mp3"]) false (inr (Discovery.Raised "Permission denied")).
Proof.
  intros t. split.
  - exists ["**"; "mp3"]. split; [| split; [reflexivity | reflexivity]].
    apply NoDup_cons. split; [| apply NoDup_singleton].
    intros H. apply list_elem_of_singleton in H. discriminate H.
  - exists ["mp3"; "**"]. split; [| split; [| reflexivity]].
    + apply NoDup_cons. split; [| apply NoDup_singleton].
      intros H. apply list_elem_of_singleton in H. discriminate H.
    + intros ext. cbn. rewrite !elem_of_cons. tauto.
Qed.

(** X20. The list that [find_media_files] returns is in ascending order
    of [str], has no path twice, and holds exactly the resolved paths of
    the regular files that the glob matched for a requested extension,
    lowered and without leading dots, or for its upper-case form. *)
Theorem find_media_files_sorted_matches
    (lower upper : string -> string) (t : Discovery.Tree)
    (directory : string) (file_types : option (list string)) (recursive : bool)
    (files : list string) :
  Discovery.find_media_files_returns lower upper t directory file_types recursive
    (inl files) ->
  StronglySorted Discovery.str_le files /\
  NoDup files /\
  forall p,
    p ∈ files
    <-> exists requested pattern q,
          requested ∈ default Handlers.DEFAULT_FILE_TYPES file_types /\
          (let ext := Discovery.lstrip_dots (lower requested) in
           pattern = "*." +:+ ext \/ pattern = "*." +:+ upper ext) /\
          q ∈ fst (Discovery.glob t recursive directory pattern) /\
          Discovery.is_file t q = inl true /\
          Discovery.resolve t q = inl p.
Proof.
  intros (order & _ & Hin & Hfiles). symmetry in Hfiles.
  apply DiscoveryFacts.found_spec in Hfiles as (_ & _ & _ & Hsorted & Hnd & Hmem).
  split; [exact Hsorted |]. split; [exact Hnd |].
  intros p. rewrite Hmem. cbv zeta. split.
  - intros (ext & He & pattern & Hpat & q & Hq).
    apply Hin in He. unfold Discovery.extensions in He.
    apply list_elem_of_fmap in He as (requested & -> & Hreq).
    exists requested, pattern, q. split; [exact Hreq |]. split; [| exact Hq].
    apply elem_of_cons in Hpat as [-> | Hpat]; [now left |].
    apply elem_of_cons in Hpat as [-> | Hpat]; [now right |].
    now apply elem_of_nil in Hpat.
  - intros (requested & pattern & q & Hreq & Hpat & Hq).
    exists (Discovery.lstrip_dots (lower requested)).
    split; [| exists pattern; split; [| now exists q]].
    + apply Hin. unfold Discovery.extensions.
      apply list_elem_of_fmap. now exists requested.
    + destruct Hpat as [-> | ->]; [apply elem_of_cons; now left |].
      apply elem_of_cons. right. apply elem_of_cons. now left.
Qed.

(** Two files match [*.mp3], listed by the glob in the other order. *)
Lemma find_media_files_sorted_matches_witness :
  let t := {| Discovery.dir_exists := fun _ => inl true;
              Discovery.is_dir := fun _ => inl true;
              Discovery.glob :=
                fun _ _ pattern =>
                  if String.eqb pattern "*.mp3"
                  then (["/m/b.mp3"; "/m/a.mp3"], None) else ([], None);
              Discovery.is_file := fun _ => inl true;
              Discovery.resolve := fun p => inl p |} in
  let files := ["/m/a.mp3"; "/m/b.mp3"] in
  Discovery.find_media_files_returns (fun s => s) (fun s => s) t "/m" (Some [".mp3"]) false
    (inl files) /\
  StronglySorted Discovery.str_le files /\ NoDup files.
Proof.
  intros t files.
  assert (Hret : Discovery.find_media_files_returns (fun s => s) (fun s => s) t "/m"
                   (Some [".mp3"]) false (inl files)).
  { exists ["mp3"]. split; [apply NoDup_singleton |]. split; [reflexivity |].
    vm_compute. reflexivity. }
  split; [exact Hret |].
  destruct (find_media_files_sorted_matches (fun s => s) (fun s => s) t "/m"
              (Some [".mp3"]) false files Hret) as (Hsorted & Hnd & _).
  split; [exact Hsorted | exact Hnd].
Defined.
